(** * Holdings aggregation and overlap layout of crypto-visual

    A shallow embedding of [process_market_maker_data] (the aggregator),
    of the selection filter of the page script and of
    [create_venn_diagram] (the layout engine) from [src/app.py].

    Numbers.  Python numbers are modelled as exact rationals [Q]: every
    float is a rational, and the rounding of float arithmetic is not
    modelled.  Equality of numbers is [Qeq] ([==]), which is how Python
    compares [1/2] and [2/4].  Statements about sums and quotients follow
    the order in which the code adds, multiplies and divides; where the
    rounding of floats decides a property, the loops are run on binary64
    floats in [Doubles].

    Dictionaries.  A Python [dict] keeps insertion order, so it is an
    association list in insertion order; a real [dict] has no repeated
    key, which theorems state as [NoDup] of the keys where they need it.

    Exceptions.  Code that can raise runs in the [result] monad. *)

From Stdlib Require Import Floats.
From Stdlib Require Import QArith Lqa String List Bool Arith Lia.
From Stdlib Require Import Sorted Permutation.
Import ListNotations.

Set Warnings "-register-all,-inexact-float".

Open Scope string_scope.
Open Scope list_scope.
Open Scope Q_scope.

(** ** Python values, exceptions *)

(** What a raw record can hold: the JSON-like values the data source
    hands over. *)
Inductive value : Type :=
| VNone
| VNum (q : Q)
| VStr (s : string)
| VList (l : list value)
| VDict (d : list (string * value)).

Inductive exn : Type :=
| AttributeError
| TypeError
| KeyError
| ValueError
| ZeroDivisionError.

Inductive result (A : Type) : Type :=
| Ok (a : A)
| Raise (e : exn).

Arguments Ok {A} a.
Arguments Raise {A} e.

Definition bind {A B : Type} (m : result A) (k : A -> result B) : result B :=
  match m with
  | Ok a => k a
  | Raise e => Raise e
  end.

Notation "x <- m ;; k" := (bind m (fun x => k))
  (at level 61, m at next level, right associativity).
Notation "' p <- m ;; k" := (bind m (fun x => match x with p => k end))
  (at level 61, p pattern, m at next level, right associativity).

(** A [for] loop threading a state, stopped by the first exception. *)
Fixpoint foldM {S X : Type} (f : S -> X -> result S) (l : list X) (s : S)
  : result S :=
  match l with
  | [] => Ok s
  | x :: l' => s' <- f s x ;; foldM f l' s'
  end.

(** A list comprehension whose element expression can raise. *)
Fixpoint mapM {X Y : Type} (f : X -> result Y) (l : list X) : result (list Y) :=
  match l with
  | [] => Ok []
  | x :: l' => y <- f x ;; ys <- mapM f l' ;; Ok (y :: ys)
  end.

(** ** Dictionaries in insertion order *)

Module Dict.

Definition dict (V : Type) : Type := list (string * V).

Definition keys {V : Type} (d : dict V) : list string := map fst d.
Definition values {V : Type} (d : dict V) : list V := map snd d.

(** [d.get(k)] *)
Fixpoint get {V : Type} (d : dict V) (k : string) : option V :=
  match d with
  | [] => None
  | (k', v) :: d' => if String.eqb k' k then Some v else get d' k
  end.

(** [k in d] *)
Definition contains {V : Type} (d : dict V) (k : string) : bool :=
  match get d k with
  | Some _ => true
  | None => false
  end.

(** [d[k] = v]: an existing key keeps its place, a new one goes last. *)
Fixpoint setitem {V : Type} (d : dict V) (k : string) (v : V) : dict V :=
  match d with
  | [] => [(k, v)]
  | (k', v') :: d' =>
      if String.eqb k' k then (k, v) :: d' else (k', v') :: setitem d' k v
  end.

(** [dict(items)] *)
Definition of_list {V : Type} (items : list (string * V)) : dict V :=
  fold_left (fun d kv => setitem d (fst kv) (snd kv)) items [].

End Dict.

Abbreviation dict := Dict.dict.

(** [d[k]], which raises [KeyError] on a missing key. *)
Definition py_index {V : Type} (d : dict V) (k : string) : result V :=
  match Dict.get d k with
  | Some v => Ok v
  | None => Raise KeyError
  end.

(** [obj.get(key, default)]: only a mapping has [get]. *)
Definition py_get (obj : value) (key : string) (default : value) : result value :=
  match obj with
  | VDict d =>
      Ok (match Dict.get d key with
          | Some v => v
          | None => default
          end)
  | _ => Raise AttributeError
  end.

(** [obj.items()]: only a mapping has [items] (and [values]). *)
Definition py_items (obj : value) : result (list (string * value)) :=
  match obj with
  | VDict d => Ok d
  | _ => Raise AttributeError
  end.

(** [acc + v] for a numeric accumulator: [TypeError] unless [v] is a number. *)
Definition py_add (acc : Q) (v : value) : result Q :=
  match v with
  | VNum q => Ok (acc + q)
  | _ => Raise TypeError
  end.

(** [a / b] *)
Definition py_div (a b : Q) : result Q :=
  if Qeq_bool b 0 then Raise ZeroDivisionError else Ok (a / b).

(** [max(a, b)]: the first argument wins a tie. *)
Definition py_max (a b : Q) : Q :=
  if Qle_bool b a then a else b.

(** [sorted(l, key=key, reverse=True)]: Python's sort is stable, and
    [reverse=True] keeps the original order of elements with equal keys.
    Insertion from the right: an element goes in front of every element
    whose key is not greater than its own. *)
Section Sorting.

Context {X : Type} (key : X -> Q).

Fixpoint insert_desc (x : X) (l : list X) : list X :=
  match l with
  | [] => [x]
  | y :: l' =>
      if Qle_bool (key y) (key x) then x :: y :: l'
      else y :: insert_desc x l'
  end.

Fixpoint sorted_desc (l : list X) : list X :=
  match l with
  | [] => []
  | x :: l' => insert_desc x (sorted_desc l')
  end.

(** Largest key first. *)
Definition ge_key (a b : X) : Prop := key b <= key a.

(** The elements whose key equals [v], in the order of the list. *)
Definition tied (v : Q) (l : list X) : list X :=
  filter (fun x => Qeq_bool (key x) v) l.

End Sorting.

(** ** The normalized index *)

Record Holding : Type := mkHolding {
  quantity : Q;
  value_usd : Q
}.

Module Entity.
Record t : Type := mk {
  total_value : Q;
  assets : dict Holding
}.
End Entity.

Module Asset.
Record t : Type := mk {
  name : value;
  entities : list string;
  total_quantity : Q;
  total_value : Q
}.
End Asset.

Record Index : Type := mkIndex {
  entities : dict Entity.t;
  assets : dict Asset.t
}.

(** ** The aggregator: [process_market_maker_data] *)

(** A numeric field read with [asset_info.get(field, 0)].  The source stores
    the field in the holding as it is and adds it to the asset's running
    total in the same iteration, where a value that is not a number raises
    [TypeError]; the model checks at the read, so that a holding of a
    returned index holds numbers. *)
Definition as_num (v : value) : result Q :=
  match v with
  | VNum q => Ok q
  | _ => Raise TypeError
  end.

Definition get_num (asset_info : value) (field : string) : result Q :=
  v <- py_get asset_info field (VNum 0) ;;
  as_num v.

(** [sum(asset_info.get("value_usd", 0) for asset_info in entity_assets.values())] *)
Fixpoint sum_value_usd (infos : list value) (acc : Q) : result Q :=
  match infos with
  | [] => Ok acc
  | asset_info :: rest =>
      v <- py_get asset_info "value_usd" (VNum 0) ;;
      acc' <- py_add acc v ;;
      sum_value_usd rest acc'
  end.

(** The body of the inner loop (one asset of one entity). *)
Definition process_asset (entity_name : string) (processed_data : Index)
    (item : string * value) : result Index :=
  let asset_symbol := fst item in
  let asset_info := snd item in
  q <- get_num asset_info "quantity" ;;
  v <- get_num asset_info "value_usd" ;;
  ent <- py_index (entities processed_data) entity_name ;;
  let ent' :=
    Entity.mk (Entity.total_value ent)
      (Dict.setitem (Entity.assets ent) asset_symbol (mkHolding q v)) in
  let entities' := Dict.setitem (entities processed_data) entity_name ent' in
  assets0 <-
    (if Dict.contains (assets processed_data) asset_symbol
     then Ok (assets processed_data)
     else
       nm <- py_get asset_info "name" (VStr asset_symbol) ;;
       Ok (Dict.setitem (assets processed_data) asset_symbol
             (Asset.mk nm [] 0 0))) ;;
  a <- py_index assets0 asset_symbol ;;
  let a' :=
    Asset.mk (Asset.name a) (Asset.entities a ++ [entity_name])
      (Asset.total_quantity a + q) (Asset.total_value a + v) in
  Ok (mkIndex entities' (Dict.setitem assets0 asset_symbol a')).

(** The body of the outer loop (one entity). *)
Definition process_entity (processed_data : Index) (item : string * value)
  : result Index :=
  let entity_name := fst item in
  let entity_data := snd item in
  entity_assets <- py_get entity_data "assets" (VDict []) ;;
  items <- py_items entity_assets ;;
  total_value <- sum_value_usd (map snd items) 0 ;;
  let processed_data' :=
    mkIndex
      (Dict.setitem (entities processed_data) entity_name
         (Entity.mk total_value []))
      (assets processed_data) in
  foldM (process_asset entity_name) items processed_data'.

Definition asset_key (item : string * Asset.t) : Q :=
  Asset.total_value (snd item).

(** The final sort of the assets. *)
Definition sort_assets (processed_data : Index) : Index :=
  mkIndex (entities processed_data)
    (Dict.of_list (sorted_desc asset_key (assets processed_data))).

Definition fold_entities (raw_data : dict value) : result Index :=
  foldM process_entity raw_data (mkIndex [] []).

Definition process_market_maker_data (raw_data : dict value) : result Index :=
  processed_data <- fold_entities raw_data ;;
  Ok (sort_assets processed_data).

(** ** The selection filter of the page script ([filtered_data]) *)

(** [{k: d[k] for k in selected if k in d}] *)
Definition restrict {V : Type} (d : dict V) (selected : list string) : dict V :=
  fold_left
    (fun acc k =>
       match Dict.get d k with
       | Some v => Dict.setitem acc k v
       | None => acc
       end)
    selected [].

Definition filtered_data (market_maker_data : Index)
    (selected_entities selected_assets : list string) : Index :=
  mkIndex (restrict (entities market_maker_data) selected_entities)
          (restrict (assets market_maker_data) selected_assets).

(** ** The layout engine: [create_venn_diagram] *)

(** The scene keeps what the figure is computed from: place, size,
    percentage, tier colour and holders.  Texts, opacities, the lightened
    colour of a zone, the legend and the page decoration are constants or
    formatting of these, raise nothing, and are left out. *)

Record Zone : Type := mkZone {
  zone_entity : string;
  zone_x : Q;
  zone_y : Q;
  zone_size : Q
}.

Record AssetLayout : Type := mkAssetLayout {
  asset_position : Q * Q;
  asset_size : Q;
  asset_holders : list string;
  asset_percentage : Q
}.

Record Bubble : Type := mkBubble {
  bubble_asset : string;
  bubble_x : Q;
  bubble_y : Q;
  bubble_size : Q;
  bubble_percentage : Q;
  bubble_color : string;
  bubble_holders : list string;
  bubble_breakdown : list (string * Q * Q)
}.

Record Scene : Type := mkScene {
  zones : list Zone;
  labels : list (string * (Q * Q));
  bubbles : list Bubble
}.

Definition of_nat (n : nat) : Q := inject_Z (Z.of_nat n).

(** [sum(l)] *)
Definition py_sum (l : list Q) : Q := fold_left Qplus l 0.

(** [entity_info["assets"].get(asset, {}).get("value_usd", 0)] *)
Definition holding_value (entity_info : Entity.t) (asset : string) : Q :=
  match Dict.get (Entity.assets entity_info) asset with
  | Some h => value_usd h
  | None => 0
  end.

(** The five bands of [percentage_color_ranges], and the last colour for a
    percentage in none of them. *)
Definition percentage_color_ranges : list (Q * Q * string) :=
  [ (0, 1, "#CCCCCC"); (1, 5, "#92D050"); (5, 10, "#00B0F0");
    (10, 20, "#FFC000"); (20, 100, "#FF0000") ].

Definition percentage_color (asset_percentage : Q) : string :=
  match
    find (fun r =>
            Qle_bool (fst (fst r)) asset_percentage
            && negb (Qle_bool (snd (fst r)) asset_percentage))
         percentage_color_ranges
  with
  | Some r => snd r
  | None => "#FF0000"
  end.

(** Line 887: the selected holders of an asset, in rank order. *)
Definition holders_of (sorted : list string) (asset_info : Asset.t)
  : list string :=
  filter (fun entity => existsb (String.eqb entity) (Asset.entities asset_info))
         sorted.

Section Layout.

(** The float functions of Python's [math] module. *)
Variable math_pi : Q.
Variables math_cos math_sin math_sqrt math_log10 : Q -> Q.

(** [math.sqrt(x)] raises [ValueError] below zero. *)
Definition py_sqrt (x : Q) : result Q :=
  if Qle_bool 0 x then Ok (math_sqrt x) else Raise ValueError.

(** [math.log10(x)] raises [ValueError] at zero and below. *)
Definition py_log10 (x : Q) : result Q :=
  if Qle_bool x 0 then Raise ValueError else Ok (math_log10 x).

Definition radius : Q := 5.5.

(** Lines 829-831: the entities by total value, largest first. *)
Definition sorted_entities (data : Index) : result (list string) :=
  entity_values <-
    mapM (fun entity =>
            entity_info <- py_index (entities data) entity ;;
            Ok (entity, Entity.total_value entity_info))
         (Dict.keys (entities data)) ;;
  Ok (map fst (sorted_desc snd entity_values)).

(** The point of rank [i] among [num_entities] on the circle. *)
Definition anchor (i num_entities : nat) : result (Q * Q) :=
  angle <- py_div (2 * math_pi * of_nat i) (of_nat num_entities) ;;
  Ok (radius * math_cos angle, radius * math_sin angle).

(** The zone of an entity of the ring and its recorded position. *)
Definition zone_at (n : nat) (ie : nat * string) (z : Zone) : Prop :=
  zone_entity z = snd ie /\ anchor (fst ie) n = Ok (zone_x z, zone_y z).

(** An entity that occurs once among the ranked pairs [p] is recorded
    at the anchor of its rank. *)
Definition positioned (n : nat) (p : list (nat * string))
    (entity_positions : dict (Q * Q)) : Prop :=
  forall i e,
    In (i, e) p -> (forall j, In (j, e) p -> j = i) ->
    exists xy, anchor i n = Ok xy /\ Dict.get entity_positions e = Some xy.

(** The body of the loop of lines 851-877. *)
Definition place_entity (data : Index) (num_entities : nat)
    (st : dict (Q * Q) * list Zone) (ie : nat * string)
  : result (dict (Q * Q) * list Zone) :=
  let i := fst ie in
  let entity := snd ie in
  xy <- anchor i num_entities ;;
  entity_info <- py_index (entities data) entity ;;
  root <- py_sqrt (Entity.total_value entity_info) ;;
  let entity_size := root * 0.00002 in
  Ok (Dict.setitem (fst st) entity xy,
      snd st ++ [mkZone entity (fst xy) (snd xy)
                   (py_max (entity_size * 25) 40)]).

Definition enumerate {X : Type} (l : list X) : list (nat * X) :=
  combine (seq 0 (length l)) l.

Definition place_entities (data : Index) (sorted : list string)
  : result (dict (Q * Q) * list Zone) :=
  foldM (place_entity data (length sorted)) (enumerate sorted) ([], []).

(** Lines 895-905: the weighted sums of the holders' coordinates. *)
Definition add_weighted (data : Index) (entity_positions : dict (Q * Q))
    (asset : string) (sums : Q * Q) (holder : string) : result (Q * Q) :=
  entity_info <- py_index (entities data) holder ;;
  xy <- py_index entity_positions holder ;;
  let weight := holding_value entity_info asset in
  Ok (fst sums + fst xy * weight, snd sums + snd xy * weight).

(** Lines 908-915: the place of an asset among its holders. *)
Definition centroid (data : Index) (entity_positions : dict (Q * Q))
    (asset : string) (holders : list string) : result (Q * Q) :=
  sums <- foldM (add_weighted data entity_positions asset) holders (0, 0) ;;
  weights <-
    mapM (fun holder =>
            entity_info <- py_index (entities data) holder ;;
            Ok (holding_value entity_info asset))
         holders ;;
  let total_weight := py_sum weights in
  if Qle_bool total_weight 0 then
    points <- mapM (py_index entity_positions) holders ;;
    x <- py_div (py_sum (map fst points)) (of_nat (length holders)) ;;
    y <- py_div (py_sum (map snd points)) (of_nat (length holders)) ;;
    Ok (x, y)
  else
    x <- py_div (fst sums) total_weight ;;
    y <- py_div (snd sums) total_weight ;;
    Ok (x, y).

(** Lines 922-923. *)
Definition market_share (data : Index) (asset_info : Asset.t) : result Q :=
  totals <-
    mapM (fun entity =>
            entity_info <- py_index (entities data) entity ;;
            Ok (Entity.total_value entity_info))
         (Dict.keys (entities data)) ;;
  let total_market_value := py_sum totals in
  share <- py_div (Asset.total_value asset_info) total_market_value ;;
  Ok (share * 100).

(** The body of the loop of lines 885-924.  The source fills four
    dictionaries with the same keys; the model keeps one, of records. *)
Definition layout_asset (data : Index) (sorted : list string)
    (entity_positions : dict (Q * Q)) (layouts : dict AssetLayout)
    (asset : string) : result (dict AssetLayout) :=
  asset_info <- py_index (assets data) asset ;;
  let holders := holders_of sorted asset_info in
  match holders with
  | [] => Ok layouts
  | _ :: _ =>
      position <- centroid data entity_positions asset holders ;;
      lg <- py_log10 (py_max 1 (Asset.total_value asset_info)) ;;
      asset_percentage <- market_share data asset_info ;;
      Ok (Dict.setitem layouts asset
            (mkAssetLayout position (lg * 0.8) holders asset_percentage))
  end.

(** Lines 967-972: the holders' shares of the asset, for the hover text. *)
Definition breakdown_entry (data : Index) (asset : string)
    (asset_info : Asset.t) (acc : list (string * Q * Q)) (holder : string)
  : result (list (string * Q * Q)) :=
  entity_info <- py_index (entities data) holder ;;
  match Dict.get (Entity.assets entity_info) asset with
  | Some asset_in_entity =>
      share <- py_div (value_usd asset_in_entity)
                 (Asset.total_value asset_info) ;;
      Ok (acc ++ [(holder, value_usd asset_in_entity, share * 100)])
  | None => Ok acc
  end.

(** The body of the loop of lines 947-1059. *)
Definition draw_asset (data : Index) (layouts : dict AssetLayout)
    (drawn : list Bubble) (asset : string) : result (list Bubble) :=
  match Dict.get layouts asset with
  | None => Ok drawn
  | Some l =>
      asset_info <- py_index (assets data) asset ;;
      breakdown <-
        foldM (breakdown_entry data asset asset_info) (asset_holders l) [] ;;
      Ok (drawn ++
            [mkBubble asset (fst (asset_position l)) (snd (asset_position l))
               (asset_size l * 25) (asset_percentage l)
               (percentage_color (asset_percentage l))
               (asset_holders l) breakdown])
  end.

Definition layout_size (layouts : dict AssetLayout) (asset : string) : Q :=
  match Dict.get layouts asset with
  | Some l => asset_size l
  | None => 0
  end.

Definition create_venn_diagram (data : Index) : result Scene :=
  let asset_names := Dict.keys (assets data) in
  sorted <- sorted_entities data ;;
  placed <- place_entities data sorted ;;
  let entity_positions := fst placed in
  layouts <- foldM (layout_asset data sorted entity_positions) asset_names [] ;;
  let sorted_assets := sorted_desc (layout_size layouts) asset_names in
  drawn <- foldM (draw_asset data layouts) sorted_assets [] ;;
  Ok (mkScene (snd placed) entity_positions drawn).

(** The page script draws only when both selections are non-empty
    ([if selected_entities and selected_assets:]); otherwise it shows a
    notice and no scene. *)
Definition layout (market_maker_data : Index)
    (selected_entities selected_assets : list string)
  : result (option Scene) :=
  match selected_entities, selected_assets with
  | _ :: _, _ :: _ =>
      scene <- create_venn_diagram
                 (filtered_data market_maker_data
                    selected_entities selected_assets) ;;
      Ok (Some scene)
  | _, _ => Ok None
  end.

End Layout.

(** ** The overlap matrix: [calculate_overlap_matrix] *)

(** A cell of a row: the symbol under ["Asset"], a value under an entity. *)
Inductive cell : Type :=
| CText (s : string)
| CNum (q : Q).

(** Lines 759-764: the cell of one entity.  [holders] is
    [asset_info.get("entities", [])]. *)
Definition overlap_cell (data : Index) (asset : string) (holders : list string)
    (row : dict cell) (entity : string) : result (dict cell) :=
  if existsb (String.eqb entity) holders then
    entity_info <- py_index (entities data) entity ;;
    Ok (Dict.setitem row entity (CNum (holding_value entity_info asset)))
  else
    Ok (Dict.setitem row entity (CNum 0)).

(** Lines 756-766: the row of one asset.  An asset that is not in the data
    is read as [{}], which lists no holder. *)
Definition overlap_row (data : Index) (entity_names : list string)
    (asset : string) : result (dict cell) :=
  let holders :=
    match Dict.get (assets data) asset with
    | Some asset_info => Asset.entities asset_info
    | None => []
    end in
  foldM (overlap_cell data asset holders) entity_names [("Asset", CText asset)].

(** The rows handed to [pd.DataFrame]; the parameters [entities] and
    [assets] of the source are [entity_names] and [asset_names] here. *)
Definition calculate_overlap_matrix (data : Index)
    (entity_names asset_names : list string) : result (list (dict cell)) :=
  mapM (overlap_row data entity_names) asset_names.

(** ** The table of the page script (lines 327-341) *)

(** A row of [table_data], with its numbers before they are formatted. *)
Record TableRow : Type := mkTableRow {
  row_asset : string;
  row_total_value : Q;
  row_total_quantity : Q;
  row_market_share : Q;
  row_holders : list string
}.

(** The body of the loop of lines 329-341. *)
Definition table_row (market_maker_data filtered : Index)
    (selected_entities : list string) (table_data : list TableRow)
    (asset : string) : result (list TableRow) :=
  match Dict.get (assets market_maker_data) asset with
  | None => Ok table_data
  | Some asset_info =>
      held <-
        mapM (fun entity =>
                entity_info <- py_index (entities market_maker_data) entity ;;
                Ok (entity, Dict.contains (Entity.assets entity_info) asset))
             selected_entities ;;
      let holders := map fst (filter snd held) in
      totals <-
        mapM (fun a =>
                a_info <- py_index (assets filtered) a ;;
                Ok (Asset.total_value a_info))
             (Dict.keys (assets filtered)) ;;
      share <- py_div (Asset.total_value asset_info) (py_sum totals) ;;
      Ok (table_data ++
            [mkTableRow asset (Asset.total_value asset_info)
               (Asset.total_quantity asset_info) (share * 100) holders])
  end.

Definition table_data (market_maker_data : Index)
    (selected_entities selected_assets : list string) : result (list TableRow) :=
  foldM (table_row market_maker_data
           (filtered_data market_maker_data selected_entities selected_assets)
           selected_entities)
        selected_assets [].

(** ** The asset choices of the sidebar (lines 197 and 226-235) *)

(** [sorted(all_assets, key=..., reverse=True)]: the key of a symbol is the
    total value of its node. *)
Definition sorted_assets (market_maker_data : Index) : result (list string) :=
  let all_assets := Dict.keys (assets market_maker_data) in
  keyed <-
    mapM (fun x =>
            asset_info <- py_index (assets market_maker_data) x ;;
            Ok (x, Asset.total_value asset_info))
         all_assets ;;
  Ok (map fst (sorted_desc snd keyed)).

(** [sorted_assets[:10]], on either side of the "Top 10" button. *)
Definition default_assets (market_maker_data : Index) : result (list string) :=
  sorted <- sorted_assets market_maker_data ;;
  Ok (firstn 10 sorted).

(** ** The fetch loop of [update_data] (lines 37-53) *)



Section Fetch.

(** [api_client.get_entity_holdings], called once for each entity. *)
Variable get_entity_holdings : string -> result value.



End Fetch.

(** ** Notions the properties are stated with *)

(** The asset records of a raw input in the order the aggregator visits
    them: entity by entity, and the assets of an entity in their order. *)
Definition entity_records (item : string * value)
  : list (string * (string * value)) :=
  match py_get (snd item) "assets" (VDict []) with
  | Ok (VDict entity_assets) => map (fun kv => (fst item, kv)) entity_assets
  | _ => []
  end.

Definition raw_records (raw_data : dict value)
  : list (string * (string * value)) :=
  flat_map entity_records raw_data.

Definition record_symbol (r : string * (string * value)) : string :=
  fst (snd r).

(** The first record of a symbol, if any. *)
Definition first_record (records : list (string * (string * value)))
    (asset_symbol : string) : option (string * (string * value)) :=
  find (fun r => String.eqb (record_symbol r) asset_symbol) records.

(** The symbols of a list in the order of their first occurrence. *)
Fixpoint first_seen (seen l : list string) : list string :=
  match l with
  | [] => []
  | s :: l' =>
      if existsb (String.eqb s) seen then first_seen seen l'
      else s :: first_seen (seen ++ [s]) l'
  end.

(** [entity] is in the holder list of [asset_symbol]. *)
Definition listed_holder (idx : Index) (entity asset_symbol : string) : Prop :=
  exists a, Dict.get (assets idx) asset_symbol = Some a
            /\ In entity (Asset.entities a).

(** [asset_symbol] is in the holdings of [entity]. *)
Definition has_holding (idx : Index) (entity asset_symbol : string) : Prop :=
  exists ent, Dict.get (entities idx) entity = Some ent
              /\ Dict.contains (Entity.assets ent) asset_symbol = true.

Definition symmetric (idx : Index) : Prop :=
  forall e s, listed_holder idx e s <-> has_holding idx e s.

Definition sum_entity_values (idx : Index) : Q :=
  py_sum (map Entity.total_value (Dict.values (entities idx))).

(** Every asset of the index carries the name of the first record of its
    symbol among [records], and the index has no other asset. *)
Definition named_by_first (records : list (string * (string * value)))
    (idx : Index) : Prop :=
  forall s,
    match Dict.get (assets idx) s with
    | Some a =>
        exists e info,
          first_record records s = Some (e, (s, info))
          /\ py_get info "name" (VStr s) = Ok (Asset.name a)
    | None => first_record records s = None
    end.



(** The entities with their totals, in the order of the index. *)
Definition entity_values (data : Index) : list (string * Q) :=
  map (fun kv => (fst kv, Entity.total_value (snd kv))) (entities data).

(** The weights and the anchors of the holders of an asset. *)
Definition held_value (data : Index) (asset holder : string) : Q :=
  match Dict.get (entities data) holder with
  | Some entity_info =>
      match Dict.get (Entity.assets entity_info) asset with
      | Some h => value_usd h
      | None => 0
      end
  | None => 0
  end.

Definition weights_of (data : Index) (asset : string) (holders : list string)
  : list Q :=
  map (held_value data asset) holders.

Definition points_of (entity_positions : dict (Q * Q)) (holders : list string)
  : list (Q * Q) :=
  map (fun holder =>
         match Dict.get entity_positions holder with
         | Some xy => xy
         | None => (0, 0)
         end)
      holders.

(** [sum(x * w)] over two lists side by side. *)
Definition weighted_sum (xs ws : list Q) : Q :=
  py_sum (map (fun xw => fst xw * snd xw) (combine xs ws)).

(** What the asset loop records for an asset: its selected holders (at
    least one), its place among them and its share. *)
Definition laid_out (data : Index) (sorted : list string)
    (entity_positions : dict (Q * Q)) (asset : string) (l : AssetLayout)
  : Prop :=
  exists asset_info,
    Dict.get (assets data) asset = Some asset_info
    /\ asset_holders l = holders_of sorted asset_info
    /\ asset_holders l <> []
    /\ centroid data entity_positions asset (asset_holders l)
       = Ok (asset_position l)
    /\ market_share data asset_info = Ok (asset_percentage l).

(** A bubble shows what was recorded for its asset. *)
Definition drawn_from (layouts : dict AssetLayout) (b : Bubble) : Prop :=
  exists l,
    Dict.get layouts (bubble_asset b) = Some l
    /\ (bubble_x b, bubble_y b) = asset_position l
    /\ bubble_percentage b = asset_percentage l
    /\ bubble_holders b = asset_holders l.

(** A field that is a number, or missing. *)
Definition numeric_or_missing (info : dict value) (field : string) : bool :=
  match Dict.get info field with
  | None | Some (VNum _) => true
  | Some _ => false
  end.

(** An asset record the aggregator can read: a mapping whose [quantity]
    and [value_usd] are numbers or missing. *)
Definition wf_asset_info (asset_info : value) : bool :=
  match asset_info with
  | VDict info =>
      numeric_or_missing info "quantity" && numeric_or_missing info "value_usd"
  | _ => false
  end.

(** An entity record the aggregator can read: a mapping whose [assets],
    when present, is a mapping of readable asset records. *)
Definition wf_record (entity_data : value) : bool :=
  match entity_data with
  | VDict r =>
      match Dict.get r "assets" with
      | None => true
      | Some (VDict entity_assets) =>
          forallb wf_asset_info (Dict.values entity_assets)
      | Some _ => false
      end
  | _ => false
  end.



(** ** Notions for further properties of the aggregator *)

(** The numbers the aggregator reads from a record (0 for a field it
    cannot read, which a run that returns never meets). *)
Definition record_quantity (r : string * (string * value)) : Q :=
  match get_num (snd (snd r)) "quantity" with
  | Ok q => q
  | Raise _ => 0
  end.

Definition record_value (r : string * (string * value)) : Q :=
  match get_num (snd (snd r)) "value_usd" with
  | Ok v => v
  | Raise _ => 0
  end.

(** The records of a symbol, in visiting order. *)
Definition records_of (records : list (string * (string * value)))
    (asset_symbol : string) : list (string * (string * value)) :=
  filter (fun r => String.eqb (record_symbol r) asset_symbol) records.

(** The holding the aggregator stores for an asset record. *)
Definition holding_of (item : string * value) : string * Holding :=
  (fst item,
   mkHolding (record_quantity ("", item)) (record_value ("", item))).

(** The asset node of [s] gathers the records of [s] among [records]. *)
Definition gathers (records : list (string * (string * value)))
    (idx : Index) : Prop :=
  forall s,
    match Dict.get (assets idx) s with
    | Some a =>
        Asset.entities a = map fst (records_of records s)
        /\ Asset.total_quantity a
           == py_sum (map record_quantity (records_of records s))
        /\ Asset.total_value a
           == py_sum (map record_value (records_of records s))
        /\ records_of records s <> []
    | None => records_of records s = []
    end.

(** The number under [value_usd] in a record, 0 when there is none. *)
Definition value_usd_of (r : string * (string * value)) : Q :=
  match snd (snd r) with
  | VDict info =>
      match Dict.get info "value_usd" with
      | Some (VNum x) => x
      | _ => 0
      end
  | _ => 0
  end.

(** Larger total value first. *)
Definition larger_total_first (a b : string * Asset.t) : Prop :=
  Asset.total_value (snd b) <= Asset.total_value (snd a).

(** The assets whose total value is [v], in the order of the list. *)
Definition with_total (v : Q) (l : dict Asset.t) : dict Asset.t :=
  filter (fun a => Qeq_bool (Asset.total_value (snd a)) v) l.

(** [entity] has the anchor [(x, y)] in [entity_positions]. *)
Definition anchored (entity_positions : dict (Q * Q)) (entity : string)
    (x y : Q) : Prop :=
  match Dict.get entity_positions entity with
  | Some xy => fst xy == x /\ snd xy == y
  | None => False
  end.

(** The total value of an asset of the index, 0 for a symbol it does not
    have. *)
Definition total_of (idx : Index) (asset : string) : Q :=
  match Dict.get (assets idx) asset with
  | Some asset_info => Asset.total_value asset_info
  | None => 0
  end.

(** ** Notions for further properties of the layout engine *)

(** The bubble the drawing loop makes of a record. *)
Definition bubble_of (layouts : dict AssetLayout) (a : string) (b : Bubble)
  : Prop :=
  bubble_asset b = a
  /\ exists l,
       Dict.get layouts a = Some l
       /\ bubble_size b = asset_size l * 25
       /\ bubble_percentage b = asset_percentage l
       /\ bubble_holders b = asset_holders l.

(** The value the overlap matrix shows for an entity and an asset. *)
Definition overlap_value (data : Index) (asset entity : string) : Q :=
  match Dict.get (assets data) asset with
  | Some asset_info =>
      if existsb (String.eqb entity) (Asset.entities asset_info) then
        match Dict.get (entities data) entity with
        | Some entity_info => holding_value entity_info asset
        | None => 0
        end
      else 0
  | None => 0
  end.

(** A holder that is listed for a requested asset, is requested, and is
    not an entity of the data. *)
Definition dangling_holder (data : Index) (entity_names asset_names : list string)
  : Prop :=
  exists asset asset_info entity,
    In asset asset_names /\ In entity entity_names
    /\ Dict.get (assets data) asset = Some asset_info
    /\ In entity (Asset.entities asset_info)
    /\ Dict.get (entities data) entity = None.

(** What a row of the overlap matrix holds. *)
Definition overlap_row_of (data : Index) (entity_names : list string)
    (asset : string) (row : dict cell) : Prop :=
  (~ In "Asset" entity_names -> Dict.get row "Asset" = Some (CText asset))
  /\ forall entity,
       In entity entity_names ->
       Dict.get row entity = Some (CNum (overlap_value data asset entity)).

(** ** Sample inputs *)

(** The example of the specification: [A] holds [X], [B] holds [X] and [Y]. *)
Definition raw_ex : dict value :=
  [ ("A", VDict [("assets", VDict [("X", VDict [("value_usd", VNum 100)])])]);
    ("B", VDict [("assets", VDict [("X", VDict [("value_usd", VNum 300)]);
                                     ("Y", VDict [("value_usd", VNum 50)])])]) ].

Definition idx_ex : Index :=
  mkIndex
    [ ("A", Entity.mk 100 [("X", mkHolding 0 100)]);
      ("B", Entity.mk 350 [("X", mkHolding 0 300); ("Y", mkHolding 0 50)]) ]
    [ ("X", Asset.mk (VStr "X") ["A"; "B"] 0 400);
      ("Y", Asset.mk (VStr "Y") ["B"] 0 50) ].

(** Two entities that name the same symbol differently. *)
Definition raw_names : dict value :=
  [ ("A", VDict [("assets",
       VDict [("X", VDict [("name", VStr "Alpha"); ("value_usd", VNum 1)])])]);
    ("B", VDict [("assets",
       VDict [("X", VDict [("name", VStr "Beta"); ("value_usd", VNum 2)])])]) ].

Definition idx_names : Index :=
  mkIndex
    [ ("A", Entity.mk 1 [("X", mkHolding 0 1)]);
      ("B", Entity.mk 2 [("X", mkHolding 0 2)]) ]
    [ ("X", Asset.mk (VStr "Alpha") ["A"; "B"] 0 3) ].



(** A record that is not a mapping, next to a well-formed one. *)
Definition raw_broken : dict value :=
  [ ("A", VDict [("assets", VDict [("X", VDict [("value_usd", VNum 100)])])]);
    ("B", VStr "unavailable") ].

Definition raw_broken_assets : dict value :=
  [ ("A", VDict [("assets", VList [])]);
    ("B", VDict [("assets", VDict [("X", VDict [("value_usd", VNum 100)])])]) ].

(** An entity whose only holding is valued at 0: every total is 0. *)
Definition raw_zero : dict value :=
  [ ("A", VDict [("assets",
       VDict [("X", VDict [("name", VStr "X"); ("quantity", VNum 0);
                           ("value_usd", VNum 0)])])]) ].

Definition idx_zero : Index :=
  mkIndex
    [ ("A", Entity.mk 0 [("X", mkHolding 0 0)]) ]
    [ ("X", Asset.mk (VStr "X") ["A"] 0 0) ].

(** An entity with one holding valued at 0 and one valued at 10. *)
Definition raw_zero_asset : dict value :=
  [ ("A", VDict [("assets",
       VDict [("X", VDict [("quantity", VNum 0); ("value_usd", VNum 0)]);
              ("Y", VDict [("quantity", VNum 1); ("value_usd", VNum 10)])])]) ].

Definition idx_zero_asset : Index :=
  mkIndex
    [ ("A", Entity.mk 10 [("X", mkHolding 0 0); ("Y", mkHolding 1 10)]) ]
    [ ("Y", Asset.mk (VStr "Y") ["A"] 1 10);
      ("X", Asset.mk (VStr "X") ["A"] 0 0) ].

(** An index with a negative holding. *)
Definition idx_short : Index :=
  mkIndex
    [ ("A", Entity.mk 5 [("X", mkHolding 1 (-5)); ("Y", mkHolding 1 10)]) ]
    [ ("Y", Asset.mk (VStr "Y") ["A"] 1 10);
      ("X", Asset.mk (VStr "X") ["A"] 1 (-5)) ].

(** A coarse stand-in for the [math] module, enough to run the layout on
    the samples; the theorems hold for every choice of these functions. *)
Definition coarse_pi : Q := 3.
Definition coarse_cos (a : Q) : Q := if Qeq_bool a 0 then 1 else -1.
Definition coarse_sin (a : Q) : Q := 0.
Definition coarse_sqrt (x : Q) : Q := x.
Definition coarse_log10 (x : Q) : Q := x.

Definition coarse_layout (idx : Index)
    (selected_entities selected_assets : list string) : result (option Scene) :=
  layout coarse_pi coarse_cos coarse_sin coarse_sqrt coarse_log10
    idx selected_entities selected_assets.

(** The scene of the example of the specification, both entities and both
    assets selected. *)
Definition scene_ex : Scene :=
  Eval vm_compute in
    match coarse_layout idx_ex ["A"; "B"] ["X"; "Y"] with
    | Ok (Some scene) => scene
    | _ => mkScene [] [] []
    end.




(** The overlap matrix of the example of the specification, asked for a
    symbol that is not there as well. *)
Definition matrix_ex : list (dict cell) :=
  [ [("Asset", CText "X"); ("A", CNum 100); ("B", CNum 300)];
    [("Asset", CText "Z"); ("A", CNum 0); ("B", CNum 0)] ].

(** Three symbols first seen in the order [S], [T], [U]; [T] has the
    largest total, [S] and [U] the same one. *)
Definition raw_reorder : dict value :=
  [ ("A", VDict [("assets", VDict [("S", VDict [("value_usd", VNum 1)]);
                                     ("T", VDict [("value_usd", VNum 2)])])]);
    ("B", VDict [("assets", VDict [("T", VDict [("value_usd", VNum 3)]);
                                     ("U", VDict [("value_usd", VNum 1)])])]) ].

Definition idx_reorder : Index :=
  mkIndex
    [ ("A", Entity.mk 3 [("S", mkHolding 0 1); ("T", mkHolding 0 2)]);
      ("B", Entity.mk 4 [("T", mkHolding 0 3); ("U", mkHolding 0 1)]) ]
    [ ("T", Asset.mk (VStr "T") ["A"; "B"] 0 5);
      ("S", Asset.mk (VStr "S") ["A"] 0 1);
      ("U", Asset.mk (VStr "U") ["B"] 0 1) ].

(** [A] is short 5 of [X] and [B] holds 3 of it: the weights of [X] add
    up to -2. *)
Definition raw_mixed : dict value :=
  [ ("A", VDict [("assets", VDict [("X", VDict [("value_usd", VNum (-5))]);
                                     ("Y", VDict [("value_usd", VNum 10)])])]);
    ("B", VDict [("assets", VDict [("X", VDict [("value_usd", VNum 3)])])]) ].

Definition idx_mixed : Index :=
  mkIndex
    [ ("A", Entity.mk 5 [("X", mkHolding 0 (-5)); ("Y", mkHolding 0 10)]);
      ("B", Entity.mk 3 [("X", mkHolding 0 3)]) ]
    [ ("Y", Asset.mk (VStr "Y") ["A"] 0 10);
      ("X", Asset.mk (VStr "X") ["A"; "B"] 0 (-2)) ].

(** [A] holds [X] at value 0 and [B], left out of the selection below,
    holds it at 5. *)
Definition raw_partial : dict value :=
  [ ("A", VDict [("assets", VDict [("X", VDict [("value_usd", VNum 0)]);
                                     ("Y", VDict [("value_usd", VNum 10)])])]);
    ("B", VDict [("assets", VDict [("X", VDict [("value_usd", VNum 5)])])]) ].

Definition idx_partial : Index :=
  mkIndex
    [ ("A", Entity.mk 10 [("X", mkHolding 0 0); ("Y", mkHolding 0 10)]);
      ("B", Entity.mk 5 [("X", mkHolding 0 5)]) ]
    [ ("Y", Asset.mk (VStr "Y") ["A"] 0 10);
      ("X", Asset.mk (VStr "X") ["A"; "B"] 0 5) ].

(** The scene of [idx_partial] with only [A] selected. *)
Definition scene_partial : Scene :=
  Eval vm_compute in
    match coarse_layout idx_partial ["A"] ["X"; "Y"] with
    | Ok (Some scene) => scene
    | _ => mkScene [] [] []
    end.

(** * The same code on binary64 floats

    The aggregator and the placement of an asset among its holders, with
    Python's float arithmetic in place of exact rationals, for raw inputs
    whose records carry float fields.  Used where a property depends on
    rounding. *)

Module Doubles.

(** [sum(l)]: Python adds from the left, starting at 0.  (From CPython
    3.12 on, [sum] also carries a correction term over floats; the sums
    taken below are the same with it.) *)
Definition py_sum (l : list float) : float :=
  fold_left PrimFloat.add l 0%float.

(** [a / b] *)
Definition py_div (a b : float) : result float :=
  if PrimFloat.eqb b 0%float then Raise ZeroDivisionError
  else Ok (PrimFloat.div a b).

(** [len(l)] as the divisor of a float. *)
Definition of_nat (n : nat) : float :=
  PrimFloat.of_uint63 (Uint63.of_Z (Z.of_nat n)).

(** [sorted(l, key=key, reverse=True)] on float keys. *)
Section Sorting.

Context {X : Type} (key : X -> float).

Fixpoint insert_desc (x : X) (l : list X) : list X :=
  match l with
  | [] => [x]
  | y :: l' =>
      if PrimFloat.leb (key y) (key x) then x :: y :: l'
      else y :: insert_desc x l'
  end.

Fixpoint sorted_desc (l : list X) : list X :=
  match l with
  | [] => []
  | x :: l' => insert_desc x (sorted_desc l')
  end.

End Sorting.

(** An asset record of the raw input: [name] may be missing, [quantity]
    and [value_usd] are floats. *)
Record AssetInfo : Type := mkAssetInfo {
  info_name : option string;
  info_quantity : float;
  info_value_usd : float
}.

Record Holding : Type := mkHolding {
  quantity : float;
  value_usd : float
}.

Module Entity.
Record t : Type := mk {
  total_value : float;
  assets : dict Holding
}.
End Entity.

Module Asset.
Record t : Type := mk {
  name : string;
  entities : list string;
  total_quantity : float;
  total_value : float
}.
End Asset.

Record Index : Type := mkIndex {
  entities : dict Entity.t;
  assets : dict Asset.t
}.

(** Lines 711-730, one asset of one entity. *)
Definition process_asset (entity_name : string) (processed_data : Index)
    (item : string * AssetInfo) : result Index :=
  let asset_symbol := fst item in
  let asset_info := snd item in
  ent <- py_index (entities processed_data) entity_name ;;
  let ent' :=
    Entity.mk (Entity.total_value ent)
      (Dict.setitem (Entity.assets ent) asset_symbol
         (mkHolding (info_quantity asset_info) (info_value_usd asset_info))) in
  let entities' := Dict.setitem (entities processed_data) entity_name ent' in
  let assets0 :=
    if Dict.contains (assets processed_data) asset_symbol
    then assets processed_data
    else
      Dict.setitem (assets processed_data) asset_symbol
        (Asset.mk
           (match info_name asset_info with
            | Some n => n
            | None => asset_symbol
            end)
           [] 0%float 0%float) in
  a <- py_index assets0 asset_symbol ;;
  let a' :=
    Asset.mk (Asset.name a) (Asset.entities a ++ [entity_name])
      (PrimFloat.add (Asset.total_quantity a) (info_quantity asset_info))
      (PrimFloat.add (Asset.total_value a) (info_value_usd asset_info)) in
  Ok (mkIndex entities' (Dict.setitem assets0 asset_symbol a')).

(** Lines 701-730, one entity; [item] holds its name and its [assets]. *)
Definition process_entity (processed_data : Index)
    (item : string * dict AssetInfo) : result Index :=
  let entity_name := fst item in
  let entity_assets := snd item in
  let total_value := py_sum (map info_value_usd (Dict.values entity_assets)) in
  let processed_data' :=
    mkIndex
      (Dict.setitem (entities processed_data) entity_name
         (Entity.mk total_value []))
      (assets processed_data) in
  foldM (process_asset entity_name) entity_assets processed_data'.

Definition asset_key (item : string * Asset.t) : float :=
  Asset.total_value (snd item).

Definition sort_assets (processed_data : Index) : Index :=
  mkIndex (entities processed_data)
    (Dict.of_list (sorted_desc asset_key (assets processed_data))).

Definition process_market_maker_data (raw_data : dict (dict AssetInfo))
  : result Index :=
  processed_data <- foldM process_entity raw_data (mkIndex [] []) ;;
  Ok (sort_assets processed_data).

(** The two sums of the conservation property, added as Python's [sum]
    adds them, in the order of the index. *)
Definition sum_asset_values (idx : Index) : float :=
  py_sum (map Asset.total_value (Dict.values (assets idx))).

Definition sum_entity_values (idx : Index) : float :=
  py_sum (map Entity.total_value (Dict.values (entities idx))).

(** [entity_info["assets"].get(asset, {}).get("value_usd", 0)] *)
Definition holding_value (entity_info : Entity.t) (asset : string) : float :=
  match Dict.get (Entity.assets entity_info) asset with
  | Some h => value_usd h
  | None => 0%float
  end.

(** Lines 898-905, one holder. *)
Definition add_weighted (data : Index) (entity_positions : dict (float * float))
    (asset : string) (sums : float * float) (holder : string)
  : result (float * float) :=
  entity_info <- py_index (entities data) holder ;;
  xy <- py_index entity_positions holder ;;
  let weight := holding_value entity_info asset in
  Ok (PrimFloat.add (fst sums) (PrimFloat.mul (fst xy) weight),
      PrimFloat.add (snd sums) (PrimFloat.mul (snd xy) weight)).

(** Lines 894-915. *)
Definition centroid (data : Index) (entity_positions : dict (float * float))
    (asset : string) (holders : list string) : result (float * float) :=
  sums <-
    foldM (add_weighted data entity_positions asset) holders
      (0%float, 0%float) ;;
  weights <-
    mapM (fun holder =>
            entity_info <- py_index (entities data) holder ;;
            Ok (holding_value entity_info asset))
         holders ;;
  let total_weight := py_sum weights in
  if PrimFloat.ltb 0%float total_weight then
    x <- py_div (fst sums) total_weight ;;
    y <- py_div (snd sums) total_weight ;;
    Ok (x, y)
  else
    points <- mapM (py_index entity_positions) holders ;;
    x <- py_div (py_sum (map fst points)) (of_nat (length holders)) ;;
    y <- py_div (py_sum (map snd points)) (of_nat (length holders)) ;;
    Ok (x, y).

(** [A] holds [X] for 0.1 and [Y] for 0.2, [B] holds [X] for 0.4. *)
Definition raw_tenths : dict (dict AssetInfo) :=
  [ ("A", [ ("X", mkAssetInfo None 1%float 0.1%float);
            ("Y", mkAssetInfo None 1%float 0.2%float) ]);
    ("B", [ ("X", mkAssetInfo None 1%float 0.4%float) ]) ].

(** One entity holding one asset valued 0.12. *)
Definition raw_cents : dict (dict AssetInfo) :=
  [ ("A", [ ("X", mkAssetInfo None 1%float 0.12%float) ]) ].

(** The anchor of a sole entity: rank 0 of 1, that is the angle
    [2 * math.pi * 0 / 1 = 0.0], where the cosine is 1.0 and the sine
    0.0. *)
Definition sole_anchor : dict (float * float) :=
  [ ("A", (5.5%float, 0%float)) ].

End Doubles.

(** * Lemmas *)

(** ** The [result] monad and its loops *)

Lemma bind_ok {A B : Type} (m : result A) (k : A -> result B) (b : B) :
  bind m k = Ok b -> exists a, m = Ok a /\ k a = Ok b.
Proof.
  destruct m as [a|e]; simpl; intros H; [exists a; auto | discriminate].
Qed.

Ltac inv_bind H :=
  let a := fresh "a" in
  let Ha := fresh "Ha" in
  apply bind_ok in H; destruct H as (a & Ha & H).


(** An invariant indexed by the elements already visited. *)
Lemma foldM_prefix_inv {S X : Type} (f : S -> X -> result S)
    (P : list X -> S -> Prop) :
  (forall p x s s', P p s -> f s x = Ok s' -> P (p ++ [x]) s') ->
  forall l p s s', P p s -> foldM f l s = Ok s' -> P (p ++ l) s'.
Proof.
  intros Hstep l; induction l as [|x l IH]; intros p s s' HP H; simpl in H.
  - inversion H; subst. now rewrite app_nil_r.
  - inv_bind H.
    replace (p ++ x :: l) with ((p ++ [x]) ++ l)
      by (rewrite <- app_assoc; reflexivity).
    eapply IH; eauto.
Qed.

Lemma foldM_inv {S X : Type} (f : S -> X -> result S) (P : S -> Prop) :
  (forall x s s', P s -> f s x = Ok s' -> P s') ->
  forall l s s', P s -> foldM f l s = Ok s' -> P s'.
Proof.
  intros Hstep l s s' HP H.
  apply (foldM_prefix_inv f (fun _ => P)) with (l := l) (p := []) (s := s);
    eauto.
Qed.



Lemma mapM_pure {X Y : Type} (f : X -> result Y) (g : X -> Y) (l : list X) :
  (forall x, In x l -> f x = Ok (g x)) -> mapM f l = Ok (map g l).
Proof.
  induction l as [|x l IH]; intros H; simpl; [reflexivity|].
  rewrite H by (left; reflexivity); simpl.
  rewrite IH by (intros; apply H; right; assumption). reflexivity.
Qed.

(** ** Dictionaries *)

Module DictFacts.
Import Dict.

Section Facts.
Context {V : Type}.
Implicit Types (d : dict V) (k : string) (v : V).

Lemma get_setitem_eq d k v : get (setitem d k v) k = Some v.
Proof.
  induction d as [|[k' v'] d IH]; simpl.
  - now rewrite String.eqb_refl.
  - destruct (String.eqb k' k) eqn:E; simpl.
    + now rewrite String.eqb_refl.
    + now rewrite E.
Qed.

Lemma get_setitem_neq d k k1 v : k <> k1 -> get (setitem d k v) k1 = get d k1.
Proof.
  intros Hne; induction d as [|[k' v'] d IH]; simpl.
  - apply String.eqb_neq in Hne. now rewrite Hne.
  - destruct (String.eqb k' k) eqn:E; simpl.
    + apply String.eqb_eq in E; subst k'.
      apply String.eqb_neq in Hne. now rewrite Hne.
    + destruct (String.eqb k' k1); auto.
Qed.

Lemma get_setitem d k k1 v :
  get (setitem d k v) k1 = if String.eqb k k1 then Some v else get d k1.
Proof.
  destruct (String.eqb k k1) eqn:E.
  - apply String.eqb_eq in E; subst. apply get_setitem_eq.
  - apply String.eqb_neq in E. now apply get_setitem_neq.
Qed.

(** Setting a key twice keeps the second value. *)
Lemma setitem_twice d k v1 v2 :
  setitem (setitem d k v1) k v2 = setitem d k v2.
Proof.
  induction d as [|[k' v'] d IH]; simpl.
  - now rewrite String.eqb_refl.
  - destruct (String.eqb k' k) eqn:E; simpl.
    + now rewrite String.eqb_refl.
    + rewrite E. now rewrite IH.
Qed.

Lemma get_In d k v : get d k = Some v -> In (k, v) d.
Proof.
  induction d as [|[k' v'] d IH]; simpl; [discriminate|].
  destruct (String.eqb k' k) eqn:E.
  - apply String.eqb_eq in E; subst. intros H; inversion H; auto.
  - auto.
Qed.

Lemma get_None d k : get d k = None <-> ~ In k (keys d).
Proof.
  induction d as [|[k' v'] d IH]; simpl.
  - tauto.
  - destruct (String.eqb k' k) eqn:E.
    + apply String.eqb_eq in E; subst. split; [discriminate | tauto].
    + apply String.eqb_neq in E. rewrite IH. tauto.
Qed.

Lemma get_Some_key d k v : get d k = Some v -> In k (keys d).
Proof.
  intros H. apply get_In in H. apply (in_map fst) in H. exact H.
Qed.

Lemma key_get d k : In k (keys d) -> exists v, get d k = Some v.
Proof.
  intros H. destruct (get d k) eqn:E; [eauto|].
  apply get_None in E. contradiction.
Qed.

Lemma contains_true d k : contains d k = true <-> In k (keys d).
Proof.
  unfold contains. split.
  - destruct (get d k) eqn:E; [|discriminate].
    intros _. eapply get_Some_key; eauto.
  - intros H. apply key_get in H as [v ->]. reflexivity.
Qed.

Lemma In_get d k v : NoDup (keys d) -> In (k, v) d -> get d k = Some v.
Proof.
  induction d as [|[k' v'] d IH]; simpl; [tauto|].
  intros Hnd [H|H].
  - inversion H; subst. now rewrite String.eqb_refl.
  - inversion Hnd; subst.
    destruct (String.eqb k' k) eqn:E.
    + apply String.eqb_eq in E; subst.
      apply (in_map fst) in H. contradiction.
    + auto.
Qed.


Lemma keys_setitem d k v :
  keys (setitem d k v) = if contains d k then keys d else keys d ++ [k].
Proof.
  unfold contains.
  induction d as [|[k' v'] d IH]; simpl; [reflexivity|].
  destruct (String.eqb k' k) eqn:E; simpl.
  - apply String.eqb_eq in E; subst. reflexivity.
  - rewrite IH. destruct (get d k); reflexivity.
Qed.

Lemma keys_setitem_present d k v :
  In k (keys d) -> keys (setitem d k v) = keys d.
Proof.
  intros H. rewrite keys_setitem.
  apply contains_true in H. now rewrite H.
Qed.

Lemma keys_setitem_fresh d k v :
  ~ In k (keys d) -> setitem d k v = d ++ [(k, v)].
Proof.
  induction d as [|[k' v'] d IH]; simpl; intros H; [reflexivity|].
  destruct (String.eqb k' k) eqn:E.
  - apply String.eqb_eq in E; subst. tauto.
  - rewrite IH by tauto. reflexivity.
Qed.

Lemma In_keys_setitem d k v k1 :
  In k1 (keys (setitem d k v)) <-> k1 = k \/ In k1 (keys d).
Proof.
  rewrite keys_setitem. destruct (contains d k) eqn:E.
  - apply contains_true in E. split; [auto|]. intros [->|]; auto.
  - rewrite in_app_iff; simpl. intuition.
Qed.

Lemma NoDup_setitem d k v : NoDup (keys d) -> NoDup (keys (setitem d k v)).
Proof.
  intros H. rewrite keys_setitem. destruct (contains d k) eqn:E; auto.
  assert (~ In k (keys d)) as Hn.
  { intros Hin. apply contains_true in Hin. congruence. }
  clear E. induction (keys d) as [|a l IH]; simpl.
  - constructor; [tauto | constructor].
  - inversion H; subst. constructor.
    + rewrite in_app_iff; simpl. simpl in Hn. intuition.
    + apply IH; auto. simpl in Hn. tauto.
Qed.

Lemma of_list_acc (items acc : dict V) :
  NoDup (keys (acc ++ items)) ->
  fold_left (fun d kv => setitem d (fst kv) (snd kv)) items acc
  = acc ++ items.
Proof.
  revert acc; induction items as [|[k v] items IH]; intros acc H; simpl.
  - now rewrite app_nil_r.
  - assert (~ In k (keys acc)) as Hk.
    { unfold keys in *. rewrite map_app in H. simpl in H.
      apply NoDup_remove_2 in H. rewrite in_app_iff in H. tauto. }
    rewrite keys_setitem_fresh by assumption.
    rewrite IH; rewrite <- app_assoc; simpl; auto.
Qed.

Lemma of_list_nodup (items : dict V) :
  NoDup (keys items) -> of_list items = items.
Proof.
  intros H. unfold of_list. now rewrite of_list_acc.
Qed.

Lemma get_Permutation (d1 d2 : dict V) k :
  NoDup (keys d1) -> Permutation d1 d2 -> get d1 k = get d2 k.
Proof.
  intros Hnd Hp.
  assert (NoDup (keys d2)) as Hnd2.
  { eapply Permutation_NoDup; [|exact Hnd]. now apply Permutation_map. }
  destruct (get d1 k) eqn:E1.
  - apply get_In in E1. symmetry. apply In_get; auto.
    eapply Permutation_in; eauto.
  - destruct (get d2 k) eqn:E2; auto.
    apply get_In in E2. apply Permutation_sym in Hp.
    eapply Permutation_in in E2; eauto.
    apply In_get in E2; auto. congruence.
Qed.
End Facts.
End DictFacts.

(** ** The stable descending sort *)

Section SortingFacts.

Context {X : Type} (key : X -> Q).

Lemma insert_desc_perm x l : Permutation (insert_desc key x l) (x :: l).
Proof.
  induction l as [|y l IH]; simpl; [reflexivity|].
  destruct (Qle_bool (key y) (key x)); [reflexivity|].
  rewrite IH. apply perm_swap.
Qed.

Lemma sorted_desc_perm l : Permutation (sorted_desc key l) l.
Proof.
  induction l as [|x l IH]; simpl; [reflexivity|].
  rewrite insert_desc_perm. now constructor.
Qed.

Lemma insert_desc_sorted x l :
  StronglySorted (ge_key key) l -> StronglySorted (ge_key key) (insert_desc key x l).
Proof.
  induction l as [|y l IH]; simpl; intros Hs.
  - repeat constructor.
  - inversion Hs as [|? ? Hs' Hall]; subst.
    destruct (Qle_bool (key y) (key x)) eqn:E.
    + apply Qle_bool_iff in E. constructor; auto.
      constructor; auto.
      eapply Forall_impl; [|exact Hall].
      unfold ge_key. intros z Hz. unfold ge_key in *. lra.
    + constructor; auto.
      assert (key x <= key y) as Hxy.
      { destruct (Qlt_le_dec (key x) (key y)) as [Hlt|Hle]; [lra|].
        apply Qle_bool_iff in Hle. congruence. }
      eapply Permutation_Forall; [symmetry; apply insert_desc_perm|].
      constructor; auto.
Qed.

Lemma sorted_desc_sorted l : StronglySorted (ge_key key) (sorted_desc key l).
Proof.
  induction l as [|x l IH]; simpl; [apply SSorted_nil|].
  now apply insert_desc_sorted.
Qed.

Lemma insert_desc_tied v x l :
  tied key v (insert_desc key x l) = tied key v (x :: l).
Proof.
  unfold tied.
  induction l as [|y l IH]; simpl; [reflexivity|].
  destruct (Qle_bool (key y) (key x)) eqn:E; [reflexivity|].
  simpl. rewrite IH. simpl.
  destruct (Qeq_bool (key x) v) eqn:Ex; [|reflexivity].
  destruct (Qeq_bool (key y) v) eqn:Ey; [|reflexivity].
  apply Qeq_bool_iff in Ex, Ey.
  assert (key y <= key x) as Hle by lra.
  apply Qle_bool_iff in Hle. congruence.
Qed.

Lemma sorted_desc_tied v l : tied key v (sorted_desc key l) = tied key v l.
Proof.
  induction l as [|x l IH]; simpl; [reflexivity|].
  rewrite insert_desc_tied. unfold tied in *; simpl. now rewrite IH.
Qed.

End SortingFacts.

(** ** The aggregator *)

Import DictFacts.

Lemma py_index_ok {V : Type} (d : dict V) k v :
  py_index d k = Ok v <-> Dict.get d k = Some v.
Proof.
  unfold py_index. destruct (Dict.get d k); split; intros H;
    inversion H; reflexivity.
Qed.

(** The example of the specification: [X] totals 400 and comes first. *)
Example raw_ex_aggregate : process_market_maker_data raw_ex = Ok idx_ex.
Proof. reflexivity. Qed.

(** What one step of the inner loop does to the index. *)
Lemma process_asset_ok entity_name st asset_symbol asset_info st' :
  process_asset entity_name st (asset_symbol, asset_info) = Ok st' ->
  exists q v ent a0,
    get_num asset_info "quantity" = Ok q
    /\ get_num asset_info "value_usd" = Ok v
    /\ Dict.get (entities st) entity_name = Some ent
    /\ entities st'
       = Dict.setitem (entities st) entity_name
           (Entity.mk (Entity.total_value ent)
              (Dict.setitem (Entity.assets ent) asset_symbol (mkHolding q v)))
    /\ Dict.get (assets st') asset_symbol
       = Some (Asset.mk (Asset.name a0) (Asset.entities a0 ++ [entity_name])
                 (Asset.total_quantity a0 + q) (Asset.total_value a0 + v))
    /\ ((Dict.get (assets st) asset_symbol = Some a0
         /\ assets st' = Dict.setitem (assets st) asset_symbol
               (Asset.mk (Asset.name a0) (Asset.entities a0 ++ [entity_name])
                  (Asset.total_quantity a0 + q) (Asset.total_value a0 + v)))
        \/ (Dict.get (assets st) asset_symbol = None
            /\ py_get asset_info "name" (VStr asset_symbol) = Ok (Asset.name a0)
            /\ a0 = Asset.mk (Asset.name a0) [] 0 0
            /\ assets st' = Dict.setitem (assets st) asset_symbol
                  (Asset.mk (Asset.name a0) [entity_name] (0 + q) (0 + v)))).
Proof.
  unfold process_asset; simpl. intros H.
  apply bind_ok in H as (q & Hq & H).
  apply bind_ok in H as (v & Hv & H).
  apply bind_ok in H as (ent & Hent & H).
  apply py_index_ok in Hent.
  apply bind_ok in H as (assets0 & Ha0 & H).
  apply bind_ok in H as (a & Ha & H).
  apply py_index_ok in Ha.
  inversion H; subst st'; clear H; simpl.
  exists q, v, ent, a. rewrite get_setitem_eq.
  split; [exact Hq|]. split; [exact Hv|]. split; [exact Hent|].
  split; [reflexivity|]. split; [reflexivity|].
  unfold Dict.contains in Ha0.
  destruct (Dict.get (assets st) asset_symbol) as [a1|] eqn:E.
  - inversion Ha0; subst assets0. left. split; congruence.
  - apply bind_ok in Ha0 as (nm & Hnm & Ha0). inversion Ha0; subst assets0.
    rewrite get_setitem_eq in Ha. inversion Ha; subst a; simpl.
    right. repeat split; auto.
    apply setitem_twice.
Qed.

(** What one turn of the outer loop starts from. *)
Lemma process_entity_ok st entity_name entity_data st' :
  process_entity st (entity_name, entity_data) = Ok st' ->
  exists items total,
    py_get entity_data "assets" (VDict []) = Ok (VDict items)
    /\ sum_value_usd (map snd items) 0 = Ok total
    /\ foldM (process_asset entity_name) items
         (mkIndex
            (Dict.setitem (entities st) entity_name (Entity.mk total []))
            (assets st)) = Ok st'.
Proof.
  unfold process_entity; simpl. intros H.
  apply bind_ok in H as (entity_assets & Hea & H).
  apply bind_ok in H as (items & Hitems & H).
  apply bind_ok in H as (total & Htotal & H).
  destruct entity_assets; try discriminate. inversion Hitems; subst.
  exists items, total. auto.
Qed.

Lemma entity_records_ok entity_name entity_data items :
  py_get entity_data "assets" (VDict []) = Ok (VDict items) ->
  entity_records (entity_name, entity_data)
  = map (fun kv => (entity_name, kv)) items.
Proof. unfold entity_records; simpl. now intros ->. Qed.

(** *** Referential symmetry *)

Lemma listed_holder_step entity_name st asset_symbol asset_info st' :
  process_asset entity_name st (asset_symbol, asset_info) = Ok st' ->
  forall e s,
    listed_holder st' e s
    <-> listed_holder st e s \/ (e = entity_name /\ s = asset_symbol).
Proof.
  intros H e s. apply process_asset_ok in H
    as (q & v & ent & a0 & _ & _ & _ & _ & Hget & Hcases).
  unfold listed_holder.
  destruct (string_dec s asset_symbol) as [->|Hne].
  - rewrite Hget. split.
    + intros (a & Ha & Hin). inversion Ha; subst a; simpl in Hin.
      apply in_app_iff in Hin as [Hin|[Hin|[]]]; [|auto].
      destruct Hcases as [(Hold & _)|(_ & _ & Hnew & _)].
      * left; eauto.
      * rewrite Hnew in Hin. destruct Hin.
    + intros [(a & Ha & Hin)|(-> & _)].
      * destruct Hcases as [(Hold & _)|(Hold & _)]; [|congruence].
        rewrite Hold in Ha. inversion Ha; subst a.
        eexists; split; [reflexivity|]. simpl. apply in_app_iff; auto.
      * eexists; split; [reflexivity|]. simpl. apply in_app_iff; simpl; auto.
  - assert (Dict.get (assets st') s = Dict.get (assets st) s) as ->.
    { destruct Hcases as [(_ & ->)|(_ & _ & _ & ->)];
        apply get_setitem_neq; congruence. }
    split; [auto|]. intros [?|(_ & ?)]; [auto | contradiction].
Qed.

Lemma has_holding_step entity_name st asset_symbol asset_info st' :
  process_asset entity_name st (asset_symbol, asset_info) = Ok st' ->
  forall e s,
    has_holding st' e s
    <-> has_holding st e s \/ (e = entity_name /\ s = asset_symbol).
Proof.
  intros H e s. apply process_asset_ok in H
    as (q & v & ent & a0 & _ & _ & Hent & Hents & _ & _).
  unfold has_holding. rewrite Hents.
  destruct (string_dec e entity_name) as [->|Hne].
  - rewrite get_setitem_eq. split.
    + intros (ent1 & He & Hc). inversion He; subst ent1; simpl in Hc.
      apply contains_true, In_keys_setitem in Hc as [->|Hc]; [auto|].
      left. exists ent. split; [auto|]. now apply contains_true.
    + intros Hor. eexists; split; [reflexivity|]. simpl.
      apply contains_true, In_keys_setitem.
      destruct Hor as [(ent1 & He & Hc)|(_ & ->)]; [|auto].
      right. rewrite Hent in He. inversion He; subst. now apply contains_true.
  - rewrite get_setitem_neq by congruence.
    split; [auto|]. intros [?|(? & _)]; [auto | contradiction].
Qed.

(** The entities of the index are the entities visited. *)
Lemma process_asset_entity_keys entity_name st item st' :
  process_asset entity_name st item = Ok st' ->
  Dict.keys (entities st') = Dict.keys (entities st).
Proof.
  destruct item as [s info]. intros H. apply process_asset_ok in H
    as (q & v & ent & a0 & _ & _ & Hent & -> & _ & _).
  apply keys_setitem_present. eapply get_Some_key; eauto.
Qed.

Lemma process_entity_entity_keys st entity_name entity_data st' :
  process_entity st (entity_name, entity_data) = Ok st' ->
  Dict.keys (entities st')
  = Dict.keys (Dict.setitem (entities st) entity_name (Entity.mk 0 [])).
Proof.
  intros H. apply process_entity_ok in H as (items & total & _ & _ & H).
  set (init := mkIndex _ _) in H.
  transitivity (Dict.keys (entities init)).
  - revert H.
    apply (foldM_inv _
             (fun s => Dict.keys (entities s) = Dict.keys (entities init)));
      [|reflexivity].
    intros x s s' Hs Hx. rewrite <- Hs.
    eapply process_asset_entity_keys; eauto.
  - simpl. now rewrite !keys_setitem.
Qed.

Lemma fold_entities_keys raw_data st st' :
  foldM process_entity raw_data st = Ok st' ->
  forall e, In e (Dict.keys (entities st'))
            <-> In e (Dict.keys (entities st)) \/ In e (Dict.keys raw_data).
Proof.
  revert st; induction raw_data as [|[e0 d0] raw IH]; intros st H e;
    simpl in H.
  - inversion H; subst. simpl. tauto.
  - apply bind_ok in H as (st1 & H1 & H).
    rewrite (IH _ H). apply process_entity_entity_keys in H1. rewrite H1.
    rewrite In_keys_setitem. simpl. intuition.
Qed.

Lemma process_entity_symmetric st entity_name entity_data st' :
  ~ In entity_name (Dict.keys (entities st)) ->
  symmetric st ->
  process_entity st (entity_name, entity_data) = Ok st' ->
  symmetric st'.
Proof.
  intros Hfresh Hsym H.
  apply process_entity_ok in H as (items & total & _ & _ & H).
  revert H. apply foldM_inv.
  - intros [s info] st1 st2 Hs Hx e1 s1.
    rewrite (listed_holder_step _ _ _ _ _ Hx), (has_holding_step _ _ _ _ _ Hx).
    now rewrite (Hs e1 s1).
  - intros e1 s1. unfold symmetric, listed_holder, has_holding in *; simpl.
    rewrite (Hsym e1 s1). rewrite get_setitem.
    destruct (String.eqb entity_name e1) eqn:E.
    + apply String.eqb_eq in E; subst e1. split.
      * intros (ent & He & _). apply get_Some_key in He. contradiction.
      * intros (ent & He & Hc). inversion He; subst. discriminate.
    + reflexivity.
Qed.

(** An invariant of the outer loop may rely on the entity being new: the
    keys of a dictionary are distinct. *)
Lemma fold_entities_inv (P : Index -> Prop) :
  (forall st e d st',
      ~ In e (Dict.keys (entities st)) -> P st ->
      process_entity st (e, d) = Ok st' -> P st') ->
  forall raw_data st st',
    NoDup (Dict.keys raw_data) ->
    (forall e, In e (Dict.keys (entities st)) -> ~ In e (Dict.keys raw_data)) ->
    P st ->
    foldM process_entity raw_data st = Ok st' ->
    P st'.
Proof.
  intros Hstep raw_data.
  induction raw_data as [|[e0 d0] raw IH];
    intros st st' Hnd Hdisj HP H; simpl in H.
  - inversion H; subst; auto.
  - apply bind_ok in H as (st1 & H1 & H). inversion Hnd; subst.
    apply IH with (st := st1); auto.
    + intros e He.
      rewrite (process_entity_entity_keys _ _ _ _ H1) in He.
      apply In_keys_setitem in He as [->|He]; [assumption|].
      intros Hin. apply (Hdisj e He). simpl; auto.
    + eapply Hstep; eauto.
      intros Hin. apply (Hdisj e0 Hin). simpl; auto.
Qed.

(** The asset dictionary never holds a key twice. *)
Lemma process_asset_assets_nodup entity_name st item st' :
  NoDup (Dict.keys (assets st)) ->
  process_asset entity_name st item = Ok st' ->
  NoDup (Dict.keys (assets st')).
Proof.
  destruct item as [s info]. intros Hnd H. apply process_asset_ok in H
    as (q & v & ent & a0 & _ & _ & _ & _ & _ & Hcases).
  destruct Hcases as [(_ & ->)|(_ & _ & _ & ->)]; now apply NoDup_setitem.
Qed.

Lemma fold_entities_assets_nodup raw_data st st' :
  NoDup (Dict.keys (assets st)) ->
  foldM process_entity raw_data st = Ok st' ->
  NoDup (Dict.keys (assets st')).
Proof.
  apply (foldM_inv _ (fun s => NoDup (Dict.keys (assets s)))).
  intros [e d] s s' Hs H.
  apply process_entity_ok in H as (items & total & _ & _ & H).
  revert H.
  apply (foldM_inv _ (fun s => NoDup (Dict.keys (assets s)))); [|exact Hs].
  intros x s1 s2. apply process_asset_assets_nodup.
Qed.

Lemma sort_assets_perm st :
  NoDup (Dict.keys (assets st)) ->
  assets (sort_assets st) = sorted_desc asset_key (assets st).
Proof.
  intros H. unfold sort_assets; simpl. apply of_list_nodup.
  eapply Permutation_NoDup; [|exact H].
  apply Permutation_map. symmetry. apply sorted_desc_perm.
Qed.

Lemma sort_assets_get st s :
  NoDup (Dict.keys (assets st)) ->
  Dict.get (assets (sort_assets st)) s = Dict.get (assets st) s.
Proof.
  intros H. rewrite sort_assets_perm by assumption.
  symmetry. apply get_Permutation; auto.
  symmetry. apply sorted_desc_perm.
Qed.

(** C5: in an index the aggregator returns, an entity is in the holder
    list of an asset exactly when the asset is in the holdings of the
    entity. *)
Theorem referential_symmetry (raw_data : dict value) (idx : Index) :
  NoDup (Dict.keys raw_data) ->
  process_market_maker_data raw_data = Ok idx ->
  forall entity asset_symbol,
    listed_holder idx entity asset_symbol <-> has_holding idx entity asset_symbol.
Proof.
  intros Hnd H. unfold process_market_maker_data in H.
  apply bind_ok in H as (st & Hst & H). inversion H; subst idx; clear H.
  unfold fold_entities in Hst.
  assert (symmetric st) as Hsym.
  { revert Hst. apply (fold_entities_inv symmetric).
    - intros s e d s' Hf Hs Hp. eapply process_entity_symmetric; eauto.
    - exact Hnd.
    - simpl. tauto.
    - intros e s. unfold listed_holder, has_holding; simpl.
      split; intros (x & Hx & _); discriminate. }
  assert (NoDup (Dict.keys (assets st))) as Hna.
  { eapply fold_entities_assets_nodup; eauto. simpl. constructor. }
  intros e s. unfold listed_holder, has_holding.
  rewrite sort_assets_get by assumption. apply Hsym.
Qed.

Lemma referential_symmetry_witness :
  listed_holder idx_ex "B" "Y" <-> has_holding idx_ex "B" "Y".
Proof.
  apply (referential_symmetry raw_ex idx_ex).
  - repeat constructor; simpl; intuition discriminate.
  - reflexivity.
Defined.

(** *** Sums *)

Lemma fold_left_Qplus l a : fold_left Qplus l a == a + py_sum l.
Proof.
  unfold py_sum. revert a; induction l as [|x l IH]; intros a; simpl.
  - lra.
  - rewrite (IH (a + x)), (IH (0 + x)). lra.
Qed.

Lemma py_sum_cons x l : py_sum (x :: l) == x + py_sum l.
Proof.
  unfold py_sum at 1; simpl. rewrite fold_left_Qplus. lra.
Qed.

Lemma sum_value_usd_cons asset_info rest acc t :
  sum_value_usd (asset_info :: rest) acc = Ok t ->
  exists v, get_num asset_info "value_usd" = Ok v
            /\ sum_value_usd rest (acc + v) = Ok t.
Proof.
  simpl. intros H. apply bind_ok in H as (x & Hx & H).
  apply bind_ok in H as (acc' & Hacc & H).
  destruct x; try discriminate. inversion Hacc; subst.
  exists q. unfold get_num. rewrite Hx. auto.
Qed.

(** *** The order of the assets *)

Lemma existsb_eqb_In s (l : list string) :
  existsb (String.eqb s) l = true <-> In s l.
Proof.
  rewrite existsb_exists. split.
  - intros (x & Hx & E). apply String.eqb_eq in E. now subst.
  - intros H. exists s. split; [assumption | apply String.eqb_refl].
Qed.

Lemma first_seen_app seen l1 l2 :
  first_seen seen (l1 ++ l2)
  = first_seen seen l1 ++ first_seen (seen ++ first_seen seen l1) l2.
Proof.
  revert seen; induction l1 as [|s l1 IH]; intros seen; simpl.
  - now rewrite app_nil_r.
  - destruct (existsb (String.eqb s) seen); [apply IH|].
    rewrite IH. simpl. now rewrite <- app_assoc.
Qed.

Lemma process_asset_asset_keys entity_name st asset_symbol asset_info st' :
  process_asset entity_name st (asset_symbol, asset_info) = Ok st' ->
  Dict.keys (assets st')
  = Dict.keys (assets st) ++ first_seen (Dict.keys (assets st)) [asset_symbol].
Proof.
  intros H. apply process_asset_ok in H
    as (q & v & ent & a0 & _ & _ & _ & _ & _ & Hcases). simpl.
  destruct Hcases as [(Hold & ->)|(Hold & _ & _ & ->)].
  - apply get_Some_key in Hold.
    rewrite keys_setitem_present by assumption.
    apply existsb_eqb_In in Hold. rewrite Hold. now rewrite app_nil_r.
  - apply get_None in Hold.
    rewrite keys_setitem_fresh by assumption.
    destruct (existsb (String.eqb asset_symbol) (Dict.keys (assets st))) eqn:E.
    + apply existsb_eqb_In in E. contradiction.
    + unfold Dict.keys. rewrite map_app. reflexivity.
Qed.

Lemma inner_loop_asset_keys entity_name items :
  forall st st',
    foldM (process_asset entity_name) items st = Ok st' ->
    Dict.keys (assets st')
    = Dict.keys (assets st) ++ first_seen (Dict.keys (assets st)) (map fst items).
Proof.
  induction items as [|[s info] items IH]; intros st st' H; simpl in H.
  - inversion H; subst. simpl. now rewrite app_nil_r.
  - apply bind_ok in H as (st1 & H1 & H).
    apply process_asset_asset_keys in H1. apply IH in H.
    change (map fst ((s, info) :: items)) with ([s] ++ map fst items).
    rewrite first_seen_app, app_assoc. now rewrite <- H1.
Qed.

Lemma record_symbols_entity entity_name entity_data items :
  py_get entity_data "assets" (VDict []) = Ok (VDict items) ->
  map record_symbol (entity_records (entity_name, entity_data)) = map fst items.
Proof.
  intros H. rewrite (entity_records_ok _ _ _ H), map_map. reflexivity.
Qed.

Lemma fold_entities_asset_keys raw_data :
  forall st st',
    foldM process_entity raw_data st = Ok st' ->
    Dict.keys (assets st')
    = Dict.keys (assets st)
      ++ first_seen (Dict.keys (assets st))
           (map record_symbol (raw_records raw_data)).
Proof.
  induction raw_data as [|[e d] raw IH]; intros st st' H; simpl in H.
  - inversion H; subst. simpl. now rewrite app_nil_r.
  - apply bind_ok in H as (st1 & H1 & H).
    apply process_entity_ok in H1 as (items & total & Hget & _ & H1).
    apply inner_loop_asset_keys in H1. simpl in H1. apply IH in H.
    unfold raw_records in *. simpl.
    rewrite map_app, (record_symbols_entity _ _ _ Hget).
    rewrite first_seen_app, app_assoc. now rewrite <- H1.
Qed.

(** C7: the assets of a returned index come in non-increasing order of
    total value, and assets of equal total value keep the order in which
    their symbols were first seen. *)
Theorem assets_ordering (raw_data : dict value) (idx : Index) :
  process_market_maker_data raw_data = Ok idx ->
  exists first : dict Asset.t,
    Dict.keys first = first_seen [] (map record_symbol (raw_records raw_data))
    /\ Permutation (assets idx) first
    /\ StronglySorted larger_total_first (assets idx)
    /\ forall v, with_total v (assets idx) = with_total v first.
Proof.
  intros H. unfold process_market_maker_data in H.
  apply bind_ok in H as (st & Hst & H). inversion H; subst idx; clear H.
  unfold fold_entities in Hst.
  assert (NoDup (Dict.keys (assets st))) as Hna.
  { eapply fold_entities_assets_nodup; eauto. simpl. constructor. }
  exists (assets st). rewrite sort_assets_perm by assumption.
  split; [|split; [|split]].
  - apply fold_entities_asset_keys in Hst. exact Hst.
  - apply sorted_desc_perm.
  - exact (sorted_desc_sorted asset_key (assets st)).
  - intros v. exact (sorted_desc_tied asset_key v (assets st)).
Qed.

Lemma assets_ordering_witness :
  Dict.keys (assets idx_reorder) = ["T"; "S"; "U"]
  /\ map (fun a => Asset.total_value (snd a)) (assets idx_reorder) = [5; 1; 1]
  /\ exists first : dict Asset.t,
       Dict.keys first = ["S"; "T"; "U"]
       /\ Permutation (assets idx_reorder) first
       /\ StronglySorted larger_total_first (assets idx_reorder)
       /\ forall v, with_total v (assets idx_reorder) = with_total v first.
Proof.
  split; [reflexivity|]. split; [reflexivity|].
  exact (assets_ordering raw_reorder idx_reorder eq_refl).
Defined.

(** *** The name of an asset *)

Lemma first_record_app p1 p2 s :
  first_record (p1 ++ p2) s
  = match first_record p1 s with
    | Some r => Some r
    | None => first_record p2 s
    end.
Proof.
  unfold first_record. induction p1 as [|r p1 IH]; simpl; [reflexivity|].
  destruct (String.eqb (record_symbol r) s); auto.
Qed.

Lemma process_asset_named p entity_name st asset_symbol asset_info st' :
  named_by_first p st ->
  process_asset entity_name st (asset_symbol, asset_info) = Ok st' ->
  named_by_first (p ++ [(entity_name, (asset_symbol, asset_info))]) st'.
Proof.
  intros HJ H s. specialize (HJ s). apply process_asset_ok in H
    as (q & v & ent & a0 & _ & _ & _ & _ & Hget & Hcases).
  rewrite first_record_app. unfold first_record at 2; simpl.
  unfold record_symbol at 2; simpl.
  destruct (string_dec asset_symbol s) as [->|Hne].
  - rewrite Hget, String.eqb_refl. simpl.
    destruct Hcases as [(Hold & _)|(Hold & Hname & _)]; rewrite Hold in HJ.
    + destruct HJ as (e & info & -> & Hn). eauto.
    + rewrite HJ. eauto.
  - assert (Dict.get (assets st') s = Dict.get (assets st) s) as ->.
    { destruct Hcases as [(_ & ->)|(_ & _ & _ & ->)];
        now apply get_setitem_neq. }
    apply String.eqb_neq in Hne. rewrite Hne.
    destruct (Dict.get (assets st) s).
    + destruct HJ as (e & info & -> & Hn). eauto.
    + now rewrite HJ.
Qed.

Lemma inner_loop_named entity_name items :
  forall p st st',
    named_by_first p st ->
    foldM (process_asset entity_name) items st = Ok st' ->
    named_by_first (p ++ map (fun kv => (entity_name, kv)) items) st'.
Proof.
  induction items as [|[s info] items IH]; intros p st st' HJ H; simpl in H.
  - inversion H; subst. simpl. now rewrite app_nil_r.
  - apply bind_ok in H as (st1 & H1 & H).
    eapply process_asset_named in H1; [|exact HJ].
    eapply IH in H; [|exact H1].
    simpl. now rewrite <- app_assoc in H.
Qed.

Lemma fold_entities_named raw_data :
  forall p st st',
    named_by_first p st ->
    foldM process_entity raw_data st = Ok st' ->
    named_by_first (p ++ raw_records raw_data) st'.
Proof.
  induction raw_data as [|[e d] raw IH]; intros p st st' HJ H; simpl in H.
  - inversion H; subst. simpl. now rewrite app_nil_r.
  - apply bind_ok in H as (st1 & H1 & H).
    apply process_entity_ok in H1 as (items & total & Hget & _ & H1).
    eapply inner_loop_named in H1; [|exact HJ].
    eapply IH in H; [|exact H1].
    unfold raw_records in *. simpl.
    rewrite (entity_records_ok _ _ _ Hget). now rewrite <- app_assoc in H.
Qed.

(** C10: the name of an asset in a returned index is the name in the first
    record of its symbol (the symbol itself when that record has no name);
    the names in later records are not used. *)
Theorem first_seen_name (raw_data : dict value) (idx : Index)
    (asset_symbol : string) (a : Asset.t) :
  process_market_maker_data raw_data = Ok idx ->
  Dict.get (assets idx) asset_symbol = Some a ->
  exists entity asset_info,
    first_record (raw_records raw_data) asset_symbol
    = Some (entity, (asset_symbol, asset_info))
    /\ py_get asset_info "name" (VStr asset_symbol) = Ok (Asset.name a).
Proof.
  intros H Ha. unfold process_market_maker_data in H.
  apply bind_ok in H as (st & Hst & H). inversion H; subst idx; clear H.
  unfold fold_entities in Hst.
  assert (NoDup (Dict.keys (assets st))) as Hna.
  { eapply fold_entities_assets_nodup; eauto. simpl. constructor. }
  rewrite sort_assets_get in Ha by assumption.
  eapply (fold_entities_named raw_data []) in Hst.
  - specialize (Hst asset_symbol). simpl in Hst. now rewrite Ha in Hst.
  - intros s. reflexivity.
Qed.

Lemma first_seen_name_witness :
  exists entity asset_info,
    first_record (raw_records raw_names) "X" = Some (entity, ("X", asset_info))
    /\ py_get asset_info "name" (VStr "X") = Ok (VStr "Alpha").
Proof.
  exact (first_seen_name raw_names idx_names "X"
           (Asset.mk (VStr "Alpha") ["A"; "B"] 0 3) eq_refl eq_refl).
Defined.

(** *** Numeric fields *)









(** *** Malformed records *)

Lemma wf_asset_info_get_num asset_info :
  wf_asset_info asset_info = true <->
  (exists q, get_num asset_info "quantity" = Ok q)
  /\ (exists v, get_num asset_info "value_usd" = Ok v).
Proof.
  unfold wf_asset_info, numeric_or_missing, get_num, py_get.
  destruct asset_info as [|x|x|x|d];
    try (split; [discriminate | intros ((q & Hq) & _); discriminate]).
  destruct (Dict.get d "quantity") as [[]|];
    destruct (Dict.get d "value_usd") as [[]|]; simpl;
    split;
    try discriminate;
    try (intros ((? & H1) & (? & H2)); discriminate);
    eauto.
Qed.

Lemma process_asset_total entity_name st asset_symbol asset_info :
  wf_asset_info asset_info = true ->
  In entity_name (Dict.keys (entities st)) ->
  exists st', process_asset entity_name st (asset_symbol, asset_info) = Ok st'.
Proof.
  intros Hwf Hin. apply wf_asset_info_get_num in Hwf as ((q & Hq) & (v & Hv)).
  apply key_get in Hin as (ent & Hent).
  unfold process_asset; simpl. rewrite Hq, Hv; simpl.
  unfold py_index at 1. rewrite Hent; simpl.
  unfold Dict.contains.
  destruct (Dict.get (assets st) asset_symbol) as [a|] eqn:Ea; simpl.
  - unfold py_index. rewrite Ea; simpl. eauto.
  - assert (exists nm, py_get asset_info "name" (VStr asset_symbol) = Ok nm)
      as (nm & Hnm).
    { unfold get_num in Hq. destruct (py_get asset_info "quantity" (VNum 0)) eqn:E;
        [|discriminate].
      unfold py_get in *. destruct asset_info; try discriminate. eauto. }
    rewrite Hnm; simpl. unfold py_index. rewrite get_setitem_eq; simpl. eauto.
Qed.

Lemma inner_loop_total entity_name items :
  forall st,
    forallb wf_asset_info (map snd items) = true ->
    In entity_name (Dict.keys (entities st)) ->
    exists st', foldM (process_asset entity_name) items st = Ok st'.
Proof.
  induction items as [|[s info] items IH]; intros st Hwf Hin; simpl in *.
  - eauto.
  - apply andb_true_iff in Hwf as (Hw & Hwf).
    destruct (process_asset_total entity_name st s info Hw Hin) as (st1 & H1).
    rewrite H1; simpl. apply IH; auto.
    now rewrite (process_asset_entity_keys _ _ _ _ H1).
Qed.

Lemma sum_value_usd_total infos :
  forall acc,
    forallb wf_asset_info infos = true ->
    exists t, sum_value_usd infos acc = Ok t.
Proof.
  induction infos as [|info infos IH]; intros acc Hwf; simpl in *.
  - eauto.
  - apply andb_true_iff in Hwf as (Hw & Hwf).
    apply wf_asset_info_get_num in Hw as (_ & (v & Hv)).
    unfold get_num in Hv.
    destruct (py_get info "value_usd" (VNum 0)) as [x|] eqn:E; [|discriminate].
    simpl in *. destruct x; try discriminate. simpl. apply IH; auto.
Qed.

Lemma process_entity_total st entity_name entity_data :
  wf_record entity_data = true ->
  exists st', process_entity st (entity_name, entity_data) = Ok st'.
Proof.
  unfold wf_record, process_entity; simpl. intros Hwf.
  destruct entity_data; try discriminate. simpl.
  assert (exists items,
             match Dict.get d "assets" with
             | Some v => v
             | None => VDict []
             end = VDict items
             /\ forallb wf_asset_info (map snd items) = true)
    as (items & -> & Hitems).
  { destruct (Dict.get d "assets") as [[]|]; try discriminate; eauto. }
  simpl.
  destruct (sum_value_usd_total (map snd items) 0 Hitems) as (t & ->). simpl.
  apply inner_loop_total; auto. simpl.
  apply In_keys_setitem. auto.
Qed.

Lemma fold_entities_total raw_data :
  forall st,
    forallb wf_record (Dict.values raw_data) = true ->
    exists st', foldM process_entity raw_data st = Ok st'.
Proof.
  induction raw_data as [|[e d] raw IH]; intros st Hwf; simpl in *.
  - eauto.
  - apply andb_true_iff in Hwf as (Hw & Hwf).
    destruct (process_entity_total st e d Hw) as (st1 & ->). simpl. auto.
Qed.

Lemma inner_loop_ok_wf entity_name items :
  forall st st',
    foldM (process_asset entity_name) items st = Ok st' ->
    forallb wf_asset_info (map snd items) = true.
Proof.
  induction items as [|[s info] items IH]; intros st st' H; simpl in *.
  - reflexivity.
  - apply bind_ok in H as (st1 & H1 & H).
    apply andb_true_iff. split; [|eauto].
    apply process_asset_ok in H1 as (q & v & _ & _ & Hq & Hv & _).
    apply wf_asset_info_get_num. eauto.
Qed.

Lemma process_entity_ok_wf st entity_name entity_data st' :
  process_entity st (entity_name, entity_data) = Ok st' ->
  wf_record entity_data = true.
Proof.
  intros H. apply process_entity_ok in H as (items & total & Hget & _ & H).
  apply inner_loop_ok_wf in H.
  unfold py_get in Hget. destruct entity_data; try discriminate. simpl.
  destruct (Dict.get d "assets") as [x|].
  - inversion Hget; subst. exact H.
  - reflexivity.
Qed.

Lemma fold_entities_ok_wf raw_data :
  forall st st',
    foldM process_entity raw_data st = Ok st' ->
    forallb wf_record (Dict.values raw_data) = true.
Proof.
  induction raw_data as [|[e d] raw IH]; intros st st' H; simpl in *.
  - reflexivity.
  - apply bind_ok in H as (st1 & H1 & H).
    apply andb_true_iff. split; [|eauto].
    eapply process_entity_ok_wf; eauto.
Qed.

(** C4, as the code has it: the aggregation returns an index, with every
    entity of the input, when every record is readable; one record that is
    not makes the whole aggregation raise. *)
Theorem malformed_record_aborts (raw_data : dict value) :
  (forallb wf_record (Dict.values raw_data) = true ->
   exists idx,
     process_market_maker_data raw_data = Ok idx
     /\ forall e, In e (Dict.keys raw_data) <-> In e (Dict.keys (entities idx)))
  /\ (forall entity entity_data,
        In (entity, entity_data) raw_data ->
        wf_record entity_data = false ->
        exists e, process_market_maker_data raw_data = Raise e).
Proof.
  unfold process_market_maker_data, fold_entities. split.
  - intros Hwf.
    destruct (fold_entities_total raw_data (mkIndex [] []) Hwf) as (st & Hst).
    rewrite Hst; simpl. eexists; split; [reflexivity|].
    intros e. simpl. rewrite (fold_entities_keys _ _ _ Hst e). simpl. tauto.
  - intros entity entity_data Hin Hbad.
    destruct (foldM process_entity raw_data (mkIndex [] [])) as [st|e] eqn:E;
      simpl; [|eauto].
    apply fold_entities_ok_wf in E.
    rewrite forallb_forall in E.
    assert (wf_record entity_data = true) as Hgood.
    { apply E. unfold Dict.values.
      change entity_data with (snd (entity, entity_data)). now apply in_map. }
    congruence.
Qed.

(** C4 as stated fails: with one record that is not a mapping, or whose
    [assets] is not one, nothing is returned for the other entity. *)
Lemma broken_record_aborts_all :
  process_market_maker_data raw_broken = Raise AttributeError
  /\ process_market_maker_data raw_broken_assets = Raise AttributeError.
Proof. split; reflexivity. Qed.

(** ** The selection filter *)

Lemma restrict_acc_nodup {V : Type} (d : dict V) selected :
  forall acc,
    NoDup (Dict.keys acc) ->
    NoDup (Dict.keys
             (fold_left
                (fun acc k =>
                   match Dict.get d k with
                   | Some v => Dict.setitem acc k v
                   | None => acc
                   end)
                selected acc)).
Proof.
  induction selected as [|k selected IH]; intros acc H; simpl; [assumption|].
  apply IH. destruct (Dict.get d k); [now apply NoDup_setitem | assumption].
Qed.

Lemma restrict_nodup {V : Type} (d : dict V) selected :
  NoDup (Dict.keys (restrict d selected)).
Proof. apply restrict_acc_nodup. constructor. Qed.

Lemma restrict_acc_get {V : Type} (d : dict V) selected k v :
  forall acc,
    (Dict.get acc k = Some v -> Dict.get d k = Some v) ->
    Dict.get
      (fold_left
         (fun acc k =>
            match Dict.get d k with
            | Some v => Dict.setitem acc k v
            | None => acc
            end)
         selected acc) k = Some v ->
    Dict.get d k = Some v.
Proof.
  induction selected as [|k0 selected IH]; intros acc Hacc; simpl; [assumption|].
  apply IH. destruct (Dict.get d k0) as [v0|] eqn:E; [|assumption].
  rewrite get_setitem. destruct (String.eqb k0 k) eqn:Ek; [|assumption].
  apply String.eqb_eq in Ek; subst. congruence.
Qed.

(** A selected entry is the entry of the index. *)
Lemma restrict_get {V : Type} (d : dict V) selected k v :
  Dict.get (restrict d selected) k = Some v -> Dict.get d k = Some v.
Proof. apply restrict_acc_get. discriminate. Qed.

(** ** The layout engine *)

Lemma mapM_map {X Y Z : Type} (f : Y -> result Z) (h : X -> Y) (l : list X) :
  mapM f (map h l) = mapM (fun x => f (h x)) l.
Proof.
  induction l as [|x l IH]; simpl; [reflexivity|]. now rewrite IH.
Qed.

(** Reading a dictionary at each of its keys gives its values in order. *)
Lemma mapM_index_keys {V Y : Type} (d : dict V) (g : string -> V -> Y) :
  NoDup (Dict.keys d) ->
  mapM (fun k => v <- py_index d k ;; Ok (g k v)) (Dict.keys d)
  = Ok (map (fun kv => g (fst kv) (snd kv)) d).
Proof.
  intros Hnd. unfold Dict.keys. rewrite mapM_map.
  apply mapM_pure. intros [k v] Hin. simpl.
  unfold py_index. now rewrite (In_get d k v Hnd Hin).
Qed.

(** The pairs the entity sort works on. *)
Lemma entity_values_eq data :
  NoDup (Dict.keys (entities data)) ->
  mapM (fun entity =>
          entity_info <- py_index (entities data) entity ;;
          Ok (entity, Entity.total_value entity_info))
       (Dict.keys (entities data))
  = Ok (entity_values data).
Proof.
  intros H. now rewrite (mapM_index_keys _ (fun k v => (k, Entity.total_value v))).
Qed.

Lemma market_totals_eq data :
  NoDup (Dict.keys (entities data)) ->
  mapM (fun entity =>
          entity_info <- py_index (entities data) entity ;;
          Ok (Entity.total_value entity_info))
       (Dict.keys (entities data))
  = Ok (map Entity.total_value (Dict.values (entities data))).
Proof.
  intros H. rewrite (mapM_index_keys _ (fun _ v => Entity.total_value v)) by auto.
  unfold Dict.values. now rewrite map_map.
Qed.

Section LayoutFacts.

Variable math_pi : Q.
Variables math_cos math_sin math_sqrt math_log10 : Q -> Q.

Local Abbreviation anchor' := (anchor math_pi math_cos math_sin).
Local Abbreviation zone_at' := (zone_at math_pi math_cos math_sin).
Local Abbreviation positioned' := (positioned math_pi math_cos math_sin).
Local Abbreviation place_entity' :=
  (place_entity math_pi math_cos math_sin math_sqrt).
Local Abbreviation place_entities' :=
  (place_entities math_pi math_cos math_sin math_sqrt).
Local Abbreviation layout_asset' := (layout_asset math_log10).
Local Abbreviation create_venn_diagram' :=
  (create_venn_diagram math_pi math_cos math_sin math_sqrt math_log10).
Local Abbreviation layout' :=
  (layout math_pi math_cos math_sin math_sqrt math_log10).

(** The stages of a run that returns a scene. *)
Lemma create_venn_diagram_ok data scene :
  create_venn_diagram' data = Ok scene ->
  exists sorted placed layouts,
    sorted_entities data = Ok sorted
    /\ place_entities' data sorted = Ok placed
    /\ foldM (layout_asset' data sorted (fst placed))
         (Dict.keys (assets data)) [] = Ok layouts
    /\ foldM (draw_asset data layouts)
         (sorted_desc (layout_size layouts) (Dict.keys (assets data))) []
       = Ok (bubbles scene)
    /\ zones scene = snd placed
    /\ labels scene = fst placed.
Proof.
  unfold create_venn_diagram. intros H.
  apply bind_ok in H as (sorted & Hsorted & H).
  apply bind_ok in H as (placed & Hplaced & H).
  apply bind_ok in H as (layouts & Hlayouts & H).
  apply bind_ok in H as (drawn & Hdrawn & H).
  inversion H; subst scene; clear H. simpl.
  exists sorted, placed, layouts. auto 10.
Qed.

Lemma layout_ok idx selected_entities selected_assets scene :
  layout' idx selected_entities selected_assets = Ok (Some scene) ->
  create_venn_diagram' (filtered_data idx selected_entities selected_assets)
  = Ok scene.
Proof.
  unfold layout.
  destruct selected_entities; [discriminate|].
  destruct selected_assets; [discriminate|].
  intros H. apply bind_ok in H as (sc & Hs & H). inversion H; subst. exact Hs.
Qed.

(** *** The entity ring *)

Lemma sorted_entities_ok data sorted :
  NoDup (Dict.keys (entities data)) ->
  sorted_entities data = Ok sorted ->
  sorted = map fst (sorted_desc snd (entity_values data)).
Proof.
  intros Hnd H. unfold sorted_entities in H.
  rewrite (entity_values_eq data Hnd) in H. simpl in H.
  inversion H; reflexivity.
Qed.

Lemma sorted_entities_nodup data sorted :
  NoDup (Dict.keys (entities data)) ->
  sorted_entities data = Ok sorted ->
  NoDup sorted.
Proof.
  intros Hnd H. rewrite (sorted_entities_ok data sorted Hnd H).
  eapply Permutation_NoDup; [|exact Hnd].
  unfold Dict.keys.
  replace (map fst (entities data)) with (map fst (entity_values data)).
  - apply Permutation_map. symmetry. apply sorted_desc_perm.
  - unfold entity_values. rewrite map_map. reflexivity.
Qed.

Lemma anchor_ok i n x y :
  anchor' i n = Ok (x, y) ->
  x = radius * math_cos (2 * math_pi * of_nat i / of_nat n)
  /\ y = radius * math_sin (2 * math_pi * of_nat i / of_nat n).
Proof.
  unfold anchor, py_div. destruct (Qeq_bool (of_nat n) 0); [discriminate|].
  simpl. intros H; inversion H; auto.
Qed.

Lemma nth_error_combine_seq {X : Type} (l : list X) :
  forall s i,
    nth_error (combine (seq s (length l)) l) i
    = option_map (fun e => ((s + i)%nat, e)) (nth_error l i).
Proof.
  induction l as [|x l IH]; intros s i; simpl.
  - destruct i; reflexivity.
  - destruct i; simpl.
    + now rewrite Nat.add_0_r.
    + rewrite IH. now rewrite Nat.add_succ_r.
Qed.

Lemma nth_error_enumerate {X : Type} (l : list X) i :
  nth_error (enumerate l) i = option_map (fun e => (i, e)) (nth_error l i).
Proof. unfold enumerate. now rewrite nth_error_combine_seq. Qed.

Lemma In_enumerate {X : Type} (l : list X) i e :
  In (i, e) (enumerate l) <-> nth_error l i = Some e.
Proof.
  split.
  - intros H. apply In_nth_error in H as (j & Hj).
    rewrite nth_error_enumerate in Hj.
    destruct (nth_error l j) eqn:E; simpl in Hj; [|discriminate].
    inversion Hj; subst. exact E.
  - intros H. apply (nth_error_In _ i).
    rewrite nth_error_enumerate, H. reflexivity.
Qed.

Lemma map_snd_enumerate {X : Type} (l : list X) : map snd (enumerate l) = l.
Proof.
  unfold enumerate. generalize 0%nat.
  induction l as [|x l IH]; intros s; simpl; [reflexivity|]. now rewrite IH.
Qed.

Lemma Forall2_nth_error_r {X Y : Type} (R : X -> Y -> Prop) l l' :
  Forall2 R l l' ->
  forall i y, nth_error l' i = Some y ->
              exists x, nth_error l i = Some x /\ R x y.
Proof.
  induction 1 as [|x y l l' Hxy _ IH]; intros i z Hz.
  - destruct i; discriminate.
  - destruct i; simpl in *.
    + inversion Hz; subst. eauto.
    + eauto.
Qed.

Lemma place_entity_step data n p st i e st' :
  Forall2 (zone_at' n) p (snd st) /\ positioned' n p (fst st) ->
  place_entity' data n st (i, e) = Ok st' ->
  Forall2 (zone_at' n) (p ++ [(i, e)]) (snd st')
  /\ positioned' n (p ++ [(i, e)]) (fst st').
Proof.
  intros (HZ & HP) H. unfold place_entity in H; simpl in H.
  apply bind_ok in H as ([x y] & Hxy & H).
  apply bind_ok in H as (entity_info & Hei & H).
  apply bind_ok in H as (root & Hroot & H).
  inversion H; subst st'; clear H. simpl. split.
  - apply Forall2_app; [assumption|].
    constructor; [|constructor]. split; simpl; auto.
  - intros i1 e1 Hin Huniq.
    destruct (string_dec e e1) as [<-|Hne].
    + assert (i = i1) as <-.
      { apply Huniq. apply in_app_iff. simpl. auto. }
      exists (x, y). split; [assumption | apply get_setitem_eq].
    + rewrite get_setitem_neq by assumption.
      apply in_app_iff in Hin as [Hin|[Hin|[]]]; [|congruence].
      apply HP; [assumption|].
      intros j Hj. apply Huniq. apply in_app_iff. auto.
Qed.

Lemma place_entities_ok data sorted placed :
  place_entities' data sorted = Ok placed ->
  Forall2 (zone_at' (length sorted)) (enumerate sorted) (snd placed)
  /\ positioned' (length sorted) (enumerate sorted) (fst placed).
Proof.
  unfold place_entities. intros H.
  apply (foldM_prefix_inv (place_entity' data (length sorted))
           (fun p st => Forall2 (zone_at' (length sorted)) p (snd st)
                        /\ positioned' (length sorted) p (fst st)))
    with (l := enumerate sorted) (p := []) (s := ([], [])) (s' := placed).
  - intros p [i e] s s'. apply place_entity_step.
  - split; [constructor | intros i e []].
  - exact H.
Qed.

Lemma place_entities_zones data sorted placed :
  place_entities' data sorted = Ok placed ->
  map zone_entity (snd placed) = sorted.
Proof.
  intros H. apply place_entities_ok in H as (HZ & _).
  transitivity (map snd (enumerate sorted)); [|apply map_snd_enumerate].
  induction HZ as [|ie z p zs (Hz & _) _ IH]; simpl; [reflexivity|].
  now rewrite Hz, IH.
Qed.

(** *** The asset loop *)

Lemma layout_asset_cases data sorted entity_positions layouts asset layouts' :
  layout_asset' data sorted entity_positions layouts asset = Ok layouts' ->
  exists asset_info,
    Dict.get (assets data) asset = Some asset_info
    /\ ((holders_of sorted asset_info = [] /\ layouts' = layouts)
        \/ (exists l,
              laid_out data sorted entity_positions asset l
              /\ layouts' = Dict.setitem layouts asset l)).
Proof.
  unfold layout_asset. intros H.
  apply bind_ok in H as (asset_info & Hai & H). apply py_index_ok in Hai.
  exists asset_info. split; [assumption|].
  destruct (holders_of sorted asset_info) as [|h holders] eqn:Eh.
  - inversion H; auto.
  - apply bind_ok in H as (position & Hpos & H).
    apply bind_ok in H as (lg & Hlg & H).
    apply bind_ok in H as (pct & Hpct & H).
    inversion H; subst layouts'; clear H.
    right. eexists; split; [|reflexivity].
    exists asset_info. simpl. rewrite Eh.
    repeat split; auto. discriminate.
Qed.

Lemma layout_assets_laid_out data sorted entity_positions names :
  forall acc layouts,
    (forall a l, Dict.get acc a = Some l ->
                 laid_out data sorted entity_positions a l) ->
    foldM (layout_asset' data sorted entity_positions) names acc = Ok layouts ->
    forall a l, Dict.get layouts a = Some l ->
                laid_out data sorted entity_positions a l.
Proof.
  intros acc layouts Hacc H. revert Hacc H.
  apply (foldM_inv _
           (fun d => forall a l, Dict.get d a = Some l ->
                                 laid_out data sorted entity_positions a l)).
  intros asset d d' Hd Hstep a l Hget.
  apply layout_asset_cases in Hstep
    as (asset_info & _ & [(_ & ->)|(l' & Hl' & ->)]); [eauto|].
  rewrite get_setitem in Hget. destruct (String.eqb asset a) eqn:E.
  - apply String.eqb_eq in E; subst a. inversion Hget; subst. exact Hl'.
  - eauto.
Qed.

Lemma layout_asset_keeps data sorted entity_positions layouts asset layouts' a :
  layout_asset' data sorted entity_positions layouts asset = Ok layouts' ->
  In a (Dict.keys layouts) -> In a (Dict.keys layouts').
Proof.
  intros H Hin. apply layout_asset_cases in H
    as (asset_info & _ & [(_ & ->)|(l' & _ & ->)]); [assumption|].
  apply In_keys_setitem. auto.
Qed.

(** Every asset with a selected holder gets a record. *)
Lemma layout_assets_complete data sorted entity_positions names :
  forall acc layouts a asset_info,
    foldM (layout_asset' data sorted entity_positions) names acc = Ok layouts ->
    In a names ->
    Dict.get (assets data) a = Some asset_info ->
    holders_of sorted asset_info <> [] ->
    In a (Dict.keys layouts).
Proof.
  induction names as [|n names IH]; intros acc layouts a asset_info H Hin Hai Hh;
    simpl in H; [destruct Hin|].
  apply bind_ok in H as (acc1 & H1 & H).
  assert (forall l d, foldM (layout_asset' data sorted entity_positions) l d
                      = Ok layouts ->
                      In a (Dict.keys d) -> In a (Dict.keys layouts)) as Hkeep.
  { clear. intros l. induction l as [|x l IHl]; intros d H Hd; simpl in H.
    - inversion H; subst; assumption.
    - apply bind_ok in H as (d1 & H1 & H).
      eapply IHl; eauto. eapply layout_asset_keeps; eauto. }
  destruct Hin as [->|Hin]; [|eauto].
  apply (Hkeep _ _ H).
  apply layout_asset_cases in H1
    as (ai & Hai' & [(Hnil & _)|(l' & _ & ->)]).
  - rewrite Hai in Hai'. inversion Hai'; subst. contradiction.
  - apply In_keys_setitem. auto.
Qed.

(** *** The drawing loop *)

Lemma draw_asset_cases data layouts drawn asset drawn' :
  draw_asset data layouts drawn asset = Ok drawn' ->
  (Dict.get layouts asset = None /\ drawn' = drawn)
  \/ (exists b, drawn_from layouts b /\ bubble_asset b = asset
                /\ drawn' = drawn ++ [b]).
Proof.
  unfold draw_asset. destruct (Dict.get layouts asset) as [l|] eqn:El.
  - intros H. apply bind_ok in H as (asset_info & Hai & H).
    apply bind_ok in H as (breakdown & Hb & H).
    inversion H; subst drawn'; clear H. right.
    eexists; split; [|split; [|reflexivity]]; [|reflexivity].
    exists l. simpl. rewrite El.
    repeat split; auto. now destruct (asset_position l).
  - intros H. inversion H; auto.
Qed.

Lemma draw_assets_drawn_from data layouts names :
  forall acc drawn,
    Forall (drawn_from layouts) acc ->
    foldM (draw_asset data layouts) names acc = Ok drawn ->
    Forall (drawn_from layouts) drawn.
Proof.
  intros acc drawn Hacc H. revert Hacc H.
  apply (foldM_inv _ (Forall (drawn_from layouts))).
  intros asset d d' Hd Hstep.
  apply draw_asset_cases in Hstep as [(_ & ->)|(b & Hb & _ & ->)]; [assumption|].
  apply Forall_app. split; [assumption|]. constructor; [assumption|constructor].
Qed.

(** Every asset with a record gets a bubble. *)
Lemma draw_assets_complete data layouts names :
  forall acc drawn a,
    foldM (draw_asset data layouts) names acc = Ok drawn ->
    In a names ->
    In a (Dict.keys layouts) ->
    exists b, In b drawn /\ bubble_asset b = a.
Proof.
  induction names as [|n names IH]; intros acc drawn a H Hin Hl;
    simpl in H; [destruct Hin|].
  apply bind_ok in H as (acc1 & H1 & H).
  assert (forall l d b, foldM (draw_asset data layouts) l d = Ok drawn ->
                        In b d -> In b drawn) as Hkeep.
  { clear. intros l. induction l as [|x l IHl]; intros d b H Hd; simpl in H.
    - inversion H; subst; assumption.
    - apply bind_ok in H as (d1 & H1 & H).
      eapply IHl; eauto.
      apply draw_asset_cases in H1 as [(_ & ->)|(b' & _ & _ & ->)];
        [assumption | apply in_app_iff; auto]. }
  destruct Hin as [->|Hin]; [|eauto].
  apply draw_asset_cases in H1 as [(Hnone & _)|(b & _ & Hb & ->)].
  - apply get_None in Hnone. contradiction.
  - exists b. split; [|assumption].
    apply (Hkeep _ _ _ H). apply in_app_iff. simpl. auto.
Qed.

End LayoutFacts.

(** *** Place and share of an asset *)

Lemma mapM_ok_map {X Y : Type} (f : X -> result Y) (g : X -> Y) (l : list X) :
  forall ys,
    (forall x y, In x l -> f x = Ok y -> y = g x) ->
    mapM f l = Ok ys -> ys = map g l.
Proof.
  induction l as [|x l IH]; intros ys Hg H; simpl in H.
  - inversion H; reflexivity.
  - apply bind_ok in H as (y & Hy & H). apply bind_ok in H as (ys' & Hys & H).
    inversion H; subst ys; clear H. simpl. f_equal.
    + apply Hg; simpl; auto.
    + apply IH; auto. intros x' y' Hin. apply Hg. simpl; auto.
Qed.

Lemma py_div_ok a b c : py_div a b = Ok c -> ~ b == 0 /\ c = a / b.
Proof.
  unfold py_div. destruct (Qeq_bool b 0) eqn:E; [discriminate|].
  intros H; inversion H; subst. split; [|reflexivity].
  now apply Qeq_bool_neq.
Qed.

Lemma weighted_sum_cons x xs w ws :
  weighted_sum (x :: xs) (w :: ws) == x * w + weighted_sum xs ws.
Proof. unfold weighted_sum. simpl. apply py_sum_cons. Qed.

Lemma add_weighted_ok data entity_positions asset sums holder sums' :
  add_weighted data entity_positions asset sums holder = Ok sums' ->
  exists entity_info xy,
    Dict.get (entities data) holder = Some entity_info
    /\ Dict.get entity_positions holder = Some xy
    /\ sums' = (fst sums + fst xy * holding_value entity_info asset,
                snd sums + snd xy * holding_value entity_info asset).
Proof.
  unfold add_weighted. intros H.
  apply bind_ok in H as (entity_info & Hei & H).
  apply bind_ok in H as (xy & Hxy & H).
  apply py_index_ok in Hei, Hxy. inversion H; subst. eauto.
Qed.

Lemma held_value_get data asset holder entity_info :
  Dict.get (entities data) holder = Some entity_info ->
  held_value data asset holder = holding_value entity_info asset.
Proof.
  intros H. unfold held_value, holding_value. now rewrite H.
Qed.

Lemma add_weighted_sums data entity_positions asset holders :
  forall acc sums,
    foldM (add_weighted data entity_positions asset) holders acc = Ok sums ->
    fst sums
    == fst acc + weighted_sum (map fst (points_of entity_positions holders))
                   (weights_of data asset holders)
    /\ snd sums
       == snd acc + weighted_sum (map snd (points_of entity_positions holders))
                      (weights_of data asset holders).
Proof.
  induction holders as [|h holders IH]; intros acc sums H; simpl in H.
  - inversion H; subst. unfold weighted_sum, py_sum; simpl. split; lra.
  - apply bind_ok in H as (acc1 & H1 & H).
    apply add_weighted_ok in H1 as (entity_info & xy & Hei & Hxy & ->).
    apply IH in H as (Hx & Hy). simpl in Hx, Hy.
    simpl. rewrite (held_value_get _ asset _ _ Hei), Hxy, !weighted_sum_cons.
    split; lra.
Qed.

(** A run of the weighted sums has found every holder in the index and on
    the ring. *)
Lemma add_weighted_defined data entity_positions asset holders :
  forall acc sums,
    foldM (add_weighted data entity_positions asset) holders acc = Ok sums ->
    forall h, In h holders ->
      exists entity_info xy,
        Dict.get (entities data) h = Some entity_info
        /\ Dict.get entity_positions h = Some xy.
Proof.
  induction holders as [|h0 holders IH]; intros acc sums H h Hin; simpl in H;
    [destruct Hin|].
  apply bind_ok in H as (acc1 & H1 & H).
  destruct Hin as [->|Hin]; [|eauto].
  apply add_weighted_ok in H1 as (entity_info & xy & Hei & Hxy & _). eauto.
Qed.

Lemma centroid_ok data entity_positions asset holders xy :
  centroid data entity_positions asset holders = Ok xy ->
  let ws := weights_of data asset holders in
  let ps := points_of entity_positions holders in
  (forall h, In h holders ->
     exists entity_info p,
       Dict.get (entities data) h = Some entity_info
       /\ Dict.get entity_positions h = Some p)
  /\ (py_sum ws <= 0 ->
      fst xy == py_sum (map fst ps) / of_nat (length holders)
      /\ snd xy == py_sum (map snd ps) / of_nat (length holders))
  /\ (0 < py_sum ws ->
      fst xy == weighted_sum (map fst ps) ws / py_sum ws
      /\ snd xy == weighted_sum (map snd ps) ws / py_sum ws).
Proof.
  intros H ws ps. unfold centroid in H.
  apply bind_ok in H as (sums & Hsums & H).
  pose proof (add_weighted_defined _ _ _ _ _ _ Hsums) as Hdef.
  apply add_weighted_sums in Hsums as (Hsx & Hsy). simpl in Hsx, Hsy.
  apply bind_ok in H as (weights & Hw & H).
  assert (weights = ws) as ->.
  { revert Hw. apply mapM_ok_map. intros h w Hin Hh.
    apply bind_ok in Hh as (entity_info & Hei & Hh).
    apply py_index_ok in Hei. rewrite (held_value_get _ asset _ _ Hei).
    now inversion Hh. }
  split; [exact Hdef|].
  destruct (Qle_bool (py_sum ws) 0) eqn:E.
  - apply Qle_bool_iff in E.
    apply bind_ok in H as (points & Hp & H).
    assert (points = ps) as ->.
    { revert Hp. apply mapM_ok_map. intros h p Hin Hh.
      apply py_index_ok in Hh. now rewrite Hh. }
    apply bind_ok in H as (x & Hx & H). apply bind_ok in H as (y & Hy & H).
    apply py_div_ok in Hx as (_ & ->). apply py_div_ok in Hy as (_ & ->).
    inversion H; subst xy; simpl. split.
    + intros _. split; reflexivity.
    + intros Hpos. lra.
  - assert (0 < py_sum ws) as Hpos.
    { destruct (Qlt_le_dec 0 (py_sum ws)) as [Hlt|Hle]; [assumption|].
      apply Qle_bool_iff in Hle. congruence. }
    apply bind_ok in H as (x & Hx & H). apply bind_ok in H as (y & Hy & H).
    apply py_div_ok in Hx as (_ & ->). apply py_div_ok in Hy as (_ & ->).
    inversion H; subst xy; simpl. split.
    + intros Hle. lra.
    + intros _. split.
      * rewrite Hsx. now rewrite Qplus_0_l.
      * rewrite Hsy. now rewrite Qplus_0_l.
Qed.

Lemma market_share_ok data asset_info pct :
  NoDup (Dict.keys (entities data)) ->
  market_share data asset_info = Ok pct ->
  ~ sum_entity_values data == 0
  /\ pct = Asset.total_value asset_info / sum_entity_values data * 100.
Proof.
  intros Hnd H. unfold market_share in H.
  rewrite (market_totals_eq data Hnd) in H. simpl in H.
  apply bind_ok in H as (share & Hs & H).
  apply py_div_ok in Hs as (Hnz & ->). inversion H; subst. auto.
Qed.

Lemma share_bounds tv total :
  ~ total == 0 -> 0 <= tv <= total -> 0 <= tv / total * 100 <= 100.
Proof.
  intros Hnz (H0 & H1).
  assert (0 < total) as Hpos.
  { destruct (Qlt_le_dec 0 total) as [Hlt|Hle]; [assumption|].
    exfalso. apply Hnz. lra. }
  assert (0 <= tv / total) as Hlo.
  { apply Qle_shift_div_l; [assumption | lra]. }
  assert (tv / total <= 1) as Hhi.
  { apply Qle_shift_div_r; [assumption | lra]. }
  split; lra.
Qed.

(** ** The layout engine on a selection *)

Lemma scene_ex_run : coarse_layout idx_ex ["A"; "B"] ["X"; "Y"] = Ok (Some scene_ex).
Proof. vm_compute. reflexivity. Qed.

Section LayoutTheorems.

Variable math_pi : Q.
Variables math_cos math_sin math_sqrt math_log10 : Q -> Q.

Local Abbreviation create_venn_diagram' :=
  (create_venn_diagram math_pi math_cos math_sin math_sqrt math_log10).
Local Abbreviation layout' :=
  (layout math_pi math_cos math_sin math_sqrt math_log10).

(** What a bubble of a returned scene shows. *)
Lemma bubble_laid_out data scene b :
  create_venn_diagram' data = Ok scene ->
  In b (bubbles scene) ->
  exists l,
    laid_out data (map zone_entity (zones scene)) (labels scene)
      (bubble_asset b) l
    /\ (bubble_x b, bubble_y b) = asset_position l
    /\ bubble_percentage b = asset_percentage l
    /\ bubble_holders b = asset_holders l.
Proof.
  intros H Hin.
  apply create_venn_diagram_ok in H
    as (sorted & placed & layouts & _ & Hplaced & Hlayouts & Hdrawn & Hz & Hl).
  rewrite Hz, Hl, (place_entities_zones _ _ _ _ _ _ _ Hplaced).
  apply draw_assets_drawn_from in Hdrawn; [|constructor].
  rewrite Forall_forall in Hdrawn.
  destruct (Hdrawn b Hin) as (l & Hget & Hxy & Hpct & Hh).
  exists l. repeat split; auto.
  eapply layout_assets_laid_out; eauto. discriminate.
Qed.

(** C1, as the code has it: the percentage of a rendered asset is its
    total value (over all its holders, selected or not) divided by the sum
    of the totals of the selected entities, times 100; it is between 0 and
    100 when that total value is between 0 and that sum. *)
Theorem percentage_of_selected_capital (idx : Index)
    (selected_entities selected_assets : list string)
    (scene : Scene) (b : Bubble) :
  layout' idx selected_entities selected_assets = Ok (Some scene) ->
  In b (bubbles scene) ->
  exists asset_info,
    Dict.get (assets idx) (bubble_asset b) = Some asset_info
    /\ ~ sum_entity_values
           (filtered_data idx selected_entities selected_assets) == 0
    /\ bubble_percentage b
       = Asset.total_value asset_info
         / sum_entity_values
             (filtered_data idx selected_entities selected_assets)
         * 100
    /\ (0 <= Asset.total_value asset_info
             <= sum_entity_values
                  (filtered_data idx selected_entities selected_assets) ->
        0 <= bubble_percentage b <= 100).
Proof.
  intros H Hin. apply layout_ok in H.
  destruct (bubble_laid_out _ _ _ H Hin)
    as (l & (asset_info & Hai & _ & _ & _ & Hshare) & _ & Hpct & _).
  apply market_share_ok in Hshare as (Hnz & Hval);
    [|apply restrict_nodup].
  exists asset_info. split; [now apply restrict_get in Hai|].
  split; [assumption|]. rewrite Hpct, Hval. split; [reflexivity|].
  now apply share_bounds.
Qed.

End LayoutTheorems.

Lemma percentage_of_selected_capital_witness :
  exists asset_info,
    Dict.get (assets idx_ex) "Y" = Some asset_info
    /\ ~ sum_entity_values (filtered_data idx_ex ["A"; "B"] ["X"; "Y"]) == 0
    /\ 5000 # 450
       = Asset.total_value asset_info
         / sum_entity_values (filtered_data idx_ex ["A"; "B"] ["X"; "Y"])
         * 100
    /\ (0 <= Asset.total_value asset_info
             <= sum_entity_values (filtered_data idx_ex ["A"; "B"] ["X"; "Y"]) ->
        0 <= 5000 # 450 <= 100).
Proof.
  apply (percentage_of_selected_capital
           coarse_pi coarse_cos coarse_sin coarse_sqrt coarse_log10
           idx_ex ["A"; "B"] ["X"; "Y"] scene_ex
           (mkBubble "Y" (2750 # 500) (0 # 500) 1000.0 (5000 # 450) "#FFC000"
              ["B"] [("B", 50, 5000 # 50)])).
  - exact scene_ex_run.
  - simpl. auto.
Defined.

(** C1 as stated fails: with only [A] selected, asset [X] (held by [A] for
    100 and by [B] for 300) is shown at 400 percent; and a negative total
    gives a negative percentage.  Both whatever the [math] functions are. *)
Lemma percentage_outside_bounds :
  process_market_maker_data raw_ex = Ok idx_ex
  /\ (forall math_pi math_cos math_sin math_sqrt math_log10,
      exists scene b,
        layout math_pi math_cos math_sin math_sqrt math_log10
          idx_ex ["A"] ["X"] = Ok (Some scene)
        /\ In b (bubbles scene)
        /\ bubble_asset b = "X"
        /\ bubble_percentage b == 400
        /\ ~ bubble_percentage b <= 100)
  /\ (forall math_pi math_cos math_sin math_sqrt math_log10,
      exists scene b,
        layout math_pi math_cos math_sin math_sqrt math_log10
          idx_short ["A"] ["X"] = Ok (Some scene)
        /\ In b (bubbles scene)
        /\ bubble_asset b = "X"
        /\ bubble_percentage b == -100
        /\ ~ 0 <= bubble_percentage b).
Proof.
  split; [reflexivity|]. split.
  - intros. eexists; eexists. split; [reflexivity|].
    split; [left; reflexivity|]. split; [reflexivity|].
    split; [reflexivity|]. intros H. vm_compute in H. apply H. reflexivity.
  - intros. eexists; eexists. split; [reflexivity|].
    split; [left; reflexivity|]. split; [reflexivity|].
    split; [reflexivity|]. intros H. vm_compute in H. apply H. reflexivity.
Qed.

(** C2 fails on the code: when the totals of the selected entities add up
    to 0 the share of line 923 divides by 0, and when a rendered asset has
    total value 0 the holder shares of line 971 do, whatever the [math]
    functions are. *)
Theorem zero_total_raises :
  process_market_maker_data raw_zero = Ok idx_zero
  /\ (forall math_pi math_cos math_sin math_sqrt math_log10,
        layout math_pi math_cos math_sin math_sqrt math_log10
          idx_zero ["A"] ["X"]
        = Raise ZeroDivisionError)
  /\ process_market_maker_data raw_zero_asset = Ok idx_zero_asset
  /\ (forall math_pi math_cos math_sin math_sqrt math_log10,
        layout math_pi math_cos math_sin math_sqrt math_log10
          idx_zero_asset ["A"] ["X"]
        = Raise ZeroDivisionError).
Proof.
  split; [reflexivity|]. split; [intros; reflexivity|].
  split; [reflexivity|]. intros; reflexivity.
Qed.

Section LayoutPlacement.

Variable math_pi : Q.
Variables math_cos math_sin math_sqrt math_log10 : Q -> Q.

Local Abbreviation create_venn_diagram' :=
  (create_venn_diagram math_pi math_cos math_sin math_sqrt math_log10).
Local Abbreviation layout' :=
  (layout math_pi math_cos math_sin math_sqrt math_log10).

(** Every asset with a selected holder has a bubble. *)
Lemma bubble_exists data scene asset asset_info :
  create_venn_diagram' data = Ok scene ->
  Dict.get (assets data) asset = Some asset_info ->
  holders_of (map zone_entity (zones scene)) asset_info <> [] ->
  exists b, In b (bubbles scene) /\ bubble_asset b = asset.
Proof.
  intros H Hai Hh.
  apply create_venn_diagram_ok in H
    as (sorted & placed & layouts & _ & Hplaced & Hlayouts & Hdrawn & Hz & _).
  rewrite Hz, (place_entities_zones _ _ _ _ _ _ _ Hplaced) in Hh.
  pose proof (get_Some_key _ _ _ Hai) as Hkey.
  eapply draw_assets_complete; [exact Hdrawn| |].
  - eapply Permutation_in; [|exact Hkey].
    symmetry. apply sorted_desc_perm.
  - eapply layout_assets_complete; eauto.
Qed.

(** C8, as the code has it: an asset with a selected holder is drawn at
    the average of its holders' anchors weighted by what each holds of it
    when these weights add up to more than 0, and at the plain average of
    the anchors when they add up to 0 or less.  With one holder that is
    [x * w / w] for an anchor coordinate [x] and a weight [w] above 0, and
    the anchor itself for a weight of 0 or less. *)
Theorem weighted_centroid (idx : Index)
    (selected_entities selected_assets : list string) (scene : Scene)
    (asset : string) (asset_info : Asset.t) :
  layout' idx selected_entities selected_assets = Ok (Some scene) ->
  Dict.get (assets (filtered_data idx selected_entities selected_assets)) asset
  = Some asset_info ->
  holders_of (map zone_entity (zones scene)) asset_info <> [] ->
  exists b,
    In b (bubbles scene)
    /\ bubble_asset b = asset
    /\ bubble_holders b = holders_of (map zone_entity (zones scene)) asset_info
    /\ (0 < py_sum
              (weights_of (filtered_data idx selected_entities selected_assets)
                 asset (bubble_holders b)) ->
        bubble_x b
        == weighted_sum
             (map fst (points_of (labels scene) (bubble_holders b)))
             (weights_of (filtered_data idx selected_entities selected_assets)
                asset (bubble_holders b))
           / py_sum
               (weights_of (filtered_data idx selected_entities selected_assets)
                  asset (bubble_holders b))
        /\ bubble_y b
           == weighted_sum
                (map snd (points_of (labels scene) (bubble_holders b)))
                (weights_of (filtered_data idx selected_entities selected_assets)
                   asset (bubble_holders b))
              / py_sum
                  (weights_of
                     (filtered_data idx selected_entities selected_assets)
                     asset (bubble_holders b)))
    /\ (py_sum
          (weights_of (filtered_data idx selected_entities selected_assets)
             asset (bubble_holders b)) <= 0 ->
        bubble_x b
        == py_sum (map fst (points_of (labels scene) (bubble_holders b)))
           / of_nat (length (bubble_holders b))
        /\ bubble_y b
           == py_sum (map snd (points_of (labels scene) (bubble_holders b)))
              / of_nat (length (bubble_holders b)))
    /\ (forall holder,
          bubble_holders b = [holder] ->
          exists xy,
            Dict.get (labels scene) holder = Some xy
            /\ (0 < held_value
                      (filtered_data idx selected_entities selected_assets)
                      asset holder ->
                bubble_x b
                == fst xy
                   * held_value
                       (filtered_data idx selected_entities selected_assets)
                       asset holder
                   / held_value
                       (filtered_data idx selected_entities selected_assets)
                       asset holder
                /\ bubble_y b
                   == snd xy
                      * held_value
                          (filtered_data idx selected_entities selected_assets)
                          asset holder
                      / held_value
                          (filtered_data idx selected_entities selected_assets)
                          asset holder)
            /\ (held_value
                  (filtered_data idx selected_entities selected_assets)
                  asset holder <= 0 ->
                bubble_x b == fst xy /\ bubble_y b == snd xy)).
Proof.
  intros H Hai Hh. apply layout_ok in H.
  set (data := filtered_data idx selected_entities selected_assets) in *.
  destruct (bubble_exists _ _ _ _ H Hai Hh) as (b & Hin & Hasset).
  exists b. split; [assumption|]. split; [assumption|].
  destruct (bubble_laid_out _ _ _ _ _ _ _ _ H Hin)
    as (l & (asset_info' & Hai' & Hholders & _ & Hc & _) & Hxy & _ & Hbh).
  rewrite Hasset, Hai in Hai'. inversion Hai'; subst asset_info'; clear Hai'.
  rewrite Hasset, <- Hbh, <- Hxy in Hc.
  split; [congruence|].
  apply centroid_ok in Hc as (Hdef & Hflat & Hweighted). simpl in Hflat, Hweighted.
  split; [exact Hweighted|]. split; [exact Hflat|].
  intros holder Hone. rewrite Hone in *.
  destruct (Hdef holder (or_introl eq_refl)) as (entity_info & xy & Hei & Hp).
  exists xy. split; [assumption|].
  change (of_nat (length [holder])) with 1 in Hflat.
  cbv [weights_of points_of map] in Hflat, Hweighted.
  rewrite Hp in Hflat, Hweighted.
  cbv [weighted_sum py_sum map combine fold_left] in Hflat, Hweighted.
  cbn [fst snd] in Hflat, Hweighted.
  split.
  - intros Hpos.
    destruct Hweighted as (Hx & Hy); [lra|]. rewrite Hx, Hy.
    split; field; lra.
  - intros Hle.
    destruct Hflat as (Hx & Hy); [lra|]. rewrite Hx, Hy.
    split; field.
Qed.

(** C9: the selected entities are ranked by total value, largest first and
    ties in their given order, and the entity of rank [i] among [n] is
    placed at [(5.5 cos(2 pi i / n), 5.5 sin(2 pi i / n))]. *)
Theorem entity_ring (idx : Index)
    (selected_entities selected_assets : list string) (scene : Scene) :
  layout' idx selected_entities selected_assets = Ok (Some scene) ->
  exists ranked : list (string * Q),
    Permutation ranked
      (entity_values (filtered_data idx selected_entities selected_assets))
    /\ StronglySorted (ge_key snd) ranked
    /\ (forall v,
          tied snd v ranked
          = tied snd v
              (entity_values
                 (filtered_data idx selected_entities selected_assets)))
    /\ map zone_entity (zones scene) = map fst ranked
    /\ forall i z,
         nth_error (zones scene) i = Some z ->
         zone_x z
         = 5.5 * math_cos (2 * math_pi * of_nat i / of_nat (length ranked))
         /\ zone_y z
            = 5.5 * math_sin (2 * math_pi * of_nat i / of_nat (length ranked))
         /\ Dict.get (labels scene) (zone_entity z) = Some (zone_x z, zone_y z).
Proof.
  intros H. apply layout_ok in H.
  set (data := filtered_data idx selected_entities selected_assets) in *.
  assert (NoDup (Dict.keys (entities data))) as Hnd by apply restrict_nodup.
  apply create_venn_diagram_ok in H
    as (sorted & placed & layouts & Hsorted & Hplaced & _ & _ & Hz & Hl).
  pose proof (sorted_entities_nodup _ _ Hnd Hsorted) as Hnds.
  pose proof (sorted_entities_ok _ _ Hnd Hsorted) as Hs.
  exists (sorted_desc snd (entity_values data)).
  split; [apply sorted_desc_perm|]. split; [apply sorted_desc_sorted|].
  split; [intros v; apply sorted_desc_tied|].
  rewrite Hz, Hl. split.
  - rewrite (place_entities_zones _ _ _ _ _ _ _ Hplaced). exact Hs.
  - intros i z Hi.
    apply place_entities_ok in Hplaced as (HZ & HP).
    destruct (Forall2_nth_error_r _ _ _ HZ i z Hi) as ([j e] & Hie & Hze & Hanchor).
    rewrite nth_error_enumerate in Hie.
    destruct (nth_error sorted i) as [e'|] eqn:Ee; simpl in Hie; [|discriminate].
    inversion Hie; subst j e'; clear Hie. simpl in Hze, Hanchor.
    replace (length (sorted_desc snd (entity_values data))) with (length sorted)
      by (rewrite Hs; apply length_map).
    destruct (anchor_ok _ _ _ _ _ _ _ Hanchor) as (Hx & Hy).
    split; [exact Hx|]. split; [exact Hy|].
    destruct (HP i e) as (xy & Hxy & Hget).
    + apply In_enumerate. exact Ee.
    + intros j Hj. apply In_enumerate in Hj.
      symmetry. apply (proj1 (NoDup_nth_error sorted) Hnds).
      * apply nth_error_Some. congruence.
      * congruence.
    + rewrite Hze, Hget. congruence.
Qed.

End LayoutPlacement.

Lemma raw_partial_aggregate :
  process_market_maker_data raw_partial = Ok idx_partial.
Proof. reflexivity. Qed.

Lemma scene_partial_run :
  coarse_layout idx_partial ["A"] ["X"; "Y"] = Ok (Some scene_partial).
Proof. vm_compute. reflexivity. Qed.

Lemma weighted_centroid_witness :
  (exists b,
     In b (bubbles scene_ex)
     /\ bubble_asset b = "X"
     /\ bubble_holders b = ["B"; "A"]
     /\ anchored (labels scene_ex) "B" 5.5 0
     /\ anchored (labels scene_ex) "A" (-5.5) 0
     /\ weights_of (filtered_data idx_ex ["A"; "B"] ["X"; "Y"]) "X" ["B"; "A"]
        = [300; 100]
     /\ bubble_x b == (5.5 * 300 + -5.5 * 100) / (300 + 100)
     /\ bubble_y b == 0)
  /\ (exists b,
        In b (bubbles scene_partial)
        /\ bubble_asset b = "X"
        /\ bubble_holders b = ["A"]
        /\ anchored (labels scene_partial) "A" 5.5 0
        /\ weights_of (filtered_data idx_partial ["A"] ["X"; "Y"]) "X" ["A"]
           = [0]
        /\ bubble_x b == 5.5
        /\ bubble_y b == 0).
Proof.
  split.
  - destruct (weighted_centroid
                coarse_pi coarse_cos coarse_sin coarse_sqrt coarse_log10
                idx_ex ["A"; "B"] ["X"; "Y"] scene_ex "X"
                (Asset.mk (VStr "X") ["A"; "B"] 0 400) scene_ex_run eq_refl)
      as (b & Hin & Hasset & Hholders & Hweighted & _ & _).
    + discriminate.
    + exists b. split; [exact Hin|]. split; [exact Hasset|].
      split; [exact Hholders|].
      split; [split; reflexivity|]. split; [split; reflexivity|].
      split; [reflexivity|].
      rewrite Hholders in Hweighted.
      destruct Hweighted as (Hx & Hy); [reflexivity|].
      rewrite Hx, Hy. split; reflexivity.
  - destruct (weighted_centroid
                coarse_pi coarse_cos coarse_sin coarse_sqrt coarse_log10
                idx_partial ["A"] ["X"; "Y"] scene_partial "X"
                (Asset.mk (VStr "X") ["A"; "B"] 0 5) scene_partial_run eq_refl)
      as (b & Hin & Hasset & Hholders & _ & Hflat & _).
    + discriminate.
    + exists b. split; [exact Hin|]. split; [exact Hasset|].
      split; [exact Hholders|].
      split; [split; reflexivity|]. split; [reflexivity|].
      rewrite Hholders in Hflat.
      destruct Hflat as (Hx & Hy); [discriminate|].
      rewrite Hx, Hy. split; reflexivity.
Defined.

Lemma mean_not_weighted (xa xb : Q) :
  (0 + xa + xb) / 2 == (xa * -5 + xb * 3) / -2 -> xa == xb.
Proof.
  intros H.
  assert ((0 + xa + xb) / 2 == (xa + xb) * (1 # 2)) as H1 by field.
  assert ((xa * -5 + xb * 3) / -2 == (xa * -5 + xb * 3) * (-1 # 2)) as H2
    by field.
  rewrite H1, H2 in H. lra.
Qed.

(** C8 as stated fails.  When [A] is short 5 of [X] and [B] holds 3 of it,
    the weights add up to -2 and [X] is drawn at the plain average of the
    two anchors, which is their weighted average only if the anchors have
    the same abscissa, whatever the [math] functions are.  And on floats an
    asset with one holder is not drawn exactly at the anchor: for the
    anchor (5.5, 0.0) of a sole entity and a holding of 0.12 the abscissa is
    [5.5 * 0.12 / 0.12], which rounds to 5.499999999999999. *)
Lemma centroid_off_weighted_average :
  process_market_maker_data raw_mixed = Ok idx_mixed
  /\ (forall math_pi math_cos math_sin math_sqrt math_log10,
      exists scene b xa ya xb yb,
        layout math_pi math_cos math_sin math_sqrt math_log10
          idx_mixed ["A"; "B"] ["X"] = Ok (Some scene)
        /\ Dict.get (labels scene) "A" = Some (xa, ya)
        /\ Dict.get (labels scene) "B" = Some (xb, yb)
        /\ In b (bubbles scene)
        /\ bubble_asset b = "X"
        /\ bubble_holders b = ["A"; "B"]
        /\ weights_of (filtered_data idx_mixed ["A"; "B"] ["X"]) "X" ["A"; "B"]
           = [-5; 3]
        /\ bubble_x b == (xa + xb) / 2
        /\ (~ xa == xb -> ~ bubble_x b == (xa * -5 + xb * 3) / (-5 + 3)))
  /\ (exists idx,
        Doubles.process_market_maker_data Doubles.raw_cents = Ok idx
        /\ Doubles.centroid idx Doubles.sole_anchor "X" ["A"]
           = Ok (5.499999999999999%float, 0%float)
        /\ PrimFloat.eqb 5.499999999999999%float 5.5%float = false).
Proof.
  split; [reflexivity|]. split.
  - intros. eexists; eexists; eexists; eexists; eexists; eexists.
    split; [reflexivity|]. split; [reflexivity|]. split; [reflexivity|].
    split; [left; reflexivity|]. split; [reflexivity|]. split; [reflexivity|].
    split; [reflexivity|].
    split.
    + cbn. unfold py_sum. cbn. change (of_nat 2) with 2. field.
    + cbn. unfold py_sum. cbn. change (of_nat 2) with 2.
      intros Hne Heq. apply Hne. apply mean_not_weighted. exact Heq.
  - eexists. split; [vm_compute; reflexivity|].
    split; vm_compute; reflexivity.
Qed.

Lemma entity_ring_witness :
  exists ranked : list (string * Q),
    Permutation ranked [("A", 100); ("B", 350)]
    /\ StronglySorted (ge_key snd) ranked
    /\ (forall v, tied snd v ranked = tied snd v [("A", 100); ("B", 350)])
    /\ map zone_entity (zones scene_ex) = map fst ranked
    /\ forall i z,
         nth_error (zones scene_ex) i = Some z ->
         zone_x z
         = 5.5 * coarse_cos (2 * coarse_pi * of_nat i / of_nat (length ranked))
         /\ zone_y z
            = 5.5 * coarse_sin (2 * coarse_pi * of_nat i / of_nat (length ranked))
         /\ Dict.get (labels scene_ex) (zone_entity z)
            = Some (zone_x z, zone_y z).
Proof.
  exact (entity_ring coarse_pi coarse_cos coarse_sin coarse_sqrt coarse_log10
           idx_ex ["A"; "B"] ["X"; "Y"] scene_ex scene_ex_run).
Defined.

(** ** When the layout engine returns *)

Lemma foldM_total {S X : Type} (f : S -> X -> result S) (l : list X) :
  (forall x s, In x l -> exists s', f s x = Ok s') ->
  forall s, exists s', foldM f l s = Ok s'.
Proof.
  induction l as [|x l IH]; intros Hf s; simpl; [eauto|].
  destruct (Hf x s (or_introl eq_refl)) as (s1 & ->). simpl.
  apply IH. intros y s2 Hy. apply Hf. now right.
Qed.

Lemma mapM_total {X Y : Type} (f : X -> result Y) (l : list X) :
  (forall x, In x l -> exists y, f x = Ok y) ->
  exists ys, mapM f l = Ok ys.
Proof.
  induction l as [|x l IH]; intros Hf; simpl; [eauto|].
  destruct (Hf x (or_introl eq_refl)) as (y & ->). simpl.
  destruct IH as (ys & ->); [intros z Hz; apply Hf; now right|].
  simpl. eauto.
Qed.

Lemma of_nat_nonzero n : n <> 0%nat -> Qeq_bool (of_nat n) 0 = false.
Proof.
  intros Hn. unfold of_nat. destruct (Qeq_bool (inject_Z (Z.of_nat n)) 0) eqn:E;
    [|reflexivity].
  apply Qeq_bool_iff in E. unfold Qeq in E. simpl in E. lia.
Qed.

Lemma py_div_total a b : ~ b == 0 -> py_div a b = Ok (a / b).
Proof.
  intros Hb. unfold py_div. destruct (Qeq_bool b 0) eqn:E; [|reflexivity].
  apply Qeq_bool_iff in E. contradiction.
Qed.

Lemma holders_of_sorted sorted asset_info h :
  In h (holders_of sorted asset_info) -> In h sorted.
Proof. unfold holders_of. intros H. now apply filter_In in H. Qed.

Lemma centroid_total data entity_positions asset holders :
  holders <> [] ->
  (forall h, In h holders ->
     In h (Dict.keys (entities data)) /\ In h (Dict.keys entity_positions)) ->
  exists xy, centroid data entity_positions asset holders = Ok xy.
Proof.
  intros Hne Hh. unfold centroid.
  destruct (foldM_total (add_weighted data entity_positions asset) holders)
    with (s := (0, 0)) as (sums & ->).
  { intros h s Hin. destruct (Hh h Hin) as (He & Hp).
    apply key_get in He as (ei & Hei). apply key_get in Hp as (xy & Hxy).
    unfold add_weighted, py_index. rewrite Hei, Hxy. simpl. eauto. }
  simpl.
  destruct (mapM_total
              (fun holder =>
                 entity_info <- py_index (entities data) holder ;;
                 Ok (holding_value entity_info asset)) holders)
    as (weights & ->).
  { intros h Hin. destruct (Hh h Hin) as (He & _).
    apply key_get in He as (ei & Hei). unfold py_index. rewrite Hei.
    simpl. eauto. }
  simpl. destruct (Qle_bool (py_sum weights) 0) eqn:E.
  - destruct (mapM_total (py_index entity_positions) holders) as (points & ->).
    { intros h Hin. destruct (Hh h Hin) as (_ & Hp).
      apply key_get in Hp as (xy & Hxy). unfold py_index. rewrite Hxy. eauto. }
    simpl. unfold py_div. rewrite of_nat_nonzero.
    + simpl. eauto.
    + destruct holders; [contradiction | discriminate].
  - assert (~ py_sum weights == 0) as Hnz.
    { intros Hz. assert (py_sum weights <= 0) as Hle by lra.
      apply Qle_bool_iff in Hle. congruence. }
    rewrite !py_div_total by assumption. simpl. eauto.
Qed.

Section LayoutReturns.

Variable math_pi : Q.
Variables math_cos math_sin math_sqrt math_log10 : Q -> Q.

Local Abbreviation place_entities' :=
  (place_entities math_pi math_cos math_sin math_sqrt).
Local Abbreviation create_venn_diagram' :=
  (create_venn_diagram math_pi math_cos math_sin math_sqrt math_log10).

Lemma place_entities_total data sorted :
  (forall e, In e sorted ->
     exists ent, Dict.get (entities data) e = Some ent
                 /\ 0 <= Entity.total_value ent) ->
  exists placed, place_entities' data sorted = Ok placed.
Proof.
  intros Hs. unfold place_entities. apply foldM_total.
  intros [i e] st Hin. unfold place_entity, anchor; simpl.
  assert (In e sorted) as He.
  { apply In_enumerate in Hin. eapply nth_error_In; eauto. }
  unfold py_div. rewrite of_nat_nonzero.
  - simpl. destruct (Hs e He) as (ent & Hent & Hpos).
    unfold py_index. rewrite Hent. simpl.
    unfold py_sqrt. apply Qle_bool_iff in Hpos. rewrite Hpos. simpl. eauto.
  - destruct sorted; [destruct He | discriminate].
Qed.

Lemma py_log10_total tv :
  exists lg, py_log10 math_log10 (py_max 1 tv) = Ok lg.
Proof.
  unfold py_log10, py_max.
  destruct (Qle_bool tv 1) eqn:E.
  - simpl. eauto.
  - destruct (Qle_bool tv 0) eqn:E0; [|eauto].
    apply Qle_bool_iff in E0.
    assert (tv <= 1) as Hle by lra. apply Qle_bool_iff in Hle. congruence.
Qed.

(** X11: the layout engine returns a scene when no selected entity has a
    negative total, the totals of the selected entities do not add up to
    0, and no selected asset has total value 0. *)
Lemma create_venn_diagram_returns data :
  NoDup (Dict.keys (entities data)) ->
  (forall e ent, Dict.get (entities data) e = Some ent ->
                 0 <= Entity.total_value ent) ->
  ~ sum_entity_values data == 0 ->
  (forall a asset_info, Dict.get (assets data) a = Some asset_info ->
                        ~ Asset.total_value asset_info == 0) ->
  exists scene, create_venn_diagram' data = Ok scene.
Proof.
  intros Hnd Hpos Hsum Hassets. unfold create_venn_diagram.
  pose proof (entity_values_eq data Hnd) as Hev.
  assert (sorted_entities data
          = Ok (map fst (sorted_desc snd (entity_values data)))) as Hsorted.
  { unfold sorted_entities. rewrite Hev. reflexivity. }
  rewrite Hsorted. simpl.
  set (sorted := map fst (sorted_desc snd (entity_values data))) in *.
  assert (forall e, In e sorted -> In e (Dict.keys (entities data))) as Hin_sorted.
  { intros e He. unfold sorted in He.
    eapply Permutation_in in He;
      [|apply Permutation_map; apply sorted_desc_perm].
    unfold entity_values in He. rewrite map_map in He. exact He. }
  destruct (place_entities_total data sorted) as (placed & Hplaced).
  { intros e He. apply Hin_sorted, key_get in He as (ent & Hent). eauto. }
  rewrite Hplaced. simpl.
  pose proof (sorted_entities_nodup _ _ Hnd Hsorted) as Hnds.
  assert (forall e, In e sorted -> In e (Dict.keys (fst placed))) as Hpositions.
  { intros e He. apply In_nth_error in He as (i & Hi).
    apply place_entities_ok in Hplaced as (_ & HP).
    destruct (HP i e) as (xy & _ & Hget).
    - now apply In_enumerate.
    - intros j Hj. apply In_enumerate in Hj. symmetry.
      apply (proj1 (NoDup_nth_error sorted) Hnds); [|congruence].
      apply nth_error_Some. congruence.
    - eapply get_Some_key; eauto. }
  destruct (foldM_total (layout_asset math_log10 data sorted (fst placed))
              (Dict.keys (assets data))) with (s := @nil (string * AssetLayout))
    as (layouts & Hlayouts).
  { intros a acc Ha. unfold layout_asset.
    apply key_get in Ha as (asset_info & Hai).
    unfold py_index at 1. rewrite Hai. simpl.
    destruct (holders_of sorted asset_info) as [|h holders] eqn:Eh; [eauto|].
    destruct (centroid_total data (fst placed) a (h :: holders))
      as (xy & ->); [discriminate| |].
    { intros h' Hh'. rewrite <- Eh in Hh'. apply holders_of_sorted in Hh'. auto. }
    simpl. destruct (py_log10_total (Asset.total_value asset_info)) as (lg & ->).
    simpl. unfold market_share. rewrite (market_totals_eq data Hnd). simpl.
    rewrite py_div_total by exact Hsum. simpl. eauto. }
  rewrite Hlayouts. simpl.
  destruct (foldM_total (draw_asset data layouts)
              (sorted_desc (layout_size layouts) (Dict.keys (assets data))))
    with (s := @nil Bubble) as (drawn & ->).
  { intros a acc Ha. unfold draw_asset.
    destruct (Dict.get layouts a) as [l|] eqn:El; [|eauto].
    assert (laid_out data sorted (fst placed) a l) as Hlo.
    { eapply layout_assets_laid_out; [|exact Hlayouts|exact El].
      intros a' l' Hnone. discriminate Hnone. }
    destruct Hlo as (asset_info & Hai & Hholders & _).
    unfold py_index at 1. rewrite Hai. simpl.
    destruct (foldM_total (breakdown_entry data a asset_info) (asset_holders l))
      with (s := @nil (string * Q * Q)) as (breakdown & ->).
    { intros h acc' Hh. unfold breakdown_entry.
      rewrite Hholders in Hh. apply holders_of_sorted, Hin_sorted in Hh.
      apply key_get in Hh as (ent & Hent).
      unfold py_index. rewrite Hent. simpl.
      destruct (Dict.get (Entity.assets ent) a); [|eauto].
      rewrite py_div_total by (eapply Hassets; eauto). simpl. eauto. }
    simpl. eauto. }
  simpl. eauto.
Qed.

End LayoutReturns.

(** * Further properties *)

(** ** The aggregator: what an asset node gathers *)

Lemma py_sum_app l1 l2 : py_sum (l1 ++ l2) == py_sum l1 + py_sum l2.
Proof.
  induction l1 as [|x l1 IH]; simpl.
  - unfold py_sum at 2; simpl. lra.
  - rewrite !py_sum_cons, IH. lra.
Qed.

Lemma records_of_app p1 p2 s :
  records_of (p1 ++ p2) s = records_of p1 s ++ records_of p2 s.
Proof. unfold records_of. apply filter_app. Qed.

Lemma records_of_one r s :
  records_of [r] s = if String.eqb (record_symbol r) s then [r] else [].
Proof. unfold records_of. simpl. now destruct (String.eqb (record_symbol r) s). Qed.

Lemma process_asset_gathers p entity_name st asset_symbol asset_info st' :
  gathers p st ->
  process_asset entity_name st (asset_symbol, asset_info) = Ok st' ->
  gathers (p ++ [(entity_name, (asset_symbol, asset_info))]) st'.
Proof.
  intros HG H s. specialize (HG s). apply process_asset_ok in H
    as (q & v & ent & a0 & Hq & Hv & _ & _ & Hget & Hcases).
  set (r := (entity_name, (asset_symbol, asset_info))).
  assert (record_quantity r = q) as Hrq.
  { unfold record_quantity, r. simpl. now rewrite Hq. }
  assert (record_value r = v) as Hrv.
  { unfold record_value, r. simpl. now rewrite Hv. }
  rewrite records_of_app, records_of_one.
  change (record_symbol r) with asset_symbol.
  destruct (string_dec asset_symbol s) as [->|Hne].
  - rewrite Hget, String.eqb_refl. simpl.
    rewrite !map_app, !py_sum_app. simpl. rewrite Hrq, Hrv.
    unfold py_sum at 2 4; simpl.
    destruct Hcases as [(Hold & _)|(Hold & _ & Hnew & _)]; rewrite Hold in HG.
    + destruct HG as (He & Hqs & Hvs & _).
      rewrite He. repeat split; try lra.
      intros Habs. apply app_eq_nil in Habs as (_ & Habs). discriminate.
    + rewrite HG, Hnew. simpl. unfold py_sum; simpl.
      repeat split; try lra. discriminate.
  - assert (Dict.get (assets st') s = Dict.get (assets st) s) as ->.
    { destruct Hcases as [(_ & ->)|(_ & _ & _ & ->)];
        now apply get_setitem_neq. }
    apply String.eqb_neq in Hne. rewrite Hne.
    now rewrite !app_nil_r.
Qed.

Lemma inner_loop_gathers entity_name items :
  forall p st st',
    gathers p st ->
    foldM (process_asset entity_name) items st = Ok st' ->
    gathers (p ++ map (fun kv => (entity_name, kv)) items) st'.
Proof.
  induction items as [|[s info] items IH]; intros p st st' HG H; simpl in H.
  - inversion H; subst. simpl. now rewrite app_nil_r.
  - apply bind_ok in H as (st1 & H1 & H).
    eapply process_asset_gathers in H1; [|exact HG].
    eapply IH in H; [|exact H1].
    simpl. now rewrite <- app_assoc in H.
Qed.

Lemma fold_entities_gathers raw_data :
  forall p st st',
    gathers p st ->
    foldM process_entity raw_data st = Ok st' ->
    gathers (p ++ raw_records raw_data) st'.
Proof.
  induction raw_data as [|[e d] raw IH]; intros p st st' HG H; simpl in H.
  - inversion H; subst. simpl. now rewrite app_nil_r.
  - apply bind_ok in H as (st1 & H1 & H).
    apply process_entity_ok in H1 as (items & total & Hget & _ & H1).
    eapply inner_loop_gathers in H1; [|exact HG].
    eapply IH in H; [|exact H1].
    unfold raw_records in *. simpl.
    rewrite (entity_records_ok _ _ _ Hget). now rewrite <- app_assoc in H.
Qed.

Lemma aggregate_gathers raw_data idx :
  process_market_maker_data raw_data = Ok idx ->
  gathers (raw_records raw_data) idx.
Proof.
  intros H. unfold process_market_maker_data in H.
  apply bind_ok in H as (st & Hst & H). inversion H; subst idx; clear H.
  unfold fold_entities in Hst.
  assert (NoDup (Dict.keys (assets st))) as Hna.
  { eapply fold_entities_assets_nodup; eauto. simpl. constructor. }
  intros s. rewrite sort_assets_get by assumption.
  eapply (fold_entities_gathers raw_data []) in Hst; [apply Hst|].
  intros s'. reflexivity.
Qed.

(** X1: the holder list of an asset of a returned index is, in visiting
    order, the entities whose records have its symbol (there is at least
    one); its total quantity and total value are the sums of the
    [quantity] and [value_usd] of those records. *)
Theorem asset_node_gathers_records (raw_data : dict value) (idx : Index)
    (asset_symbol : string) (a : Asset.t) :
  process_market_maker_data raw_data = Ok idx ->
  Dict.get (assets idx) asset_symbol = Some a ->
  Asset.entities a = map fst (records_of (raw_records raw_data) asset_symbol)
  /\ Asset.entities a <> []
  /\ Asset.total_quantity a
     == py_sum (map record_quantity
                  (records_of (raw_records raw_data) asset_symbol))
  /\ Asset.total_value a
     == py_sum (map record_value
                  (records_of (raw_records raw_data) asset_symbol)).
Proof.
  intros H Ha. apply aggregate_gathers in H. specialize (H asset_symbol).
  rewrite Ha in H. destruct H as (He & Hq & Hv & Hne).
  repeat split; auto.
  rewrite He. intros Habs. apply map_eq_nil in Habs. contradiction.
Qed.

Lemma asset_node_gathers_records_witness :
  ["A"; "B"] = map fst (records_of (raw_records raw_ex) "X")
  /\ ["A"; "B"] <> []
  /\ 0 == py_sum (map record_quantity (records_of (raw_records raw_ex) "X"))
  /\ 400 == py_sum (map record_value (records_of (raw_records raw_ex) "X")).
Proof.
  exact (asset_node_gathers_records raw_ex idx_ex "X"
           (Asset.mk (VStr "X") ["A"; "B"] 0 400) eq_refl eq_refl).
Defined.

(** X2: the assets of a returned index are the symbols of the records of
    the input, each once. *)
Theorem asset_keys_are_symbols (raw_data : dict value) (idx : Index) :
  process_market_maker_data raw_data = Ok idx ->
  NoDup (Dict.keys (assets idx))
  /\ forall s,
       In s (Dict.keys (assets idx))
       <-> In s (map record_symbol (raw_records raw_data)).
Proof.
  intros H. split.
  - unfold process_market_maker_data in H.
    apply bind_ok in H as (st & Hst & H). inversion H; subst idx; clear H.
    assert (NoDup (Dict.keys (assets st))) as Hna.
    { eapply fold_entities_assets_nodup; eauto. simpl. constructor. }
    rewrite sort_assets_perm by assumption.
    eapply Permutation_NoDup; [|exact Hna].
    apply Permutation_map. symmetry. apply sorted_desc_perm.
  - intros s. apply aggregate_gathers in H. specialize (H s). split.
    + intros Hin. apply key_get in Hin as (a & Ha). rewrite Ha in H.
      destruct H as (_ & _ & _ & Hne).
      destruct (records_of (raw_records raw_data) s) as [|r rs] eqn:E;
        [contradiction|].
      assert (In r (records_of (raw_records raw_data) s)) as Hr
          by (rewrite E; now left).
      apply filter_In in Hr as (Hr & Hs). apply String.eqb_eq in Hs.
      rewrite <- Hs. now apply in_map.
    + intros Hin. apply in_map_iff in Hin as (r & Hs & Hr).
      destruct (Dict.get (assets idx) s) as [a|] eqn:Ea.
      * eapply get_Some_key; eauto.
      * assert (In r (records_of (raw_records raw_data) s)) as Hin.
        { apply filter_In. split; [assumption|]. now apply String.eqb_eq. }
        rewrite H in Hin. destruct Hin.
Qed.

Lemma asset_keys_are_symbols_witness :
  NoDup (Dict.keys (assets idx_ex))
  /\ forall s,
       In s (Dict.keys (assets idx_ex))
       <-> In s (map record_symbol (raw_records raw_ex)).
Proof. exact (asset_keys_are_symbols raw_ex idx_ex eq_refl). Defined.

(** ** The aggregator: the entity nodes *)

Lemma sum_value_usd_fold infos :
  forall acc t,
    sum_value_usd infos acc = Ok t ->
    t = fold_left Qplus
          (map (fun info => record_value ("", ("", info))) infos) acc.
Proof.
  induction infos as [|info infos IH]; intros acc t H.
  - simpl in H. inversion H; reflexivity.
  - apply sum_value_usd_cons in H as (v & Hv & H). apply IH in H.
    simpl. unfold record_value at 2; simpl. now rewrite Hv.
Qed.

Lemma entity_total_records entity_name entity_data items total :
  py_get entity_data "assets" (VDict []) = Ok (VDict items) ->
  sum_value_usd (map snd items) 0 = Ok total ->
  total = py_sum (map record_value (entity_records (entity_name, entity_data))).
Proof.
  intros Hget H. apply sum_value_usd_fold in H.
  rewrite (entity_records_ok _ _ _ Hget). rewrite H. unfold py_sum.
  f_equal. rewrite !map_map. apply map_ext. intros [s info]. reflexivity.
Qed.

(** The inner loop fills the holdings of its entity, one [d[k] = v] per
    record, and touches no other entity. *)
Lemma inner_loop_entity entity_name items :
  forall st st' ent,
    foldM (process_asset entity_name) items st = Ok st' ->
    Dict.get (entities st) entity_name = Some ent ->
    Dict.get (entities st') entity_name
    = Some (Entity.mk (Entity.total_value ent)
              (fold_left (fun d kv => Dict.setitem d (fst kv) (snd kv))
                 (map holding_of items) (Entity.assets ent)))
    /\ forall e, e <> entity_name ->
                 Dict.get (entities st') e = Dict.get (entities st) e.
Proof.
  induction items as [|[s info] items IH]; intros st st' ent H Hent; simpl in H.
  - inversion H; subst. simpl. destruct ent; auto.
  - apply bind_ok in H as (st1 & H1 & H).
    apply process_asset_ok in H1
      as (q & v & ent0 & a0 & Hq & Hv & Hent0 & Hents & _ & _).
    rewrite Hent in Hent0. inversion Hent0; subst ent0; clear Hent0.
    assert (Dict.get (entities st1) entity_name
            = Some (Entity.mk (Entity.total_value ent)
                      (Dict.setitem (Entity.assets ent) s (mkHolding q v))))
      as Hent1 by (rewrite Hents; apply get_setitem_eq).
    destruct (IH _ _ _ H Hent1) as (Hfinal & Hother). split.
    + rewrite Hfinal. simpl.
      unfold record_quantity, record_value. simpl. now rewrite Hq, Hv.
    + intros e He. rewrite (Hother e He), Hents.
      apply get_setitem_neq. congruence.
Qed.

Lemma process_entity_node st entity_name entity_data st' :
  process_entity st (entity_name, entity_data) = Ok st' ->
  exists items,
    py_get entity_data "assets" (VDict []) = Ok (VDict items)
    /\ Dict.get (entities st') entity_name
       = Some (Entity.mk
                 (py_sum (map record_value
                            (entity_records (entity_name, entity_data))))
                 (Dict.of_list (map holding_of items)))
    /\ forall e, e <> entity_name ->
                 Dict.get (entities st') e = Dict.get (entities st) e.
Proof.
  intros H. apply process_entity_ok in H as (items & total & Hget & Hsum & H).
  exists items. split; [assumption|].
  eapply inner_loop_entity in H; [|simpl; apply get_setitem_eq].
  destruct H as (Hnode & Hother). simpl in Hnode, Hother. split.
  - rewrite Hnode.
    rewrite (entity_total_records entity_name _ _ _ Hget Hsum). reflexivity.
  - intros e He. rewrite (Hother e He). apply get_setitem_neq. congruence.
Qed.

Lemma fold_entities_untouched raw_data :
  forall st st' e,
    foldM process_entity raw_data st = Ok st' ->
    ~ In e (Dict.keys raw_data) ->
    Dict.get (entities st') e = Dict.get (entities st) e.
Proof.
  induction raw_data as [|[e0 d0] raw IH]; intros st st' e H Hnot; simpl in H.
  - inversion H; reflexivity.
  - apply bind_ok in H as (st1 & H1 & H). simpl in Hnot.
    rewrite (IH _ _ _ H) by tauto.
    apply process_entity_node in H1 as (_ & _ & _ & Hother).
    apply Hother. intros ->. tauto.
Qed.

Lemma fold_entities_node raw_data :
  forall st st' e d,
    NoDup (Dict.keys raw_data) ->
    foldM process_entity raw_data st = Ok st' ->
    In (e, d) raw_data ->
    exists items,
      py_get d "assets" (VDict []) = Ok (VDict items)
      /\ Dict.get (entities st') e
         = Some (Entity.mk (py_sum (map record_value (entity_records (e, d))))
                   (Dict.of_list (map holding_of items))).
Proof.
  induction raw_data as [|[e0 d0] raw IH]; intros st st' e d Hnd H Hin;
    simpl in H; [destruct Hin|].
  apply bind_ok in H as (st1 & H1 & H). inversion Hnd; subst.
  destruct Hin as [Heq|Hin].
  - inversion Heq; subst e0 d0; clear Heq.
    apply process_entity_node in H1 as (items & Hget & Hnode & _).
    exists items. split; [assumption|].
    now rewrite (fold_entities_untouched _ _ _ _ H).
  - eapply IH; eauto.
Qed.

Lemma fold_entities_order raw_data :
  forall st st',
    NoDup (Dict.keys (entities st) ++ Dict.keys raw_data) ->
    foldM process_entity raw_data st = Ok st' ->
    Dict.keys (entities st') = Dict.keys (entities st) ++ Dict.keys raw_data.
Proof.
  induction raw_data as [|[e0 d0] raw IH]; intros st st' Hnd H; simpl in H.
  - inversion H; subst. simpl. now rewrite app_nil_r.
  - apply bind_ok in H as (st1 & H1 & H).
    apply process_entity_entity_keys in H1.
    assert (~ In e0 (Dict.keys (entities st))) as Hfresh.
    { simpl in Hnd. apply NoDup_remove_2 in Hnd.
      intros Hin. apply Hnd. apply in_app_iff. auto. }
    rewrite keys_setitem in H1.
    assert (Dict.contains (entities st) e0 = false) as Hc.
    { destruct (Dict.contains (entities st) e0) eqn:E; [|reflexivity].
      apply contains_true in E. contradiction. }
    rewrite Hc in H1.
    rewrite (IH st1 st'); [| |exact H].
    + rewrite H1, <- app_assoc. reflexivity.
    + rewrite H1, <- app_assoc. exact Hnd.
Qed.

(** X3: for an input with distinct entity names, the entities of a
    returned index are the entities of the input, in the same order
    (also those without assets). *)
Theorem entities_in_input_order (raw_data : dict value) (idx : Index) :
  NoDup (Dict.keys raw_data) ->
  process_market_maker_data raw_data = Ok idx ->
  Dict.keys (entities idx) = Dict.keys raw_data.
Proof.
  intros Hnd H. unfold process_market_maker_data in H.
  apply bind_ok in H as (st & Hst & H). inversion H; subst idx; clear H.
  simpl. unfold fold_entities in Hst.
  apply fold_entities_order in Hst; [exact Hst | exact Hnd].
Qed.

Lemma entities_in_input_order_witness :
  Dict.keys (entities idx_ex) = Dict.keys raw_ex.
Proof.
  apply (entities_in_input_order raw_ex idx_ex).
  - repeat constructor; simpl; intuition discriminate.
  - reflexivity.
Defined.

(** X4: for an input with distinct entity names, the node of an entity in
    a returned index has as total value the sum of the [value_usd] of its
    own records, and as holdings one entry per record, holding the
    [quantity] and [value_usd] read from it. *)
Theorem entity_node_of_record (raw_data : dict value) (idx : Index)
    (entity : string) (entity_data : value) :
  NoDup (Dict.keys raw_data) ->
  process_market_maker_data raw_data = Ok idx ->
  In (entity, entity_data) raw_data ->
  exists items,
    py_get entity_data "assets" (VDict []) = Ok (VDict items)
    /\ Dict.get (entities idx) entity
       = Some (Entity.mk
                 (py_sum (map record_value
                            (entity_records (entity, entity_data))))
                 (Dict.of_list (map holding_of items))).
Proof.
  intros Hnd H Hin. unfold process_market_maker_data in H.
  apply bind_ok in H as (st & Hst & H). inversion H; subst idx; clear H.
  simpl. unfold fold_entities in Hst.
  eapply fold_entities_node; eauto.
Qed.

Lemma entity_node_of_record_witness :
  exists items,
    py_get (VDict [("assets", VDict [("X", VDict [("value_usd", VNum 300)]);
                                      ("Y", VDict [("value_usd", VNum 50)])])])
      "assets" (VDict []) = Ok (VDict items)
    /\ Dict.get (entities idx_ex) "B"
       = Some (Entity.mk
                 (py_sum (map record_value
                            (entity_records
                               ("B",
                                VDict [("assets",
                                  VDict [("X", VDict [("value_usd", VNum 300)]);
                                         ("Y", VDict [("value_usd", VNum 50)])])]))))
                 (Dict.of_list (map holding_of items))).
Proof.
  apply (entity_node_of_record raw_ex idx_ex "B").
  - repeat constructor; simpl; intuition discriminate.
  - reflexivity.
  - simpl. auto.
Defined.

(** *** Conservation of value *)

Lemma record_value_usd r : record_value r = value_usd_of r.
Proof.
  unfold record_value, value_usd_of, get_num, py_get.
  destruct (snd (snd r)) as [|x|x|x|d]; simpl; try reflexivity.
  destruct (Dict.get d "value_usd") as [[|x|x|x|d']|]; reflexivity.
Qed.

Lemma records_of_skip r recs ks :
  ~ In (record_symbol r) ks ->
  flat_map (records_of (r :: recs)) ks = flat_map (records_of recs) ks.
Proof.
  induction ks as [|k ks IH]; simpl; intros Hk; [reflexivity|].
  destruct (String.eqb (record_symbol r) k) eqn:E.
  - apply String.eqb_eq in E. exfalso. apply Hk. left. now symmetry.
  - rewrite IH; [reflexivity|]. intros Hin. apply Hk. now right.
Qed.

Lemma records_of_insert r recs ks :
  NoDup ks -> In (record_symbol r) ks ->
  Permutation (flat_map (records_of (r :: recs)) ks)
    (r :: flat_map (records_of recs) ks).
Proof.
  induction 1 as [|k ks Hk Hnd IH]; simpl; intros Hin; [destruct Hin|].
  destruct (String.eqb (record_symbol r) k) eqn:E.
  - apply String.eqb_eq in E. rewrite records_of_skip by congruence.
    reflexivity.
  - apply String.eqb_neq in E. destruct Hin as [Heq|Hin]; [congruence|].
    rewrite (IH Hin). symmetry. apply Permutation_middle.
Qed.

Lemma records_regrouped recs ks :
  NoDup ks ->
  (forall r, In r recs -> In (record_symbol r) ks) ->
  Permutation (flat_map (records_of recs) ks) recs.
Proof.
  intros Hnd. induction recs as [|r recs IH]; intros Hin.
  - induction ks as [|k ks IHk]; simpl; [constructor|].
    inversion Hnd; subst. now apply IHk.
  - rewrite records_of_insert; [|assumption|apply Hin; now left].
    constructor. apply IH. intros r' Hr'. apply Hin. now right.
Qed.

(** C6, as the code has it: every [value_usd] of the input is counted once
    in one entity total and once in one asset total.  The total of an
    entity is the sum of the values of its own records, the total of an
    asset is the sum of the values of the records of its symbol, each
    added in visiting order, and the records grouped by asset are a
    rearrangement of the records grouped by entity. *)
Theorem conservation_regrouping (raw_data : dict value) (idx : Index) :
  NoDup (Dict.keys raw_data) ->
  process_market_maker_data raw_data = Ok idx ->
  Dict.keys (entities idx) = Dict.keys raw_data
  /\ (forall entity entity_data,
        In (entity, entity_data) raw_data ->
        exists ent,
          Dict.get (entities idx) entity = Some ent
          /\ Entity.total_value ent
             == py_sum (map value_usd_of
                          (entity_records (entity, entity_data))))
  /\ NoDup (Dict.keys (assets idx))
  /\ (forall asset a,
        Dict.get (assets idx) asset = Some a ->
        Asset.total_value a
        == py_sum (map value_usd_of
                     (records_of (raw_records raw_data) asset)))
  /\ Permutation
       (flat_map (records_of (raw_records raw_data)) (Dict.keys (assets idx)))
       (flat_map entity_records raw_data).
Proof.
  intros Hnd H.
  pose proof (aggregate_gathers _ _ H) as Hg.
  unfold process_market_maker_data in H.
  apply bind_ok in H as (st & Hst & H). inversion H; subst idx; clear H.
  unfold fold_entities in Hst.
  assert (NoDup (Dict.keys (assets st))) as Hna.
  { eapply fold_entities_assets_nodup; eauto. simpl. constructor. }
  assert (NoDup (Dict.keys (assets (sort_assets st)))) as Hns.
  { rewrite sort_assets_perm by assumption.
    eapply Permutation_NoDup; [|exact Hna].
    apply Permutation_map. symmetry. apply sorted_desc_perm. }
  split; [|split; [|split; [|split]]].
  - apply (fold_entities_order raw_data _ _) in Hst; [exact Hst|exact Hnd].
  - intros entity entity_data Hin.
    destruct (fold_entities_node raw_data _ _ entity entity_data Hnd Hst Hin)
      as (items & _ & Hget).
    eexists. split; [exact Hget|]. simpl.
    rewrite (map_ext _ _ record_value_usd). reflexivity.
  - exact Hns.
  - intros asset a Hget. specialize (Hg asset). rewrite Hget in Hg.
    destruct Hg as (_ & _ & Hv & _). rewrite Hv.
    rewrite (map_ext _ _ record_value_usd). reflexivity.
  - apply records_regrouped; [exact Hns|].
    intros r Hr. specialize (Hg (record_symbol r)).
    destruct (Dict.get (assets (sort_assets st)) (record_symbol r)) eqn:E.
    + eapply get_Some_key; eauto.
    + exfalso. unfold records_of in Hg.
      assert (In r (filter (fun r0 => String.eqb (record_symbol r0)
                                        (record_symbol r))
                      (raw_records raw_data))) as Hf.
      { apply filter_In. split; [exact Hr|]. apply String.eqb_refl. }
      rewrite Hg in Hf. destruct Hf.
Qed.

Lemma conservation_regrouping_witness :
  Dict.keys (entities idx_ex) = ["A"; "B"]
  /\ (forall entity entity_data,
        In (entity, entity_data) raw_ex ->
        exists ent,
          Dict.get (entities idx_ex) entity = Some ent
          /\ Entity.total_value ent
             == py_sum (map value_usd_of
                          (entity_records (entity, entity_data))))
  /\ NoDup (Dict.keys (assets idx_ex))
  /\ (forall asset a,
        Dict.get (assets idx_ex) asset = Some a ->
        Asset.total_value a
        == py_sum (map value_usd_of (records_of (raw_records raw_ex) asset)))
  /\ Permutation
       (flat_map (records_of (raw_records raw_ex)) ["X"; "Y"])
       (flat_map entity_records raw_ex).
Proof.
  apply (conservation_regrouping raw_ex idx_ex).
  - repeat constructor; simpl; intuition discriminate.
  - reflexivity.
Defined.

(** C6 as stated fails on floats: when [A] holds [X] for 0.1 and [Y] for
    0.2 and [B] holds [X] for 0.4, the entity totals are [0.1 + 0.2], which
    rounds to 0.30000000000000004, and 0.4, and add up to
    0.7000000000000001; the asset totals are [0.1 + 0.4 = 0.5] and 0.2, and
    add up to 0.7. *)
Lemma float_sums_differ :
  exists idx,
    Doubles.process_market_maker_data Doubles.raw_tenths = Ok idx
    /\ map (fun e => Doubles.Entity.total_value (snd e)) (Doubles.entities idx)
       = [0.30000000000000004%float; 0.4%float]
    /\ map (fun a => Doubles.Asset.total_value (snd a)) (Doubles.assets idx)
       = [0.5%float; 0.2%float]
    /\ Doubles.sum_entity_values idx = 0.7000000000000001%float
    /\ Doubles.sum_asset_values idx = 0.7%float
    /\ PrimFloat.eqb (Doubles.sum_asset_values idx)
         (Doubles.sum_entity_values idx) = false.
Proof.
  eexists. split; [vm_compute; reflexivity|].
  repeat split; vm_compute; reflexivity.
Qed.

(** ** The layout engine: edge cases *)

Lemma mapM_ok_length {X Y : Type} (f : X -> result Y) (l : list X) (ys : list Y) :
  mapM f l = Ok ys -> length ys = length l.
Proof.
  revert ys; induction l as [|x l IH]; intros ys H; simpl in H.
  - inversion H; reflexivity.
  - apply bind_ok in H as (y & Hy & H). apply bind_ok in H as (ys' & Hys & H).
    inversion H; subst; simpl. f_equal; auto.
Qed.

(** A loop all of whose steps return or raise [e], and one of whose steps
    raises [e] whatever the state, raises [e]. *)
Lemma foldM_raises {S X : Type} (f : S -> X -> result S) (e : exn) (l : list X) :
  (forall x s, In x l -> (exists s', f s x = Ok s') \/ f s x = Raise e) ->
  (exists x, In x l /\ forall s, f s x = Raise e) ->
  forall s, foldM f l s = Raise e.
Proof.
  induction l as [|x l IH]; intros Hstep (x0 & Hin & Hx0) s; [destruct Hin|].
  simpl. destruct Hin as [->|Hin].
  - now rewrite Hx0.
  - destruct (Hstep x s (or_introl eq_refl)) as [(s' & Hs) | Hs]; rewrite Hs; [|reflexivity].
    simpl. apply IH; [|eauto].
    intros y s0 Hy. apply Hstep. now right.
Qed.

Lemma sorted_entities_returns data :
  NoDup (Dict.keys (entities data)) ->
  sorted_entities data = Ok (map fst (sorted_desc snd (entity_values data))).
Proof.
  intros Hnd. unfold sorted_entities.
  now rewrite (entity_values_eq data Hnd).
Qed.

Lemma sorted_entities_keys data e :
  In e (map fst (sorted_desc snd (entity_values data)))
  <-> In e (Dict.keys (entities data)).
Proof.
  assert (Permutation (map fst (sorted_desc snd (entity_values data)))
            (Dict.keys (entities data))) as Hp.
  { unfold Dict.keys.
    replace (map fst (entities data)) with (map fst (entity_values data))
      by (unfold entity_values; rewrite map_map; reflexivity).
    apply Permutation_map, sorted_desc_perm. }
  split; intros H.
  - eapply Permutation_in; eauto.
  - eapply Permutation_in; [symmetry|]; eauto.
Qed.

Section LayoutEdges.

Variable math_pi : Q.
Variables math_cos math_sin math_sqrt math_log10 : Q -> Q.

Local Abbreviation place_entity' :=
  (place_entity math_pi math_cos math_sin math_sqrt).
Local Abbreviation place_entities' :=
  (place_entities math_pi math_cos math_sin math_sqrt).
Local Abbreviation create_venn_diagram' :=
  (create_venn_diagram math_pi math_cos math_sin math_sqrt math_log10).
Local Abbreviation layout' :=
  (layout math_pi math_cos math_sin math_sqrt math_log10).

(** One step of the entity loop: it returns when the total of the entity
    is not negative and raises [ValueError] when it is. *)
Lemma place_entity_outcome data sorted st i e ent :
  In (i, e) (enumerate sorted) ->
  Dict.get (entities data) e = Some ent ->
  (0 <= Entity.total_value ent ->
   exists st', place_entity' data (length sorted) st (i, e) = Ok st')
  /\ (Entity.total_value ent < 0 ->
      place_entity' data (length sorted) st (i, e) = Raise ValueError).
Proof.
  intros Hin Hent. unfold place_entity, anchor, py_div; simpl.
  rewrite of_nat_nonzero.
  2:{ apply In_enumerate in Hin. destruct sorted; [destruct i|]; discriminate. }
  simpl. unfold py_index. rewrite Hent. simpl. unfold py_sqrt. split.
  - intros Hpos. apply Qle_bool_iff in Hpos. rewrite Hpos. simpl. eauto.
  - intros Hneg. destruct (Qle_bool 0 (Entity.total_value ent)) eqn:E;
      [|reflexivity].
    apply Qle_bool_iff in E. lra.
Qed.

(** X5: when a selected entity has a negative total value, the layout
    engine raises [ValueError] (the square root of line 860). *)
Theorem negative_total_raises (data : Index) (entity : string) (ent : Entity.t) :
  NoDup (Dict.keys (entities data)) ->
  Dict.get (entities data) entity = Some ent ->
  Entity.total_value ent < 0 ->
  create_venn_diagram' data = Raise ValueError.
Proof.
  intros Hnd Hent Hneg. unfold create_venn_diagram.
  rewrite (sorted_entities_returns data Hnd). simpl.
  set (sorted := map fst (sorted_desc snd (entity_values data))).
  assert (place_entities' data sorted = Raise ValueError) as Hp;
    [|now rewrite Hp].
  unfold place_entities. apply foldM_raises.
  - intros [i e] st Hin.
    assert (In e (Dict.keys (entities data))) as He.
    { apply sorted_entities_keys. apply In_enumerate in Hin.
      eapply nth_error_In; eauto. }
    apply key_get in He as (ent' & Hent').
    destruct (place_entity_outcome data sorted st i e ent' Hin Hent')
      as (Hok & Hraise).
    destruct (Qlt_le_dec (Entity.total_value ent') 0); auto.
  - assert (In entity sorted) as Hin.
    { apply sorted_entities_keys. eapply get_Some_key; eauto. }
    apply In_nth_error in Hin as (i & Hi).
    exists (i, entity). split; [now apply In_enumerate|].
    intros st.
    apply (place_entity_outcome data sorted st i entity ent); auto.
    now apply In_enumerate.
Qed.

(** X6: with no entity to draw the layout engine returns the empty
    scene, whatever the assets are. *)
Theorem no_entity_empty_scene (data : Index) :
  entities data = [] ->
  create_venn_diagram' data = Ok (mkScene [] [] []).
Proof.
  intros He. unfold create_venn_diagram, sorted_entities. rewrite He. simpl.
  assert (forall names acc,
             (forall a, In a names -> In a (Dict.keys (assets data))) ->
             foldM (layout_asset math_log10 data [] []) names acc = Ok acc)
    as Hlayouts.
  { induction names as [|a names IH]; intros acc Hin; simpl; [reflexivity|].
    unfold layout_asset at 1.
    destruct (key_get _ _ (Hin a (or_introl eq_refl))) as (ai & Hai).
    unfold py_index. rewrite Hai. simpl.
    apply IH. intros b Hb. apply Hin. now right. }
  rewrite Hlayouts by auto. simpl.
  assert (forall names acc, foldM (draw_asset data []) names acc = Ok acc)
    as Hdraw.
  { induction names as [|a names IH]; intros acc; simpl; auto. }
  now rewrite Hdraw.
Qed.

End LayoutEdges.

Lemma no_entity_empty_scene_witness :
  create_venn_diagram coarse_pi coarse_cos coarse_sin coarse_sqrt coarse_log10
    (mkIndex [] (assets idx_ex))
  = Ok (mkScene [] [] []).
Proof.
  exact (no_entity_empty_scene
           coarse_pi coarse_cos coarse_sin coarse_sqrt coarse_log10
           (mkIndex [] (assets idx_ex)) eq_refl).
Defined.

Lemma negative_total_raises_witness :
  create_venn_diagram coarse_pi coarse_cos coarse_sin coarse_sqrt coarse_log10
    (mkIndex [("A", Entity.mk (-5) [("X", mkHolding (-2) (-5))])]
             [("X", Asset.mk (VStr "X") ["A"] (-2) (-5))])
  = Raise ValueError.
Proof.
  apply (negative_total_raises
           coarse_pi coarse_cos coarse_sin coarse_sqrt coarse_log10
           _ "A" (Entity.mk (-5) [("X", mkHolding (-2) (-5))])).
  - repeat constructor. simpl. tauto.
  - reflexivity.
  - reflexivity.
Defined.

Lemma holders_of_nonempty sorted asset_info e :
  In e sorted -> In e (Asset.entities asset_info) ->
  holders_of sorted asset_info <> [].
Proof.
  intros Hs He Hnil.
  assert (In e (holders_of sorted asset_info)) as Hin.
  { unfold holders_of. apply filter_In. split; [assumption|].
    now apply existsb_eqb_In. }
  rewrite Hnil in Hin. destruct Hin.
Qed.

Lemma StronglySorted_filter {X : Type} (R : X -> X -> Prop) (p : X -> bool) l :
  StronglySorted R l -> StronglySorted R (filter p l).
Proof.
  induction 1 as [|x l Hs IH Hall]; simpl; [constructor|].
  destruct (p x); [|assumption].
  constructor; [assumption|].
  rewrite Forall_forall in *. intros y Hy. apply filter_In in Hy as (Hy & _). auto.
Qed.

Lemma StronglySorted_Forall2 {X Y : Type} (R : X -> X -> Prop)
    (R' : Y -> Y -> Prop) (P : X -> Y -> Prop) l l' :
  (forall a a' b b', P a b -> P a' b' -> R a a' -> R' b b') ->
  Forall2 P l l' -> StronglySorted R l -> StronglySorted R' l'.
Proof.
  intros Htr HF. induction HF as [|a b l l' Hab HF IH]; intros Hs.
  - constructor.
  - inversion Hs as [|? ? Hs' Hall]; subst. constructor; [auto|].
    clear IH Hs Hs'. induction HF as [|a' b' l l' Hab' HF IH]; constructor.
    + inversion Hall; subst. eauto.
    + apply IH. now inversion Hall.
Qed.

Lemma draw_assets_list data layouts names :
  forall acc drawn,
    foldM (draw_asset data layouts) names acc = Ok drawn ->
    exists new,
      drawn = acc ++ new
      /\ Forall2 (bubble_of layouts)
           (filter (Dict.contains layouts) names) new.
Proof.
  induction names as [|a names IH]; intros acc drawn H; simpl in H.
  - inversion H; subst. exists []. rewrite app_nil_r. split; [auto|constructor].
  - apply bind_ok in H as (acc1 & H1 & H).
    destruct (IH _ _ H) as (new & -> & HF). clear IH H.
    unfold draw_asset in H1. simpl. unfold Dict.contains at 1.
    destruct (Dict.get layouts a) as [l|] eqn:El.
    + apply bind_ok in H1 as (ai & _ & H1).
      apply bind_ok in H1 as (breakdown & _ & H1).
      inversion H1; subst acc1; clear H1.
      eexists (_ :: new). rewrite <- app_assoc. split; [reflexivity|].
      constructor; [|assumption].
      split; [reflexivity|]. exists l. simpl. auto.
    + inversion H1; subst acc1. exists new. auto.
Qed.

Section LayoutScene.

Variable math_pi : Q.
Variables math_cos math_sin math_sqrt math_log10 : Q -> Q.

Local Abbreviation place_entity' :=
  (place_entity math_pi math_cos math_sin math_sqrt).
Local Abbreviation place_entities' :=
  (place_entities math_pi math_cos math_sin math_sqrt).
Local Abbreviation create_venn_diagram' :=
  (create_venn_diagram math_pi math_cos math_sin math_sqrt math_log10).
Local Abbreviation layout' :=
  (layout math_pi math_cos math_sin math_sqrt math_log10).

(** Every ranked entity has a recorded position. *)
Lemma place_entities_positions data sorted placed e :
  NoDup sorted ->
  place_entities' data sorted = Ok placed ->
  In e sorted -> In e (Dict.keys (fst placed)).
Proof.
  intros Hnd Hplaced He. apply In_nth_error in He as (i & Hi).
  apply place_entities_ok in Hplaced as (_ & HP).
  destruct (HP i e) as (xy & _ & Hget).
  - now apply In_enumerate.
  - intros j Hj. apply In_enumerate in Hj. symmetry.
    apply (proj1 (NoDup_nth_error sorted) Hnd); [|congruence].
    apply nth_error_Some. congruence.
  - eapply get_Some_key; eauto.
Qed.

(** X7: when no selected entity has a negative total, the totals add up
    to 0 and some asset has a selected holder, the layout engine raises
    [ZeroDivisionError] (the share of line 923). *)
Theorem zero_market_raises (data : Index) (asset entity : string)
    (asset_info : Asset.t) :
  NoDup (Dict.keys (entities data)) ->
  (forall e ent, Dict.get (entities data) e = Some ent ->
                 0 <= Entity.total_value ent) ->
  sum_entity_values data == 0 ->
  Dict.get (assets data) asset = Some asset_info ->
  In entity (Asset.entities asset_info) ->
  In entity (Dict.keys (entities data)) ->
  create_venn_diagram' data = Raise ZeroDivisionError.
Proof.
  intros Hnd Hpos Hsum Hai Hlisted Hsel. unfold create_venn_diagram.
  rewrite (sorted_entities_returns data Hnd). simpl.
  set (sorted := map fst (sorted_desc snd (entity_values data))).
  assert (NoDup sorted) as Hnds.
  { eapply sorted_entities_nodup; eauto. now apply sorted_entities_returns. }
  destruct (place_entities_total math_pi math_cos math_sin math_sqrt data sorted)
    as (placed & Hplaced).
  { intros e He. apply sorted_entities_keys, key_get in He as (ent & Hent).
    eauto. }
  rewrite Hplaced. simpl.
  assert (market_share data asset_info = Raise ZeroDivisionError
          /\ forall ai, market_share data ai = Raise ZeroDivisionError)
    as (_ & Hshare).
  { assert (forall ai, market_share data ai = Raise ZeroDivisionError) as Hs.
    { intros ai. unfold market_share.
      rewrite (market_totals_eq data Hnd). simpl. unfold py_div.
      apply Qeq_bool_iff in Hsum. unfold sum_entity_values in Hsum.
      now rewrite Hsum. }
    auto. }
  assert (forall a ai layouts,
             Dict.get (assets data) a = Some ai ->
             holders_of sorted ai <> [] ->
             layout_asset math_log10 data sorted (fst placed) layouts a
             = Raise ZeroDivisionError) as Hstep.
  { intros a ai layouts Ha Hh. unfold layout_asset, py_index. rewrite Ha. simpl.
    destruct (holders_of sorted ai) as [|h holders] eqn:Eh; [contradiction|].
    destruct (centroid_total data (fst placed) a (h :: holders))
      as (xy & Hc); [discriminate| |].
    { intros h' Hh'. rewrite <- Eh in Hh'. apply holders_of_sorted in Hh'.
      split; [now apply sorted_entities_keys|].
      eapply place_entities_positions; eauto. }
    rewrite Hc. simpl.
    destruct (py_log10_total math_log10 (Asset.total_value ai)) as (lg & Hlg).
    rewrite Hlg. simpl. now rewrite Hshare. }
  assert (foldM (layout_asset math_log10 data sorted (fst placed))
            (Dict.keys (assets data)) [] = Raise ZeroDivisionError) as Hl;
    [|now rewrite Hl].
  apply foldM_raises.
  - intros a layouts Ha. apply key_get in Ha as (ai & Ha).
    destruct (holders_of sorted ai) as [|h holders] eqn:Eh.
    + left. unfold layout_asset, py_index. rewrite Ha. simpl. rewrite Eh. eauto.
    + right. apply (Hstep a ai); [assumption|]. rewrite Eh. discriminate.
  - exists asset. split; [eapply get_Some_key; eauto|].
    intros layouts. apply (Hstep asset asset_info); [assumption|].
    apply (holders_of_nonempty sorted asset_info entity); [|assumption].
    now apply sorted_entities_keys.
Qed.

Lemma place_entity_zone_sizes data n :
  forall l st st',
    Forall (fun z => 40 <= zone_size z) (snd st) ->
    foldM (place_entity' data n) l st = Ok st' ->
    Forall (fun z => 40 <= zone_size z) (snd st').
Proof.
  intros l st st' H0 H. revert H0 H.
  apply (foldM_inv _ (fun s => Forall (fun z => 40 <= zone_size z) (snd s))).
  intros ie s s' Hs Hstep. unfold place_entity in Hstep.
  apply bind_ok in Hstep as (xy & _ & Hstep).
  apply bind_ok in Hstep as (ent & _ & Hstep).
  apply bind_ok in Hstep as (root & _ & Hstep).
  inversion Hstep; subst s'; clear Hstep. simpl.
  apply Forall_app. split; [assumption|].
  constructor; [|constructor]. simpl. unfold py_max.
  destruct (Qle_bool 40 (root * 0.00002 * 25)) eqn:E.
  - now apply Qle_bool_iff in E.
  - lra.
Qed.

(** X8: a returned scene has one zone per entity of the data, and no zone
    is smaller than 40. *)
Theorem zones_count_and_floor (data : Index) (scene : Scene) :
  create_venn_diagram' data = Ok scene ->
  length (zones scene) = length (entities data)
  /\ Forall (fun z => 40 <= zone_size z) (zones scene).
Proof.
  intros H. apply create_venn_diagram_ok in H
    as (sorted & placed & layouts & Hsorted & Hplaced & _ & _ & Hz & _).
  rewrite Hz. split.
  - rewrite <- (length_map zone_entity).
    rewrite (place_entities_zones _ _ _ _ _ _ _ Hplaced).
    unfold sorted_entities in Hsorted.
    apply bind_ok in Hsorted as (evs & Hevs & Hsorted).
    inversion Hsorted; subst sorted. rewrite length_map.
    rewrite (Permutation_length (sorted_desc_perm snd evs)).
    rewrite (mapM_ok_length _ _ _ Hevs). apply length_map.
  - unfold place_entities in Hplaced.
    eapply place_entity_zone_sizes; [|exact Hplaced]. constructor.
Qed.

(** X9: the bubbles of a returned scene come largest first (the draw
    order of line 944, smaller bubbles on top). *)
Theorem bubbles_largest_first (data : Index) (scene : Scene) :
  create_venn_diagram' data = Ok scene ->
  StronglySorted (fun b1 b2 => bubble_size b2 <= bubble_size b1)
    (bubbles scene).
Proof.
  intros H. apply create_venn_diagram_ok in H
    as (sorted & placed & layouts & _ & _ & _ & Hdrawn & _ & _).
  apply draw_assets_list in Hdrawn as (new & -> & HF). simpl.
  eapply (StronglySorted_Forall2 (ge_key (layout_size layouts)));
    [|exact HF|].
  - intros a a' b b' (_ & l & Hl & Hs & _) (_ & l' & Hl' & Hs' & _) Hge.
    unfold ge_key, layout_size in Hge. rewrite Hl, Hl' in Hge.
    rewrite Hs, Hs'. lra.
  - apply StronglySorted_filter, sorted_desc_sorted.
Qed.


End LayoutScene.

Ltac each_entry H :=
  simpl in H;
  repeat match type of H with
         | (if ?c then _ else _) = _ =>
             destruct c; [inversion H; subst|]
         end;
  try discriminate H.

Lemma scene_ex_create :
  create_venn_diagram coarse_pi coarse_cos coarse_sin coarse_sqrt coarse_log10
    idx_ex = Ok scene_ex.
Proof. vm_compute. reflexivity. Qed.

Lemma zero_market_raises_witness :
  create_venn_diagram coarse_pi coarse_cos coarse_sin coarse_sqrt coarse_log10
    idx_zero = Raise ZeroDivisionError.
Proof.
  apply (zero_market_raises
           coarse_pi coarse_cos coarse_sin coarse_sqrt coarse_log10
           idx_zero "X" "A" (Asset.mk (VStr "X") ["A"] 0 0)).
  - repeat constructor. simpl. tauto.
  - intros e ent H. each_entry H. simpl. lra.
  - reflexivity.
  - reflexivity.
  - simpl. auto.
  - simpl. auto.
Defined.

Lemma zones_count_and_floor_witness :
  length (zones scene_ex) = length (entities idx_ex)
  /\ Forall (fun z => 40 <= zone_size z) (zones scene_ex).
Proof.
  exact (zones_count_and_floor
           coarse_pi coarse_cos coarse_sin coarse_sqrt coarse_log10
           idx_ex scene_ex scene_ex_create).
Defined.

Lemma bubbles_largest_first_witness :
  StronglySorted (fun b1 b2 => bubble_size b2 <= bubble_size b1)
    (bubbles scene_ex).
Proof.
  exact (bubbles_largest_first
           coarse_pi coarse_cos coarse_sin coarse_sqrt coarse_log10
           idx_ex scene_ex scene_ex_create).
Defined.


Lemma create_venn_diagram_returns_witness :
  exists scene,
    create_venn_diagram coarse_pi coarse_cos coarse_sin coarse_sqrt coarse_log10
      idx_ex = Ok scene.
Proof.
  apply (create_venn_diagram_returns
           coarse_pi coarse_cos coarse_sin coarse_sqrt coarse_log10 idx_ex).
  - repeat constructor; simpl; intuition discriminate.
  - intros e ent H. each_entry H; simpl; lra.
  - intros H. vm_compute in H. discriminate H.
  - intros a ai H. each_entry H; simpl; intros Hz; vm_compute in Hz;
      discriminate Hz.
Defined.

(** ** The index the aggregator returns *)


(** ** The selection filter: what it keeps, and in which order *)

Lemma restrict_acc_lookup {V : Type} (d : dict V) k :
  forall selected acc,
    Dict.get
      (fold_left
         (fun acc k =>
            match Dict.get d k with
            | Some v => Dict.setitem acc k v
            | None => acc
            end)
         selected acc) k
    = match (if existsb (String.eqb k) selected then Dict.get d k else None) with
      | Some v => Some v
      | None => Dict.get acc k
      end.
Proof.
  induction selected as [|k0 selected IH]; intros acc; simpl; [reflexivity|].
  rewrite IH. clear IH.
  destruct (existsb (String.eqb k) selected) eqn:Ein.
  - rewrite orb_true_r. destruct (Dict.get d k) as [v|] eqn:Ek; [reflexivity|].
    destruct (Dict.get d k0) as [v0|] eqn:E0; [|reflexivity].
    apply get_setitem_neq. intros ->. congruence.
  - rewrite orb_false_r. destruct (String.eqb k k0) eqn:Ekk.
    + apply String.eqb_eq in Ekk; subst k0.
      destruct (Dict.get d k) as [v|]; [apply get_setitem_eq | reflexivity].
    + destruct (Dict.get d k0) as [v0|]; [|reflexivity].
      apply get_setitem_neq. intros ->. now rewrite String.eqb_refl in Ekk.
Qed.

Lemma restrict_acc_order {V : Type} (d : dict V) :
  forall selected acc,
    Dict.keys
      (fold_left
         (fun acc k =>
            match Dict.get d k with
            | Some v => Dict.setitem acc k v
            | None => acc
            end)
         selected acc)
    = Dict.keys acc
      ++ first_seen (Dict.keys acc) (filter (Dict.contains d) selected).
Proof.
  induction selected as [|k0 selected IH]; intros acc; simpl.
  - now rewrite app_nil_r.
  - rewrite IH. clear IH.
    destruct (Dict.get d k0) as [v0|] eqn:E0.
    2:{ assert (Dict.contains d k0 = false) as Hc
          by (unfold Dict.contains; now rewrite E0).
        now rewrite Hc. }
    assert (Dict.contains d k0 = true) as Hc
        by (unfold Dict.contains; now rewrite E0).
    rewrite Hc. simpl. rewrite keys_setitem.
    destruct (Dict.contains acc k0) eqn:Ec.
    + apply contains_true, existsb_eqb_In in Ec. now rewrite Ec.
    + destruct (existsb (String.eqb k0) (Dict.keys acc)) eqn:Ee.
      * apply existsb_eqb_In, contains_true in Ee. congruence.
      * now rewrite <- app_assoc.
Qed.

(** X13: the selection filter keeps an entry exactly when its key is
    selected and is in the dictionary (other selected keys are ignored),
    with the value it has there; the kept keys come in the order of their
    first selection. *)
Theorem restrict_keeps_selected {V : Type} (d : dict V)
    (selected : list string) :
  (forall k,
     Dict.get (restrict d selected) k
     = if existsb (String.eqb k) selected then Dict.get d k else None)
  /\ Dict.keys (restrict d selected)
     = first_seen [] (filter (Dict.contains d) selected).
Proof.
  split.
  - intros k. unfold restrict. rewrite restrict_acc_lookup. simpl.
    destruct (existsb (String.eqb k) selected); [|reflexivity].
    now destruct (Dict.get d k).
  - unfold restrict. now rewrite restrict_acc_order.
Qed.

(** ** The tier colours *)

Lemma Qle_bool_false a b : Qle_bool a b = false <-> b < a.
Proof.
  split.
  - intros H. destruct (Qlt_le_dec b a) as [Hlt|Hle]; [assumption|].
    apply Qle_bool_iff in Hle. congruence.
  - intros H. destruct (Qle_bool a b) eqn:E; [|reflexivity].
    apply Qle_bool_iff in E. lra.
Qed.

Ltac decide_bands :=
  repeat match goal with
         | |- context [Qle_bool ?a ?b] =>
             let E := fresh "E" in
             destruct (Qle_bool a b) eqn:E;
             [apply Qle_bool_iff in E | apply Qle_bool_false in E];
             simpl; try reflexivity; try lra
         end.

(** X14: the colour of a percentage is that of its band: grey below 1,
    green from 1, blue from 5, gold from 10 and red from 20; a percentage
    below 0 (in no band) also gets red, the last colour. *)
Theorem percentage_color_bands (p : Q) :
  (0 <= p < 1 -> percentage_color p = "#CCCCCC")
  /\ (1 <= p < 5 -> percentage_color p = "#92D050")
  /\ (5 <= p < 10 -> percentage_color p = "#00B0F0")
  /\ (10 <= p < 20 -> percentage_color p = "#FFC000")
  /\ (20 <= p -> percentage_color p = "#FF0000")
  /\ (p < 0 -> percentage_color p = "#FF0000").
Proof.
  unfold percentage_color, percentage_color_ranges.
  repeat split; intros H; simpl; decide_bands.
Qed.

(** ** The overlap matrix *)

Lemma foldM_raise_inv {S X : Type} (f : S -> X -> result S) (e : exn) (l : list X) :
  forall s, foldM f l s = Raise e -> exists x s0, In x l /\ f s0 x = Raise e.
Proof.
  induction l as [|x l IH]; intros s H; simpl in H; [discriminate|].
  destruct (f s x) as [s1|e1] eqn:E; simpl in H.
  - destruct (IH _ H) as (y & s0 & Hy & Hf). exists y, s0. split; [now right|auto].
  - inversion H; subst. exists x, s. split; [now left|auto].
Qed.

Lemma mapM_raise_inv {X Y : Type} (f : X -> result Y) (e : exn) (l : list X) :
  mapM f l = Raise e -> exists x, In x l /\ f x = Raise e.
Proof.
  induction l as [|x l IH]; intros H; simpl in H; [discriminate|].
  destruct (f x) as [y|e1] eqn:E; simpl in H.
  - destruct (mapM f l) as [ys|e2]; simpl in H; [discriminate|].
    inversion H; subst. destruct IH as (z & Hz & Hf); [reflexivity|].
    exists z. split; [now right|auto].
  - inversion H; subst. exists x. split; [now left|auto].
Qed.

Lemma overlap_cell_ok data asset row entity row' :
  overlap_cell data asset
    (match Dict.get (assets data) asset with
     | Some asset_info => Asset.entities asset_info
     | None => []
     end) row entity = Ok row' ->
  row' = Dict.setitem row entity (CNum (overlap_value data asset entity)).
Proof.
  unfold overlap_cell, overlap_value.
  destruct (Dict.get (assets data) asset) as [ai|]; simpl.
  - destruct (existsb (String.eqb entity) (Asset.entities ai)).
    + intros H. apply bind_ok in H as (ent & Hent & H).
      apply py_index_ok in Hent. rewrite Hent. now inversion H.
    + intros H. now inversion H.
  - intros H. now inversion H.
Qed.

Lemma overlap_row_ok data entity_names asset row :
  overlap_row data entity_names asset = Ok row ->
  overlap_row_of data entity_names asset row.
Proof.
  unfold overlap_row. intros H.
  pose proof
    (foldM_prefix_inv
       (overlap_cell data asset
          (match Dict.get (assets data) asset with
           | Some asset_info => Asset.entities asset_info
           | None => []
           end))
       (fun p r =>
          (~ In "Asset" p -> Dict.get r "Asset" = Some (CText asset))
          /\ forall e, In e p ->
               Dict.get r e = Some (CNum (overlap_value data asset e))))
    as Hinv.
  apply (Hinv) with (l := entity_names) (p := []) (s := [("Asset", CText asset)]);
    clear Hinv.
  - intros p e r r' (Hlabel & Hcells) Hstep.
    apply overlap_cell_ok in Hstep. subst r'. split.
    + intros Hnot. rewrite get_setitem_neq.
      * apply Hlabel. intros Hin. apply Hnot. apply in_app_iff. auto.
      * intros ->. apply Hnot. apply in_app_iff. simpl. auto.
    + intros e1 Hin. destruct (string_dec e e1) as [->|Hne].
      * apply get_setitem_eq.
      * rewrite get_setitem_neq by assumption.
        apply in_app_iff in Hin as [Hin|[Hin|[]]]; [auto | contradiction].
  - split; [reflexivity | intros e []].
  - exact H.
Qed.

Lemma overlap_matrix_rows_aux data entity_names asset_names :
  forall matrix,
    calculate_overlap_matrix data entity_names asset_names = Ok matrix ->
    Forall2 (overlap_row_of data entity_names) asset_names matrix.
Proof.
  unfold calculate_overlap_matrix.
  induction asset_names as [|a asset_names IH]; intros matrix H; simpl in H.
  - inversion H. constructor.
  - apply bind_ok in H as (row & Hrow & H).
    apply bind_ok in H as (rows & Hrows & H). inversion H; subst matrix.
    constructor; [now apply overlap_row_ok | auto].
Qed.

(** X15: a row of a returned overlap matrix holds, for each requested
    entity, the value the entity holds of the asset when it is listed as a
    holder and 0 otherwise (also for an asset that is not in the data); and
    the symbol under ["Asset"], unless an entity has that name. *)
Theorem overlap_matrix_rows (data : Index)
    (entity_names asset_names : list string) (matrix : list (dict cell)) :
  calculate_overlap_matrix data entity_names asset_names = Ok matrix ->
  Forall2 (overlap_row_of data entity_names) asset_names matrix.
Proof. apply overlap_matrix_rows_aux. Qed.

Lemma mapM_raises {X Y : Type} (f : X -> result Y) (e : exn) (l : list X) :
  (forall x, In x l -> (exists y, f x = Ok y) \/ f x = Raise e) ->
  (exists x, In x l /\ f x = Raise e) ->
  mapM f l = Raise e.
Proof.
  induction l as [|x l IH]; intros Hstep (x0 & Hin & Hx0); [destruct Hin|].
  simpl. destruct Hin as [Heq|Hin].
  - subst x0. now rewrite Hx0.
  - destruct (Hstep x (or_introl eq_refl)) as [(y & Hy) | Hy]; rewrite Hy;
      [|reflexivity].
    simpl. rewrite IH; [reflexivity| |eauto].
    intros z Hz. apply Hstep. now right.
Qed.

Lemma foldM_ok_or_raise {S X : Type} (f : S -> X -> result S) (e : exn)
    (l : list X) :
  (forall x s, In x l -> (exists s', f s x = Ok s') \/ f s x = Raise e) ->
  forall s, (exists s', foldM f l s = Ok s') \/ foldM f l s = Raise e.
Proof.
  induction l as [|x l IH]; intros Hstep s; simpl; [eauto|].
  destruct (Hstep x s (or_introl eq_refl)) as [(s' & Hs) | Hs]; rewrite Hs;
    simpl; [|auto].
  apply IH. intros y s0 Hy. apply Hstep. now right.
Qed.

Lemma overlap_cell_ok_or_raise data asset holders row entity :
  (exists row', overlap_cell data asset holders row entity = Ok row')
  \/ overlap_cell data asset holders row entity = Raise KeyError.
Proof.
  unfold overlap_cell, py_index.
  destruct (existsb (String.eqb entity) holders); [|eauto].
  destruct (Dict.get (entities data) entity); simpl; eauto.
Qed.

Lemma dangling_raises data entity_names asset_names :
  dangling_holder data entity_names asset_names ->
  calculate_overlap_matrix data entity_names asset_names = Raise KeyError.
Proof.
  intros (asset & asset_info & entity & Ha & He & Hai & Hlisted & Hnone).
  unfold calculate_overlap_matrix. apply mapM_raises.
  - intros a _. unfold overlap_row. apply foldM_ok_or_raise.
    intros e row _. apply overlap_cell_ok_or_raise.
  - exists asset. split; [exact Ha|].
    unfold overlap_row. rewrite Hai. apply foldM_raises.
    + intros e row _. apply overlap_cell_ok_or_raise.
    + exists entity. split; [exact He|]. intros row.
      unfold overlap_cell, py_index.
      apply existsb_eqb_In in Hlisted. rewrite Hlisted, Hnone. reflexivity.
Qed.

(** X16: the overlap matrix raises [KeyError] when a requested entity is
    listed as a holder of a requested asset without being an entity of the
    data, and is returned otherwise; nothing else is ever raised. *)
Theorem overlap_matrix_key_error (data : Index)
    (entity_names asset_names : list string) :
  (dangling_holder data entity_names asset_names ->
   calculate_overlap_matrix data entity_names asset_names = Raise KeyError)
  /\ (~ dangling_holder data entity_names asset_names ->
      exists matrix,
        calculate_overlap_matrix data entity_names asset_names = Ok matrix)
  /\ (forall e,
        calculate_overlap_matrix data entity_names asset_names = Raise e ->
        e = KeyError /\ dangling_holder data entity_names asset_names).
Proof.
  assert (forall e,
             calculate_overlap_matrix data entity_names asset_names = Raise e ->
             e = KeyError /\ dangling_holder data entity_names asset_names)
    as Hraise.
  { intros e H. apply mapM_raise_inv in H as (a & Ha & H).
    unfold overlap_row in H.
    apply foldM_raise_inv in H as (entity & row & He & H).
    unfold overlap_cell in H.
    destruct (Dict.get (assets data) a) as [ai|] eqn:Eai; simpl in H;
      [|discriminate].
    destruct (existsb (String.eqb entity) (Asset.entities ai)) eqn:El;
      [|discriminate].
    unfold py_index in H.
    destruct (Dict.get (entities data) entity) eqn:Ee; simpl in H;
      [discriminate|].
    inversion H; subst e. split; [reflexivity|].
    exists a, ai, entity. apply existsb_eqb_In in El. auto 6. }
  split; [apply dangling_raises|]. split; [|exact Hraise].
  intros Hnone.
  destruct (calculate_overlap_matrix data entity_names asset_names)
    as [m|e] eqn:E; [eauto|].
  destruct (Hraise e eq_refl) as (_ & Hd). contradiction.
Qed.

Lemma overlap_matrix_key_error_witness :
  assets (filtered_data idx_ex ["A"] ["X"])
  = [("X", Asset.mk (VStr "X") ["A"; "B"] 0 400)]
  /\ Dict.keys (entities (filtered_data idx_ex ["A"] ["X"])) = ["A"]
  /\ calculate_overlap_matrix (filtered_data idx_ex ["A"] ["X"])
       ["A"; "B"] ["X"] = Raise KeyError.
Proof.
  split; [reflexivity|]. split; [reflexivity|].
  apply (proj1 (overlap_matrix_key_error (filtered_data idx_ex ["A"] ["X"])
                  ["A"; "B"] ["X"])).
  exists "X", (Asset.mk (VStr "X") ["A"; "B"] 0 400), "B".
  split; [simpl; auto|]. split; [simpl; auto|]. split; [reflexivity|].
  split; [simpl; auto|]. reflexivity.
Defined.



Lemma overlap_matrix_rows_witness :
  Forall2 (overlap_row_of idx_ex ["A"; "B"]) ["X"; "Z"] matrix_ex.
Proof.
  exact (overlap_matrix_rows idx_ex ["A"; "B"] ["X"; "Z"] matrix_ex eq_refl).
Defined.


(** ** The table of the page script *)

Lemma selected_assets_total idx selected_entities selected_assets :
  mapM (fun a =>
          a_info <- py_index
                      (assets (filtered_data idx selected_entities
                                 selected_assets)) a ;;
          Ok (Asset.total_value a_info))
       (Dict.keys (assets (filtered_data idx selected_entities selected_assets)))
  = Ok (map (total_of idx)
          (first_seen [] (filter (Dict.contains (assets idx)) selected_assets))).
Proof.
  unfold filtered_data. simpl.
  set (R := restrict (assets idx) selected_assets).
  assert (NoDup (Dict.keys R)) as HR by apply restrict_nodup.
  rewrite (mapM_index_keys R (fun _ v => Asset.total_value v) HR).
  f_equal.
  assert (Dict.keys R
          = first_seen [] (filter (Dict.contains (assets idx)) selected_assets))
    as Hkeys.
  { unfold R, restrict. rewrite restrict_acc_order. reflexivity. }
  rewrite <- Hkeys. unfold Dict.keys. rewrite map_map.
  apply map_ext_in. intros [k v] Hin. simpl.
  apply (In_get R k v HR) in Hin. apply restrict_get in Hin.
  unfold total_of. now rewrite Hin.
Qed.

Lemma table_row_cases idx selected_entities selected_assets acc asset acc' :
  table_row idx (filtered_data idx selected_entities selected_assets)
    selected_entities acc asset = Ok acc' ->
  let total :=
    py_sum (map (total_of idx)
              (first_seen []
                 (filter (Dict.contains (assets idx)) selected_assets))) in
  (Dict.contains (assets idx) asset = false /\ acc' = acc)
  \/ (Dict.contains (assets idx) asset = true
      /\ ~ total == 0
      /\ exists r,
           acc' = acc ++ [r] /\ row_asset r = asset
           /\ row_total_value r = total_of idx asset
           /\ row_market_share r = total_of idx asset / total * 100).
Proof.
  intros H total. unfold table_row in H. unfold Dict.contains, total_of.
  destruct (Dict.get (assets idx) asset) as [ai|] eqn:Eai.
  - right. split; [reflexivity|].
    apply bind_ok in H as (held & _ & H).
    rewrite (selected_assets_total idx selected_entities selected_assets)
      in H. simpl in H.
    apply bind_ok in H as (share & Hshare & H).
    apply py_div_ok in Hshare as (Hnz & ->).
    inversion H; subst acc'; clear H.
    split; [exact Hnz|]. eexists; split; [reflexivity|]. simpl.
    repeat split; reflexivity.
  - left. inversion H; auto.
Qed.

Lemma table_rows_shares idx selected_entities selected_assets :
  let total :=
    py_sum (map (total_of idx)
              (first_seen []
                 (filter (Dict.contains (assets idx)) selected_assets))) in
  forall names acc rows,
    foldM (table_row idx
             (filtered_data idx selected_entities selected_assets)
             selected_entities) names acc = Ok rows ->
    exists new,
      rows = acc ++ new
      /\ map row_asset new = filter (Dict.contains (assets idx)) names
      /\ Forall (fun r =>
                   row_total_value r = total_of idx (row_asset r)
                   /\ row_market_share r
                      = total_of idx (row_asset r) / total * 100) new
      /\ (new <> [] -> ~ total == 0).
Proof.
  intros total names.
  induction names as [|a names IH]; intros acc rows H; simpl in H.
  - inversion H; subst. exists []. rewrite app_nil_r. simpl. intuition.
  - apply bind_ok in H as (acc1 & H1 & H).
    destruct (IH _ _ H) as (new & -> & Hassets & Hshares & Hnz). clear IH H.
    apply table_row_cases in H1.
    destruct H1 as [(Hc & ->)|(Hc & Hnz1 & r & -> & Hra & Hrv & Hrs)]; simpl;
      rewrite Hc.
    + exists new. auto.
    + exists (r :: new). rewrite <- app_assoc. simpl.
      rewrite Hra, Hassets. repeat split; auto.
      constructor; [|exact Hshares]. rewrite Hra. auto.
Qed.

(** X18: when the table is built it has one row for each selected asset
    that is in the index, in selection order, with the total value of the
    asset; the market share of a row is that total divided by the sum of
    the totals of the selected assets of the index (each once, in the
    order of its first selection), times 100, and that sum is not 0 when
    the table has a row. *)
Theorem table_rows_and_shares (idx : Index)
    (selected_entities selected_assets : list string) (rows : list TableRow) :
  table_data idx selected_entities selected_assets = Ok rows ->
  map row_asset rows = filter (Dict.contains (assets idx)) selected_assets
  /\ Forall
       (fun r =>
          row_total_value r = total_of idx (row_asset r)
          /\ row_market_share r
             = total_of idx (row_asset r)
               / py_sum
                   (map (total_of idx)
                      (first_seen []
                         (filter (Dict.contains (assets idx))
                            selected_assets)))
               * 100)
       rows
  /\ (rows <> [] ->
      ~ py_sum
          (map (total_of idx)
             (first_seen []
                (filter (Dict.contains (assets idx)) selected_assets)))
        == 0).
Proof.
  intros H. unfold table_data in H.
  apply (table_rows_shares idx selected_entities selected_assets) in H
    as (new & Hrows & Hassets & Hshares & Hnz).
  simpl in Hrows. subst rows. auto.
Qed.

Lemma table_rows_and_shares_witness :
  exists rows,
    table_data idx_ex ["A"; "B"] ["Y"; "Q"; "X"; "Y"] = Ok rows
    /\ map row_asset rows = ["Y"; "X"; "Y"]
    /\ Forall
         (fun r =>
            row_total_value r = total_of idx_ex (row_asset r)
            /\ row_market_share r
               = total_of idx_ex (row_asset r)
                 / py_sum (map (total_of idx_ex) ["Y"; "X"]) * 100)
         rows
    /\ (rows <> [] -> ~ py_sum (map (total_of idx_ex) ["Y"; "X"]) == 0).
Proof.
  eexists. split; [vm_compute; reflexivity|].
  apply (table_rows_and_shares idx_ex ["A"; "B"] ["Y"; "Q"; "X"; "Y"]).
  vm_compute. reflexivity.
Defined.

(** ** The fetch loop *)






(** X20: unlike the filter before it, the table does not skip a selected
    entity that the index does not have: as soon as one selected asset is
    in the index, building the table raises KeyError. *)
Theorem table_unknown_entity (idx : Index)
    (selected_entities selected_assets : list string) (entity asset : string) :
  In entity selected_entities ->
  Dict.get (entities idx) entity = None ->
  In asset selected_assets ->
  Dict.contains (assets idx) asset = true ->
  table_data idx selected_entities selected_assets = Raise KeyError.
Proof.
  intros Hentity Hnone Hasset Hcontains. unfold table_data.
  assert (forall a,
            mapM (fun entity0 =>
                    entity_info <- py_index (entities idx) entity0 ;;
                    Ok (entity0,
                        Dict.contains (Entity.assets entity_info) a))
                 selected_entities = Raise KeyError) as Hheld.
  { intros a. apply mapM_raises.
    - intros x _. unfold py_index.
      destruct (Dict.get (entities idx) x); simpl; eauto.
    - exists entity. split; [assumption|].
      unfold py_index. now rewrite Hnone. }
  apply foldM_raises.
  - intros a acc _. unfold table_row.
    destruct (Dict.get (assets idx) a); [|eauto].
    right. now rewrite Hheld.
  - exists asset. split; [assumption|]. intros acc. unfold table_row.
    unfold Dict.contains in Hcontains.
    destruct (Dict.get (assets idx) asset); [|discriminate].
    now rewrite Hheld.
Qed.

Lemma table_unknown_entity_witness :
  table_data idx_ex ["A"; "C"] ["Q"; "X"] = Raise KeyError
  /\ entities (filtered_data idx_ex ["A"; "C"] ["Q"; "X"])
     = restrict (entities idx_ex) ["A"].
Proof.
  split; [|reflexivity].
  apply (table_unknown_entity idx_ex ["A"; "C"] ["Q"; "X"] "C" "X").
  - simpl; auto.
  - reflexivity.
  - simpl; auto.
  - reflexivity.
Defined.

(** ** The asset choices of the sidebar *)

Lemma sorted_desc_fixed {X : Type} (key : X -> Q) (l : list X) :
  StronglySorted (ge_key key) l -> sorted_desc key l = l.
Proof.
  induction 1 as [|x l Hs IH Hall]; simpl; [reflexivity|].
  rewrite IH. destruct l as [|y l]; [reflexivity|]. simpl.
  inversion Hall as [|? ? Hy _]; subst. unfold ge_key in Hy.
  apply Qle_bool_iff in Hy. now rewrite Hy.
Qed.

Lemma StronglySorted_keyed {X Y : Type} (key : X -> Q) (key' : Y -> Q)
    (h : X -> Y) (l : list X) :
  (forall x, key' (h x) = key x) ->
  StronglySorted (ge_key key) l -> StronglySorted (ge_key key') (map h l).
Proof.
  intros Hkey. induction 1 as [|x l Hs IH Hall]; simpl; constructor; auto.
  apply Forall_map. eapply Forall_impl; [|exact Hall].
  intros y Hy. unfold ge_key in *. now rewrite !Hkey.
Qed.

(** X21: on an index the aggregator returned, the sidebar's own sort of
    the assets changes nothing: its options are the asset keys of the
    index in the order they have there, and the default selection is the
    first ten of them. *)
Theorem sidebar_keeps_index_order (raw_data : dict value) (idx : Index) :
  process_market_maker_data raw_data = Ok idx ->
  sorted_assets idx = Ok (Dict.keys (assets idx))
  /\ default_assets idx = Ok (firstn 10 (Dict.keys (assets idx))).
Proof.
  intros H.
  assert (sorted_assets idx = Ok (Dict.keys (assets idx))) as Hsorted.
  { unfold process_market_maker_data in H.
    apply bind_ok in H as (st & Hst & H). inversion H; subst idx; clear H.
    unfold fold_entities in Hst.
    assert (NoDup (Dict.keys (assets st))) as Hna.
    { eapply fold_entities_assets_nodup; eauto. simpl. constructor. }
    unfold sorted_assets. rewrite sort_assets_perm by assumption.
    set (l := sorted_desc asset_key (assets st)).
    assert (NoDup (Dict.keys l)) as Hnl.
    { eapply Permutation_NoDup; [|exact Hna].
      apply Permutation_map. symmetry. apply sorted_desc_perm. }
    rewrite (mapM_index_keys l (fun k v => (k, Asset.total_value v)) Hnl).
    simpl. f_equal.
    rewrite sorted_desc_fixed.
    - unfold Dict.keys. rewrite map_map. reflexivity.
    - apply (StronglySorted_keyed asset_key); [reflexivity|].
      apply sorted_desc_sorted. }
  split; [exact Hsorted|].
  unfold default_assets. now rewrite Hsorted.
Qed.

Lemma sidebar_keeps_index_order_witness :
  sorted_assets idx_ex = Ok (Dict.keys (assets idx_ex))
  /\ default_assets idx_ex = Ok (firstn 10 (Dict.keys (assets idx_ex))).
Proof.
  apply (sidebar_keeps_index_order raw_ex idx_ex). reflexivity.
Defined.
